(** * Exoplanet Explorer front end: query building, fetch state and paging

    A shallow embedding of the client-side logic of the exoplanet-api
    front end, and the properties of it that the specification states.

    Two independent clients live in the repository:
    - "Builder A" (paged contract): [api/client] ([buildUrl], [get]),
      [hooks/usePlanetFilters], [hooks/usePlanetList] and
      [components/PlanetsTable];
    - "Builder B" (offset contract): the [ExoplanetDashboard] component with
      [numericOrUndefined], [formatNumber], [buildParams], [fetchAll],
      [goToPage] and its paging controls.

    Layout: the JavaScript values the code computes with ([Js]), the HTTP
    helper ([Client]), Builder A, Builder B, and then the theorems. *)

From Stdlib Require Import ZArith QArith Qround String Ascii List Bool.
From Stdlib Require Import Lia Lqa DecimalString.
From Stdlib Require Qcanon.
Import ListNotations.

Local Open Scope string_scope.

(* ================================================================== *)
(** * JavaScript values *)
(* ================================================================== *)

Module Js.

(** ** Numbers

    A JavaScript number is an IEEE-754 double.  The embedding keeps the three
    non-finite values apart and takes the finite ones as rationals.
    Comparisons, [Math.max], [Math.min], [Math.floor] and [Math.ceil] are
    exact on doubles and are the ones below.  The sum, the product and the
    quotient of two doubles are the exact results rounded to a double; the
    operations below give the exact results, so they are those of the code
    wherever the exact result is a double, and so for sums and products of
    whole numbers that stay within [MAX_SAFE_INTEGER].  The quotient of two
    such whole numbers need not be a double, but its floor and its ceiling
    are those of the exact quotient as long as numerator plus denominator
    stay within [MAX_SAFE_INTEGER].  The sign of zero is left out. *)

Inductive number : Type :=
| NaN
| PosInf
| NegInf
| Fin (q : Q).

Definition Qlt_bool (x y : Q) : bool := negb (Qle_bool y x).

Definition of_Z (z : Z) : number := Fin (inject_Z z).

(** [Number.MAX_SAFE_INTEGER], 2^53 - 1: up to it every whole number is a
    double. *)
Definition MAX_SAFE_INTEGER : Z := 9007199254740991.

(** [Number.isFinite] *)
Definition isFinite (x : number) : bool :=
  match x with Fin _ => true | _ => false end.

(** [ToBoolean] on a number: [NaN] and zero are falsy. *)
Definition truthy (x : number) : bool :=
  match x with
  | NaN => false
  | Fin q => negb (Qeq_bool q 0)
  | _ => true
  end.

(** [a || b] on numbers. *)
Definition or_else (a b : number) : number := if truthy a then a else b.

Definition neg (x : number) : number :=
  match x with
  | NaN => NaN
  | PosInf => NegInf
  | NegInf => PosInf
  | Fin q => Fin (- q)
  end.

(** Sign used by the multiplication and division tables. *)
Definition signed_inf (positive : bool) : number :=
  if positive then PosInf else NegInf.

Definition add (a b : number) : number :=
  match a, b with
  | NaN, _ | _, NaN => NaN
  | PosInf, NegInf | NegInf, PosInf => NaN
  | PosInf, _ | _, PosInf => PosInf
  | NegInf, _ | _, NegInf => NegInf
  | Fin x, Fin y => Fin (x + y)
  end.

Definition sub (a b : number) : number := add a (neg b).

Definition mul (a b : number) : number :=
  match a, b with
  | NaN, _ | _, NaN => NaN
  | Fin x, Fin y => Fin (x * y)
  | Fin x, PosInf | PosInf, Fin x =>
      if Qeq_bool x 0 then NaN else signed_inf (Qlt_bool 0 x)
  | Fin x, NegInf | NegInf, Fin x =>
      if Qeq_bool x 0 then NaN else signed_inf (Qlt_bool x 0)
  | PosInf, PosInf | NegInf, NegInf => PosInf
  | PosInf, NegInf | NegInf, PosInf => NegInf
  end.

Definition div (a b : number) : number :=
  match a, b with
  | NaN, _ | _, NaN => NaN
  | Fin x, Fin y =>
      if Qeq_bool y 0
      then (if Qeq_bool x 0 then NaN else signed_inf (Qlt_bool 0 x))
      else Fin (x / y)
  | Fin _, _ => Fin 0
  | PosInf, Fin y => signed_inf (Qle_bool 0 y)
  | NegInf, Fin y => signed_inf (Qlt_bool y 0)
  | _, _ => NaN
  end.

(** Relational operators: every comparison with [NaN] is false. *)
Definition lt (a b : number) : bool :=
  match a, b with
  | NaN, _ | _, NaN => false
  | Fin x, Fin y => Qlt_bool x y
  | NegInf, NegInf => false
  | NegInf, _ => true
  | _, PosInf => match a with PosInf => false | _ => true end
  | _, _ => false
  end.

Definition le (a b : number) : bool :=
  match a, b with
  | NaN, _ | _, NaN => false
  | Fin x, Fin y => Qle_bool x y
  | NegInf, _ => true
  | _, PosInf => true
  | _, _ => false
  end.

Definition gt (a b : number) : bool := lt b a.
Definition ge (a b : number) : bool := le b a.

(** [Math.max] and [Math.min] of two arguments. *)
Definition max (a b : number) : number :=
  match a, b with
  | NaN, _ | _, NaN => NaN
  | _, _ => if lt a b then b else a
  end.

Definition min (a b : number) : number :=
  match a, b with
  | NaN, _ | _, NaN => NaN
  | _, _ => if lt b a then b else a
  end.

(** [Math.floor] and [Math.ceil] *)
Definition floor (x : number) : number :=
  match x with Fin q => of_Z (Qfloor q) | _ => x end.

Definition ceil (x : number) : number :=
  match x with Fin q => of_Z (Qceiling q) | _ => x end.

(** [Object.is] on numbers (the comparison React and the query cache use). *)
Definition same (a b : number) : bool :=
  match a, b with
  | NaN, NaN | PosInf, PosInf | NegInf, NegInf => true
  | Fin x, Fin y => Qeq_bool x y
  | _, _ => false
  end.

(** Equality of two numbers as values: finite ones up to the representation
    of the rational. *)
Definition num_eq (a b : number) : Prop :=
  match a, b with
  | NaN, NaN | PosInf, PosInf | NegInf, NegInf => True
  | Fin x, Fin y => x == y
  | _, _ => False
  end.

(** ** Strings *)

(** Decimal rendering of an integer, as [String(n)] and template literals
    print integers below 10^21. *)
Definition string_of_Z (z : Z) : string := NilZero.string_of_int (Z.to_int z).

(** Strings are byte strings holding UTF-8.  [trim] removes the code points
    of ECMAScript's WhiteSpace and LineTerminator classes: U+0009 to U+000D
    and U+0020, one byte each; U+00A0, two bytes; U+1680, U+2000 to U+200A,
    U+2028, U+2029, U+202F, U+205F, U+3000 and U+FEFF, three bytes each. *)
Definition is_space (c : ascii) : bool :=
  let n := nat_of_ascii c in
  ((9 <=? n) && (n <=? 13))%nat || (n =? 32)%nat.

(** U+00A0 is C2 A0. *)
Definition space2 (c d : ascii) : bool :=
  ((N_of_ascii c =? 194) && (N_of_ascii d =? 160))%N.

(** U+1680 is E1 9A 80; U+2000 to U+200A are E2 80 80 to E2 80 8A; U+2028,
    U+2029 and U+202F are E2 80 A8, E2 80 A9 and E2 80 AF; U+205F is
    E2 81 9F; U+3000 is E3 80 80; U+FEFF is EF BB BF. *)
Definition space3 (c d e : ascii) : bool :=
  let x := N_of_ascii c in
  let y := N_of_ascii d in
  let z := N_of_ascii e in
  (((x =? 225) && (y =? 154) && (z =? 128))
   || ((x =? 226) && (y =? 128)
       && (((128 <=? z) && (z <=? 138)) || (z =? 168) || (z =? 169) || (z =? 175)))
   || ((x =? 226) && (y =? 129) && (z =? 159))
   || ((x =? 227) && (y =? 128) && (z =? 128))
   || ((x =? 239) && (y =? 187) && (z =? 191)))%N.

(** Whether a string starts with a white space code point. *)
Definition head_space (s : string) : bool :=
  match s with
  | EmptyString => false
  | String c r =>
      is_space c
      || match r with
         | String d r1 =>
             space2 c d
             || match r1 with
                | String e _ => space3 c d e
                | EmptyString => false
                end
         | EmptyString => false
         end
  end.

(** Whether a string is white space from end to end; the empty string
    is. *)
Fixpoint all_space (s : string) : bool :=
  match s with
  | EmptyString => true
  | String c r =>
      if is_space c then all_space r
      else match r with
           | String d r1 =>
               if space2 c d then all_space r1
               else match r1 with
                    | String e r2 => space3 c d e && all_space r2
                    | EmptyString => false
                    end
           | EmptyString => false
           end
  end.

Fixpoint trimStart (s : string) : string :=
  match s with
  | EmptyString => EmptyString
  | String c r =>
      if is_space c then trimStart r
      else match r with
           | String d r1 =>
               if space2 c d then trimStart r1
               else match r1 with
                    | String e r2 => if space3 c d e then trimStart r2 else s
                    | EmptyString => s
                    end
           | EmptyString => s
           end
  end.

(** Drops the trailing white space: the string ends where only white space
    follows. *)
Fixpoint trimEnd (s : string) : string :=
  match s with
  | EmptyString => EmptyString
  | String c r => if all_space s then EmptyString else String c (trimEnd r)
  end.

(** [String.prototype.trim] *)
Definition trim (s : string) : string := trimEnd (trimStart s).

(** ToBoolean on a string: only the empty string is falsy. *)
Definition nonempty (s : string) : bool :=
  match s with EmptyString => false | _ => true end.

(** ** Errors and promises *)

(** A thrown value: the [name] and [message] of an [Error] object. *)
Record Error : Type := mkError { err_name : string; err_message : string }.

(** [new Error(message)] *)
Definition new_Error (message : string) : Error := mkError "Error" message.

(** The outcome of a settled promise. *)
Inductive Settled (A : Type) : Type :=
| Fulfilled (value : A)
| Rejected (reason : Error).
Arguments Fulfilled {A} value.
Arguments Rejected {A} reason.

(** [p.then(f)], and [await] inside an [async] function. *)
Definition and_then {A B : Type} (p : Settled A) (f : A -> Settled B) : Settled B :=
  match p with
  | Fulfilled a => f a
  | Rejected e => Rejected e
  end.

Notation "x <- p ;; k" := (and_then p (fun x => k))
  (at level 61, p at next level, right associativity).

(** ** URLSearchParams

    The name-value list of a [URLSearchParams] object, in order. *)

Definition SearchParams : Type := list (string * string).

Definition named (k : string) (p : string * string) : bool := String.eqb (fst p) k.

(** [params.delete(k)] *)
Definition usp_delete (k : string) (sp : SearchParams) : SearchParams :=
  filter (fun p => negb (named k p)) sp.

(** [params.set(k, v)]: the first pair named [k] takes the value and the
    other pairs named [k] are removed; when there is none the pair is
    appended. *)
Fixpoint usp_set (k v : string) (sp : SearchParams) : SearchParams :=
  match sp with
  | [] => [(k, v)]
  | p :: rest =>
      if named k p then (k, v) :: usp_delete k rest
      else p :: usp_set k v rest
  end.

(** [params.getAll(k)] *)
Definition usp_getAll (k : string) (sp : SearchParams) : list string :=
  map snd (filter (named k) sp).

(** [params.get(k)], with [None] for [null] *)
Definition usp_get (k : string) (sp : SearchParams) : option string :=
  hd_error (usp_getAll k sp).

(** [params.has(k)] *)
Definition usp_has (k : string) (sp : SearchParams) : bool :=
  existsb (named k) sp.

(** [Array.from(params.keys())] *)
Definition usp_keys (sp : SearchParams) : list string := map fst sp.

(** ** The host environment

    What the browser provides and the repository only calls: number parsing
    and printing, locale formatting, and URL parsing and serialisation. *)

(** A parsed URL: everything outside the query, and the list behind
    [url.searchParams]. *)
Record URL : Type := mkURL {
  url_base : string;
  searchParams : SearchParams
}.

(** [url.searchParams.set(k, v)] *)
Definition url_set (k v : string) (u : URL) : URL :=
  mkURL (url_base u) (usp_set k v (searchParams u)).

(** An HTTP response as [fetch] resolves it: the status line and the
    outcome of reading the body with [res.json()]. *)
Record Response (J : Type) : Type := mkResponse {
  status : nat;
  json : Settled J
}.
Arguments mkResponse {J} status json.
Arguments status {J} r.
Arguments json {J} r.

(** [res.ok]: the Fetch standard defines it as a status in 200..299. *)
Definition ok {J : Type} (r : Response J) : bool :=
  ((200 <=? status r) && (status r <=? 299))%nat.

Class Host : Type := {
  (** [Number(s)] on a string (StringToNumber) *)
  parseNumber : string -> number;
  (** [String(x)] where the integer rendering below does not apply *)
  printNumber : number -> string;
  (** [x.toLocaleString(undefined, { maximumFractionDigits })] *)
  toLocaleString : number -> nat -> string;
  (** [x.toFixed(digits)] *)
  toFixed : number -> nat -> string;
  (** [new URL(path, base)] *)
  newURL : string -> string -> URL;
  (** [url.toString()] *)
  URL_toString : URL -> string
}.

(** [String(x)] for a number: the special values, integers of magnitude
    below 10^21 in plain decimal, the host's digits otherwise. *)
Definition NumberToString `{Host} (x : number) : string :=
  match x with
  | NaN => "NaN"
  | PosInf => "Infinity"
  | NegInf => "-Infinity"
  | Fin q =>
      let r := Qred q in
      if (Pos.eqb (Qden r) 1 && (Z.abs (Qnum r) <? 10 ^ 21)%Z)%bool
      then string_of_Z (Qnum r)
      else printNumber x
  end.

End Js.

(* ================================================================== *)
(** * The HTTP helper ([api/client]) *)
(* ================================================================== *)

Module Client.
Import Js.

(** A value of a parameter record: [string | number | undefined]. *)
Inductive Param : Type :=
| PUndefined
| PString (s : string)
| PNumber (n : number).

(** [Record<string, string | number | undefined>], as [Object.entries]
    lists it. *)
Definition Params : Type := list (string * Param).

(** [value !== undefined && value !== ''] *)
Definition present (value : Param) : bool :=
  match value with
  | PUndefined => false
  | PString s => nonempty s
  | PNumber _ => true
  end.

Section WithHost.
Context `{Host}.

(** [import.meta.env.VITE_API_BASE_URL], when the build defines it. *)
Variable VITE_API_BASE_URL : option string.

Definition API_BASE_URL : string :=
  match VITE_API_BASE_URL with
  | Some u => u
  | None => "http://localhost:8000"
  end.

(** [String(value)] *)
Definition String_ (value : Param) : string :=
  match value with
  | PUndefined => "undefined"
  | PString s => s
  | PNumber n => NumberToString n
  end.

(** The body of the [forEach]: [url.searchParams.set(key, String(value))]. *)
Definition set_entry (url : URL) (entry : string * Param) : URL :=
  url_set (fst entry) (String_ (snd entry)) url.

(** The pair an entry contributes to the query. *)
Definition query_entry (entry : string * Param) : string * string :=
  (fst entry, String_ (snd entry)).

(** The query the specification asks for, read off a parameter record:
    the entries whose value is neither [undefined] nor the empty string, in
    the order of the record, each with its value as a string. *)
Fixpoint expected_query (params : Params) : SearchParams :=
  match params with
  | [] => []
  | (key, PUndefined) :: rest => expected_query rest
  | (key, PString EmptyString) :: rest => expected_query rest
  | (key, PString s) :: rest => (key, s) :: expected_query rest
  | (key, PNumber n) :: rest => (key, NumberToString n) :: expected_query rest
  end.

(** The [url] object of [buildUrl] when it reaches [url.toString()]. *)
Definition buildUrl_url (path : string) (params : option Params) : URL :=
  let url := newURL path API_BASE_URL in
  match params with
  | Some ps => fold_left set_entry (filter (fun entry => present (snd entry)) ps) url
  | None => url
  end.

Definition buildUrl (path : string) (params : option Params) : string :=
  URL_toString (buildUrl_url path params).

(** [get]; [fetch] is the network: what the request to a URL settles to. *)
Definition get {T : Type} (fetch : string -> Settled (Response T))
    (path : string) (params : option Params) : Settled T :=
  response <- fetch (buildUrl path params) ;;
  if negb (ok response)
  then Rejected (new_Error ("Request failed with status "
                            ++ NumberToString (of_Z (Z.of_nat (status response)))))
  else json response.

End WithHost.
End Client.

(* ================================================================== *)
(** * Builder A: the paged catalog *)
(* ================================================================== *)

Module BuilderA.
Import Js Client.

(** ** [types.ts] *)

Record PlanetSummary : Type := {
  id : number;
  name : string;
  discovery_method : string;
  discovery_year : option number;
  orbital_period : option number;
  radius : option number;
  mass : option number
}.

Record PlanetListResponse : Type := {
  results : list PlanetSummary;
  page : number;
  pages : number;
  total : number
}.

(** ** [hooks/usePlanetFilters] *)

Record PlanetFilterState : Type := {
  search : string;
  method : string;
  minYear : string;
  maxYear : string;
  orderBy : string;
  orderDir : string
}.

Definition defaultState : PlanetFilterState := {|
  search := "";
  method := "";
  minYear := "";
  maxYear := "";
  orderBy := "discovery_year";
  orderDir := "desc"
|}.

(** [keyof PlanetFilterState] *)
Inductive FilterKey : Type :=
| Ksearch | Kmethod | KminYear | KmaxYear | KorderBy | KorderDir.

(** [{ ...prev, [key]: value }] *)
Definition with_field (prev : PlanetFilterState) (key : FilterKey) (value : string)
  : PlanetFilterState :=
  match key with
  | Ksearch   => {| search := value; method := method prev; minYear := minYear prev;
                    maxYear := maxYear prev; orderBy := orderBy prev; orderDir := orderDir prev |}
  | Kmethod   => {| search := search prev; method := value; minYear := minYear prev;
                    maxYear := maxYear prev; orderBy := orderBy prev; orderDir := orderDir prev |}
  | KminYear  => {| search := search prev; method := method prev; minYear := value;
                    maxYear := maxYear prev; orderBy := orderBy prev; orderDir := orderDir prev |}
  | KmaxYear  => {| search := search prev; method := method prev; minYear := minYear prev;
                    maxYear := value; orderBy := orderBy prev; orderDir := orderDir prev |}
  | KorderBy  => {| search := search prev; method := method prev; minYear := minYear prev;
                    maxYear := maxYear prev; orderBy := value; orderDir := orderDir prev |}
  | KorderDir => {| search := search prev; method := method prev; minYear := minYear prev;
                    maxYear := maxYear prev; orderBy := orderBy prev; orderDir := value |}
  end.

(** A state object together with its identity.  React compares state values
    and effect dependencies with [Object.is], that is by reference: address 0
    is the module constant [defaultState], every object literal evaluated
    later gets an address of its own. *)
Record Obj : Type := mkObj { addr : nat; value : PlanetFilterState }.

Definition defaultState_obj : Obj := mkObj 0 defaultState.

(** ** [hooks/usePlanetList] *)

Definition PAGE_SIZE : number := of_Z 20.

Definition mapFiltersToParams (filters : PlanetFilterState) (page : number) : Params :=
  [ ("limit", PNumber PAGE_SIZE);
    ("page", PNumber page);
    ("name", PString (search filters));
    ("method", PString (method filters));
    ("min_year", PString (minYear filters));
    ("max_year", PString (maxYear filters));
    ("order_by", PString (orderBy filters));
    ("order_dir", PString (orderDir filters)) ].

(** The query a render hands to [useQuery]: the key
    [['planets', { filters, page }]] and the parameters [queryFn] passes to
    [get('/planets', ...)]. *)
Record Query : Type := mkQuery {
  key_filters : PlanetFilterState;
  key_page : number;
  request : Params
}.

Definition filters_eqb (a b : PlanetFilterState) : bool :=
  String.eqb (search a) (search b) && String.eqb (method a) (method b)
  && String.eqb (minYear a) (minYear b) && String.eqb (maxYear a) (maxYear b)
  && String.eqb (orderBy a) (orderBy b) && String.eqb (orderDir a) (orderDir b).

(** Query keys are compared by content (the cache hashes them). *)
Definition same_key (a b : Query) : bool :=
  filters_eqb (key_filters a) (key_filters b) && same (key_page a) (key_page b).

(** What the hook keeps between renders, together with the part of the
    query cache it works on: the [page] state, the dependency array of its
    effect at the last commit, the query the observer of [useQuery] is on,
    the fetches the cache has started so far (for each the parameters its
    [queryFn] hands to [get]; latest first), and the queries whose fetch has
    not settled yet.  A fetch lasts until the cache has the outcome: the
    attempts the library repeats after a failure belong to the one
    fetch. *)
Record ListHook : Type := mkHook {
  hook_page : number;
  hook_deps : option nat;
  hook_query : option Query;
  hook_requests : list Params;
  hook_in_flight : list Query
}.

(** Before the first render: [useState(1)] and an empty cache. *)
Definition unmounted : ListHook := mkHook (of_Z 1) None None [] [].

(** The cache is fetching the key of [q]. *)
Definition in_flight (h : ListHook) (q : Query) : bool :=
  existsb (same_key q) (hook_in_flight h).

(** The body of [usePlanetList] in one render. *)
Definition render (filters : PlanetFilterState) (h : ListHook) : Query :=
  mkQuery filters (hook_page h) (mapFiltersToParams filters (hook_page h)).

Section Fetching.
Context `{Host}.
Variable VITE_API_BASE_URL : option string.

(** The [queryFn] of the query of a render:
    [() => get('/planets', mapFiltersToParams(filters, page))], with the
    filters and the page of that render. *)
Definition queryFn (fetch : string -> Settled (Response PlanetListResponse))
    (q : Query) : Settled PlanetListResponse :=
  get VITE_API_BASE_URL fetch "/planets" (Some (request q)).

End Fetching.

(** The pair a filter field contributes to the query of a request, as the
    specification has it: none when the field is the empty string. *)
Definition shown (key field : string) : SearchParams :=
  if String.eqb field "" then [] else [(key, field)].

Definition deps_changed (h : ListHook) (filters : Obj) : bool :=
  match hook_deps h with
  | Some a => negb (Nat.eqb a (addr filters))
  | None => true
  end.

Definition key_changed (h : ListHook) (q : Query) : bool :=
  match hook_query h with
  | Some q0 => negb (same_key q0 q)
  | None => true
  end.

(** The observer starts a fetch when it moves to another key, unless the
    cache is already fetching that key: the observer then waits for the
    fetch under way.  The options of the query client are not set in these
    sources; they are the library's defaults, under which data in the cache
    is stale at once and a key that is not being fetched is fetched
    again. *)
Definition fetches (h : ListHook) (q : Query) : bool :=
  key_changed h q && negb (in_flight h q).

(** One render and its commit.  The effects run after the render, in the
    order the hooks are called: first [useEffect(() => setPage(1), [filters])]
    when [filters] is another object than at the last commit, then the effect
    of [useQuery], which moves the observer to the rendered key and, when
    [fetches] says so, calls [queryFn].  The page the render used is the one
    in the request. *)
Definition commit (filters : Obj) (h : ListHook) : ListHook :=
  let q := render (value filters) h in
  mkHook (if deps_changed h filters then of_Z 1 else hook_page h)
         (Some (addr filters))
         (Some q)
         (if fetches h q then request q :: hook_requests h else hook_requests h)
         (if fetches h q then q :: hook_in_flight h else hook_in_flight h).

(** [usePlanetList(filters)] until the component is stable: a commit, and
    the render that [setPage(1)] schedules when it changed the state. *)
Definition usePlanetList (filters : Obj) (h : ListHook) : ListHook :=
  let h1 := commit filters h in
  if same (hook_page h1) (hook_page h) then h1 else commit filters h1.

(** ** [pages/PlanetsPage] *)

Record Page : Type := mkPage {
  filters : Obj;
  fresh : nat;
  list_hook : ListHook
}.

Definition mount : Page :=
  mkPage defaultState_obj 1 (usePlanetList defaultState_obj unmounted).

Inductive Event : Type :=
| UpdateFilter (key : FilterKey) (value : string)
| ResetFilters
| SetPage (page : number)
| FetchSettles (filters : PlanetFilterState) (page : number).

(** The fetch of a key has settled: the cache is no longer fetching it. *)
Definition settle (q : Query) (h : ListHook) : ListHook :=
  mkHook (hook_page h) (hook_deps h) (hook_query h) (hook_requests h)
         (filter (fun q' => negb (same_key q q')) (hook_in_flight h)).

(** The handlers [updateFilter], [resetFilters] and [setPage], each followed
    by the renders it causes, and the end of a fetch.  A state update with
    the value the state already has causes no render; the render that
    follows the end of a fetch has the filters object and the page of the
    render before it, so its effects do nothing. *)
Definition dispatch (s : Page) (e : Event) : Page :=
  match e with
  | UpdateFilter key v =>
      let f := mkObj (fresh s) (with_field (value (filters s)) key v) in
      mkPage f (S (fresh s)) (usePlanetList f (list_hook s))
  | ResetFilters =>
      if Nat.eqb (addr (filters s)) (addr defaultState_obj) then s
      else mkPage defaultState_obj (fresh s)
                  (usePlanetList defaultState_obj (list_hook s))
  | SetPage p =>
      let h := list_hook s in
      if same p (hook_page h) then s
      else mkPage (filters s) (fresh s)
                  (usePlanetList (filters s)
                     (mkHook p (hook_deps h) (hook_query h) (hook_requests h)
                             (hook_in_flight h)))
  | FetchSettles f p =>
      mkPage (filters s) (fresh s)
             (settle (mkQuery f p (mapFiltersToParams f p)) (list_hook s))
  end.

Definition run (events : list Event) : Page := fold_left dispatch events mount.

Inductive Reachable : Page -> Prop :=
| reach_mount : Reachable mount
| reach_step s e : Reachable s -> Reachable (dispatch s e).

(** What holds of a reachable page between events: the effect of the hook
    has seen the current filters object, and [fresh] is an address no object
    has yet. *)
Definition consistent (s : Page) : Prop :=
  hook_deps (list_hook s) = Some (addr (filters s)) /\ (addr (filters s) < fresh s)%nat.

(** The hook is on the first page for the filters [f]: the page state is 1,
    and the query the observer is on has [f] and page 1 in its key and in
    the parameters of its request. *)
Definition on_first_page (f : PlanetFilterState) (after : ListHook) : Prop :=
  hook_page after = of_Z 1 /\
  exists q : Query,
    hook_query after = Some q /\
    key_filters q = f /\
    same (key_page q) (of_Z 1) = true /\
    request q = mapFiltersToParams f (key_page q).

(** A hook that has started no fetch has not been rendered, and its cache
    is empty. *)
Definition started_or_new (h : ListHook) : Prop :=
  (hook_query h = None /\ hook_in_flight h = []) \/ hook_requests h <> [].

(** The page between two events: a request has been issued, and the query
    of the hook is the one of the filters and the page of the state. *)
Definition at_rest (s : Page) : Prop :=
  hook_requests (list_hook s) <> [] /\
  exists q : Query,
    hook_query (list_hook s) = Some q /\
    key_filters q = value (filters s) /\
    same (key_page q) (hook_page (list_hook s)) = true /\
    request q = mapFiltersToParams (value (filters s)) (key_page q).

(** ** [components/PlanetsTable] *)

Record Props : Type := {
  response : option PlanetListResponse;
  loading : option bool
}.

(** ToBoolean of the optional [loading] flag. *)
Definition is_loading (p : Props) : bool :=
  match loading p with Some b => b | None => false end.

(** [response?.page ?? 1] and [response?.pages ?? 1] *)
Definition shown_page (p : Props) : number :=
  match response p with Some r => page r | None => of_Z 1 end.

Definition shown_pages (p : Props) : number :=
  match response p with Some r => pages r | None => of_Z 1 end.

(** The [disabled] attribute of the two buttons. *)
Definition previous_disabled (p : Props) : bool :=
  le (shown_page p) (of_Z 1) || is_loading p.

Definition next_disabled (p : Props) : bool :=
  ge (shown_page p) (shown_pages p) || is_loading p.

Definition placeholder : string := "—".

Section Cells.
Context `{Host}.

(** [{planet.discovery_year ?? '—'}]: React prints a number child with
    [String]. *)
Definition year_cell (planet : PlanetSummary) : string :=
  match discovery_year planet with
  | Some y => NumberToString y
  | None => placeholder
  end.

(** [{x?.toFixed(2) ?? '—'}] *)
Definition fixed_cell (x : option number) : string :=
  match x with
  | Some v => toFixed v 2
  | None => placeholder
  end.

(** The columns of the table, in the order of the header. *)
Inductive Column : Type :=
| ColName | ColMethod | ColYear | ColPeriod | ColRadius | ColMass.

Definition columns : list Column :=
  [ColName; ColMethod; ColYear; ColPeriod; ColRadius; ColMass].

(** The text of one [<td>] of a row. *)
Definition cell (planet : PlanetSummary) (c : Column) : string :=
  match c with
  | ColName => name planet
  | ColMethod => discovery_method planet
  | ColYear => year_cell planet
  | ColPeriod => fixed_cell (orbital_period planet)
  | ColRadius => fixed_cell (radius planet)
  | ColMass => fixed_cell (mass planet)
  end.

Definition row (planet : PlanetSummary) : list string := map (cell planet) columns.

End Cells.

(** The nullable numeric field a column shows, for the columns that show
    one. *)
Definition measurement (planet : PlanetSummary) (c : Column) : option (option number) :=
  match c with
  | ColYear => Some (discovery_year planet)
  | ColPeriod => Some (orbital_period planet)
  | ColRadius => Some (radius planet)
  | ColMass => Some (mass planet)
  | ColName | ColMethod => None
  end.

(** [filters[key]] *)
Definition field (f : PlanetFilterState) (key : FilterKey) : string :=
  match key with
  | Ksearch => search f
  | Kmethod => method f
  | KminYear => minYear f
  | KmaxYear => maxYear f
  | KorderBy => orderBy f
  | KorderDir => orderDir f
  end.

(** The pages the two buttons of the table ask for:
    [onPageChange(page - 1)] and [onPageChange(page + 1)]. *)
Definition previous_target (p : Props) : number := sub (shown_page p) (of_Z 1).
Definition next_target (p : Props) : number := add (shown_page p) (of_Z 1).

End BuilderA.

(* ================================================================== *)
(** * Builder B: the offset dashboard ([ExoplanetDashboard]) *)
(* ================================================================== *)

Module BuilderB.
Import Js.

(** ** Wire types

    The responses are cast to these types without a check, and
    [formatNumber] takes [number | null | undefined]: the numeric columns of
    a [Planet], declared [number], are the values the row really receives,
    [None] standing for [null] and [undefined]. *)

Record Planet : Type := {
  id : number;
  name : string;
  disc_method : string;
  disc_year : option number;
  orbperd : option number;
  rade : option number;
  masse : option number;
  st_teff : option number;
  st_rad : option number;
  st_mass : option number
}.

Record PlanetListResponse : Type := {
  items : list Planet;
  resp_limit : number;
  resp_offset : number;
  total : number
}.

Record MethodCount : Type := { mc_disc_method : string; count : number }.

Record MetricSummary : Type := {
  summary_min : option number;
  summary_max : option number;
  summary_avg : option number
}.

Record PlanetStats : Type := {
  stats_count : number;
  stats_orbperd : MetricSummary;
  stats_rade : MetricSummary;
  stats_masse : MetricSummary;
  stats_st_teff : MetricSummary;
  stats_st_rad : MetricSummary;
  stats_st_mass : MetricSummary
}.

(** ** Filters *)

(** The string-valued keys of [Filters]. *)
Inductive TextKey : Type :=
| K_name | K_disc_method
| K_min_year | K_max_year
| K_min_orbperd | K_max_orbperd
| K_min_rade | K_max_rade
| K_min_masse | K_max_masse
| K_min_st_teff | K_max_st_teff
| K_min_st_rad | K_max_st_rad
| K_min_st_mass | K_max_st_mass
| K_sort_by | K_sort_order.

Definition TextKey_eq_dec (a b : TextKey) : {a = b} + {a <> b}.
Proof. decide equality. Defined.

(** A [Filters] object: [text f k] is [f[k]] for a string-valued key. *)
Record Filters : Type := mkFilters {
  text : TextKey -> string;
  include_deleted : bool
}.

Definition DEFAULT_FILTERS : Filters :=
  mkFilters (fun k => match k with
                      | K_sort_by => "id"
                      | K_sort_order => "desc"
                      | _ => ""
                      end)
            false.

(** [{ ...prev, [key]: value }] *)
Definition with_text (prev : Filters) (key : TextKey) (v : string) : Filters :=
  mkFilters (fun k => if TextKey_eq_dec k key then v else text prev k)
            (include_deleted prev).

Definition with_include_deleted (prev : Filters) (b : bool) : Filters :=
  mkFilters (text prev) b.

Record FetchState : Type := mkFetchState {
  planets : option PlanetListResponse;
  methodCounts : list MethodCount;
  stats : option PlanetStats;
  loading : bool;
  error : option string
}.

Definition DEFAULT_BASE_URL : string := "https://exoplanet-api-lg16.onrender.com".

Definition dash : string := "-".

(** The names [buildParams] sets before the numeric filters. *)
Definition base_names : list string :=
  ["limit"; "offset"; "name"; "disc_method"; "include_deleted"; "sort_by"; "sort_order"].

Section WithHost.
Context `{Host}.

Definition numericOrUndefined (v : string) : option number :=
  if String.eqb (trim v) "" then None
  else
    let parsed := parseNumber v in
    if isFinite parsed then Some parsed else None.

Definition formatNumber (v : option number) (fractionDigits : nat) : string :=
  match v with
  | None => dash
  | Some x => toLocaleString x fractionDigits
  end.

(** The default of the second parameter of [formatNumber]. *)
Definition formatNumber2 (v : option number) : string := formatNumber v 2.

(** ** The query *)

Definition numericFilters : list (TextKey * string) :=
  [ (K_min_year, "min_year");
    (K_max_year, "max_year");
    (K_min_orbperd, "min_orbperd");
    (K_max_orbperd, "max_orbperd");
    (K_min_rade, "min_rade");
    (K_max_rade, "max_rade");
    (K_min_masse, "min_masse");
    (K_max_masse, "max_masse");
    (K_min_st_teff, "min_st_teff");
    (K_max_st_teff, "max_st_teff");
    (K_min_st_rad, "min_st_rad");
    (K_max_st_rad, "max_st_rad");
    (K_min_st_mass, "min_st_mass");
    (K_max_st_mass, "max_st_mass") ].

(** The body of the [forEach] over [numericFilters]. *)
Definition set_numeric (source : Filters) (params : SearchParams)
    (entry : TextKey * string) : SearchParams :=
  match numericOrUndefined (text source (fst entry)) with
  | Some v => usp_set (snd entry) (NumberToString v) params
  | None => params
  end.

(** The parameters [buildParams] has set before it reaches the numeric
    filters. *)
Definition base_params (limit : number) (source : Filters) (useOffset : number)
  : SearchParams :=
  let params := [] in
  let params := usp_set "limit" (NumberToString limit) params in
  let params := usp_set "offset" (NumberToString useOffset) params in
  let params :=
    if nonempty (trim (text source K_name))
    then usp_set "name" (trim (text source K_name)) params else params in
  let params :=
    if nonempty (trim (text source K_disc_method))
    then usp_set "disc_method" (trim (text source K_disc_method)) params
    else params in
  let params :=
    if include_deleted source then usp_set "include_deleted" "true" params
    else params in
  let params := usp_set "sort_by" (text source K_sort_by) params in
  usp_set "sort_order" (text source K_sort_order) params.

(** [buildParams]; [limit] is the state it closes over. *)
Definition buildParams (limit : number) (source : Filters) (useOffset : number)
  : SearchParams :=
  fold_left (set_numeric source) numericFilters (base_params limit source useOffset).

(** ** [fetchAll] *)

(** The [then] callback of each of the three requests: a status outside
    200..299 throws, otherwise the body is read as JSON. *)
Definition checked {J : Type} (failure : string) (res : Response J) : Settled J :=
  if negb (ok res)
  then Rejected (new_Error (failure ++ NumberToString (of_Z (Z.of_nat (status res)))))
  else json res.

Inductive Which : Type := ThePlanets | TheMethodCounts | TheStats.

(** What the network does with one batch: how each [fetch] settles (an
    abort or a transport failure rejects it), and the order in which the
    three promises settle. *)
Record Batch : Type := {
  planets_fetch : Settled (Response PlanetListResponse);
  methodCounts_fetch : Settled (Response (list MethodCount));
  stats_fetch : Settled (Response PlanetStats);
  settle_order : list Which
}.

Definition planetsPromise (b : Batch) : Settled PlanetListResponse :=
  res <- planets_fetch b ;; checked "Gezegenler getirilemedi: " res.

Definition methodCountsPromise (b : Batch) : Settled (list MethodCount) :=
  res <- methodCounts_fetch b ;; checked "Yöntem istatistikleri getirilemedi: " res.

Definition statsPromise (b : Batch) : Settled PlanetStats :=
  res <- stats_fetch b ;; checked "İstatistikler getirilemedi: " res.

Definition reason {A : Type} (p : Settled A) : option Error :=
  match p with Rejected e => Some e | Fulfilled _ => None end.

Definition rejection (b : Batch) (w : Which) : option Error :=
  match w with
  | ThePlanets => reason (planetsPromise b)
  | TheMethodCounts => reason (methodCountsPromise b)
  | TheStats => reason (statsPromise b)
  end.

Fixpoint first_rejection (b : Batch) (order : list Which) : option Error :=
  match order with
  | [] => None
  | w :: rest =>
      match rejection b w with
      | Some e => Some e
      | None => first_rejection b rest
      end
  end.

Definition Results : Type := (PlanetListResponse * list MethodCount * PlanetStats)%type.

(** [Promise.all([planetsPromise, methodCountsPromise, statsPromise])]: it
    rejects with the reason of the promise that rejects first, and fulfils
    with the three values when none rejects. *)
Definition Promise_all (b : Batch) : Settled Results :=
  match first_rejection b (settle_order b ++ [ThePlanets; TheMethodCounts; TheStats]) with
  | Some e => Rejected e
  | None =>
      p <- planetsPromise b ;;
      m <- methodCountsPromise b ;;
      s <- statsPromise b ;;
      Fulfilled (p, m, s)
  end.

(** [setFetchState((prev) => ({ ...prev, loading: true, error: null }))] *)
Definition fetch_begin (prev : FetchState) : FetchState :=
  mkFetchState (planets prev) (methodCounts prev) (stats prev) true None.

(** The rest of [fetchAll], from the [await] on: [st] is the state at that
    point. *)
Definition fetch_settle (st : FetchState) (outcome : Settled Results) : FetchState :=
  match outcome with
  | Fulfilled (planetsResponse, methodCountsResponse, statsResponse) =>
      mkFetchState (Some planetsResponse) methodCountsResponse (Some statsResponse)
                   false None
  | Rejected err =>
      if String.eqb (err_name err) "AbortError" then st
      else mkFetchState None [] None false (Some (err_message err))
  end.

Definition fetchAll (prev : FetchState) (b : Batch) : FetchState :=
  fetch_settle (fetch_begin prev) (Promise_all b).

(** What the page shows of the fetch state: the error banner. *)
Definition error_banner (st : FetchState) : option string :=
  match error st with
  | Some msg => if nonempty msg then Some msg else None
  | None => None
  end.

(** ** The component state and its handlers *)

Record State : Type := mkState {
  baseUrl : string;
  filters : Filters;
  appliedFilters : Filters;
  limit : number;
  offset : number;
  fetched : FetchState
}.

(** [usePersistentBaseUrl]: [stored?.trim() || DEFAULT_BASE_URL] *)
Definition initial_baseUrl (stored : option string) : string :=
  match stored with
  | Some s => if nonempty (trim s) then trim s else DEFAULT_BASE_URL
  | None => DEFAULT_BASE_URL
  end.

Definition initial (stored : option string) : State :=
  mkState (initial_baseUrl stored) DEFAULT_FILTERS DEFAULT_FILTERS
          (of_Z 25) (of_Z 0)
          (mkFetchState None [] None false None).

Definition set_offset (s : State) (o : number) : State :=
  mkState (baseUrl s) (filters s) (appliedFilters s) (limit s) o (fetched s).

Definition set_filters (s : State) (f : Filters) : State :=
  mkState (baseUrl s) f (appliedFilters s) (limit s) (offset s) (fetched s).

Definition set_fetched (s : State) (f : FetchState) : State :=
  mkState (baseUrl s) (filters s) (appliedFilters s) (limit s) (offset s) f.

Definition queryParams (s : State) : SearchParams :=
  buildParams (limit s) (appliedFilters s) (offset s).

Definition previewParams (s : State) : SearchParams :=
  buildParams (limit s) (filters s) (of_Z 0).

Definition totalPages (s : State) : number :=
  match planets (fetched s) with
  | None => of_Z 0
  | Some p => ceil (div (total p) (limit s))
  end.

Definition currentPage (s : State) : number :=
  add (floor (div (offset s) (limit s))) (of_Z 1).

Definition handleSubmit (s : State) : State :=
  mkState (baseUrl s) (filters s) (filters s) (limit s) (of_Z 0) (fetched s).

Definition goToPage (s : State) (page : number) : State :=
  let safePage := max (of_Z 1) page in
  let newOffset := mul (sub safePage (of_Z 1)) (limit s) in
  set_offset s newOffset.

Definition canGoPrev (s : State) : bool := gt (offset s) (of_Z 0).

Definition canGoNext (s : State) : bool :=
  match planets (fetched s) with
  | Some p => lt (add (offset s) (limit s)) (total p)
  | None => false
  end.

(** The [disabled] attribute of the two paging buttons. *)
Definition previous_disabled (s : State) : bool := negb (canGoPrev s).
Definition next_disabled (s : State) : bool := negb (canGoNext s).

(** The [onChange] of the page-size input. *)
Definition limit_input (s : State) (v : string) : State :=
  let next := min (of_Z 200) (max (of_Z 1) (or_else (parseNumber v) (of_Z 1))) in
  mkState (baseUrl s) (filters s) (appliedFilters s) next (of_Z 0) (fetched s).

(** The [onChange] of the go-to-page input. *)
Definition page_input (s : State) (v : string) : State :=
  let n := parseNumber v in
  if isFinite n then goToPage s n else s.

(** The [onClick] of the reset button. *)
Definition reset (s : State) : State :=
  mkState (baseUrl s) DEFAULT_FILTERS DEFAULT_FILTERS (of_Z 25) (of_Z 0) (fetched s).

Inductive Event : Type :=
| BaseUrlInput (v : string)
| ChangeText (key : TextKey) (v : string)
| ChangeIncludeDeleted (b : bool)
| Submit
| ClickPrevious
| ClickNext
| PageInput (v : string)
| LimitInput (v : string)
| ClickReset
| FetchBegins
| FetchSettles (outcome : Settled Results).

(** One event of the page.  A disabled button receives no click: the two
    paging buttons are disabled by [!canGoPrev] and [!canGoNext], the submit
    button by [loading]. *)
Definition dispatch (s : State) (e : Event) : State :=
  match e with
  | BaseUrlInput v =>
      mkState v (filters s) (appliedFilters s) (limit s) (offset s) (fetched s)
  | ChangeText key v => set_filters s (with_text (filters s) key v)
  | ChangeIncludeDeleted b => set_filters s (with_include_deleted (filters s) b)
  | Submit => if loading (fetched s) then s else handleSubmit s
  | ClickPrevious =>
      if canGoPrev s then goToPage s (sub (currentPage s) (of_Z 1)) else s
  | ClickNext =>
      if canGoNext s then goToPage s (add (currentPage s) (of_Z 1)) else s
  | PageInput v => page_input s v
  | LimitInput v => limit_input s v
  | ClickReset => reset s
  | FetchBegins => set_fetched s (fetch_begin (fetched s))
  | FetchSettles outcome => set_fetched s (fetch_settle (fetched s) outcome)
  end.

Inductive Reachable (stored : option string) : State -> Prop :=
| reach_initial : Reachable stored (initial stored)
| reach_step s e : Reachable stored s -> Reachable stored (dispatch s e).

(** The bounds of the paging state: a finite limit in [1, 200], and an
    offset that is at least 0; the offset may be [Infinity], it is not
    [NaN]. *)
Definition in_bounds (s : State) : Prop :=
  (exists l : Q, limit s = Fin l /\ 1 <= l /\ l <= 200) /\
  le (of_Z 0) (offset s) = true.

(** ** The table *)

(** A child of a JSX element as text: a number prints with [String],
    [null] and [undefined] print nothing. *)
Definition child_text (x : option number) : string :=
  match x with
  | Some n => NumberToString n
  | None => ""
  end.

(** The columns of the table, in the order of the header. *)
Inductive Column : Type :=
| ColId | ColName | ColMethod | ColYear | ColOrbperd | ColRade | ColMasse
| ColStTeff | ColStRad | ColStMass.

Definition columns : list Column :=
  [ColId; ColName; ColMethod; ColYear; ColOrbperd; ColRade; ColMasse;
   ColStTeff; ColStRad; ColStMass].

(** The text of one [<td>] of a row. *)
Definition cell (planet : Planet) (c : Column) : string :=
  match c with
  | ColId => NumberToString (id planet)
  | ColName => name planet
  | ColMethod => disc_method planet
  | ColYear => child_text (disc_year planet)
  | ColOrbperd => formatNumber2 (orbperd planet)
  | ColRade => formatNumber2 (rade planet)
  | ColMasse => formatNumber2 (masse planet)
  | ColStTeff => formatNumber2 (st_teff planet)
  | ColStRad => formatNumber2 (st_rad planet)
  | ColStMass => formatNumber2 (st_mass planet)
  end.

Definition row (planet : Planet) : list string := map (cell planet) columns.

End WithHost.

(** The numeric measurement a column shows, for the columns that show one. *)
Definition measurement (planet : Planet) (c : Column) : option (option number) :=
  match c with
  | ColYear => Some (disc_year planet)
  | ColOrbperd => Some (orbperd planet)
  | ColRade => Some (rade planet)
  | ColMasse => Some (masse planet)
  | ColStTeff => Some (st_teff planet)
  | ColStRad => Some (st_rad planet)
  | ColStMass => Some (st_mass planet)
  | ColId | ColName | ColMethod => None
  end.

(** ** [usePersistentBaseUrl] *)

Definition storageKey : string := "exoplanet-api-base-url".

(** The [baseUrl] state together with the item of [localStorage] under
    [storageKey]. *)
Record Persisted : Type := mkPersisted {
  live_baseUrl : string;
  stored_baseUrl : option string
}.

(** [update(value)]: [setBaseUrl(value)] and
    [localStorage.setItem(storageKey, value)]. *)
Definition update_baseUrl (v : string) : Persisted := mkPersisted v (Some v).

(** The state the hook starts with when the page is loaded again. *)
Definition reload_baseUrl (p : Persisted) : string := initial_baseUrl (stored_baseUrl p).

(** ** What the page shows of the fetch state *)

Section View.
Context `{Host}.

(** The body of the table: the loading row, one row per planet, or the row
    that says no planet matches the filters. *)
Inductive TableBody : Type :=
| LoadingRow
| PlanetRows (rows : list (list string))
| NoMatchRow.

Definition table_body (st : FetchState) : TableBody :=
  if loading st then LoadingRow
  else match planets st with
       | Some p =>
           if (0 <? length (items p))%nat then PlanetRows (map row (items p))
           else NoMatchRow
       | None => NoMatchRow
       end.

(** The paragraph shown in place of the statistics cards, if any. *)
Definition stats_notice (st : FetchState) : option string :=
  match stats st with
  | Some _ => None
  | None => Some "İstatistikler yükleniyor..."
  end.

(** The paragraph shown in place of the method counts, if any. *)
Definition methodCounts_notice (st : FetchState) : option string :=
  if (0 <? length (methodCounts st))%nat then None
  else Some "Yöntem verileri yükleniyor...".

End View.

(** ** The three requests, one by one *)

(** The text each [then] callback puts before the status. *)
Definition failure_text (w : Which) : string :=
  match w with
  | ThePlanets => "Gezegenler getirilemedi: "
  | TheMethodCounts => "Yöntem istatistikleri getirilemedi: "
  | TheStats => "İstatistikler getirilemedi: "
  end.

(** The status of the response of a request, when [fetch] resolved. *)
Definition response_status (b : Batch) (w : Which) : option nat :=
  match w with
  | ThePlanets => match planets_fetch b with Fulfilled r => Some (status r) | _ => None end
  | TheMethodCounts =>
      match methodCounts_fetch b with Fulfilled r => Some (status r) | _ => None end
  | TheStats => match stats_fetch b with Fulfilled r => Some (status r) | _ => None end
  end.

(** The reason [fetch] itself rejected with, when it did. *)
Definition transport_failure (b : Batch) (w : Which) : option Error :=
  match w with
  | ThePlanets => reason (planets_fetch b)
  | TheMethodCounts => reason (methodCounts_fetch b)
  | TheStats => reason (stats_fetch b)
  end.

(** The rejection of reading the body of the response, when [fetch]
    resolved and [res.json()] rejected. *)
Definition body_failure (b : Batch) (w : Which) : option Error :=
  match w with
  | ThePlanets =>
      match planets_fetch b with Fulfilled r => reason (json r) | _ => None end
  | TheMethodCounts =>
      match methodCounts_fetch b with Fulfilled r => reason (json r) | _ => None end
  | TheStats =>
      match stats_fetch b with Fulfilled r => reason (json r) | _ => None end
  end.

(** A request resolves with a body, in the words of the specification:
    [fetch] gives a response, its status is in 200..299, and the body reads
    as that value. *)
Definition resolves_with {J : Type} (f : Settled (Response J)) (body : J) : Prop :=
  exists r : Response J,
    f = Fulfilled r /\ (200 <= status r)%nat /\ (status r <= 299)%nat /\
    json r = Fulfilled body.

Section Failures.
Context `{Host}.

(** A request of the batch fails with the error [e], in the words of the
    specification: [fetch] rejects with [e] (the network fails, or the
    request is aborted); or the response has a status outside 200..299 and
    [e] is the error made of the text of that request and the status; or
    the status is in 200..299 and reading the body rejects with [e]. *)
Definition fails (b : Batch) (w : Which) (e : Error) : Prop :=
  transport_failure b w = Some e \/
  (exists n : nat,
      response_status b w = Some n /\ ((n < 200)%nat \/ (299 < n)%nat) /\
      e = new_Error (failure_text w ++ NumberToString (of_Z (Z.of_nat n)))) \/
  (exists n : nat,
      response_status b w = Some n /\ (200 <= n)%nat /\ (n <= 299)%nat /\
      body_failure b w = Some e).

End Failures.

End BuilderB.

(* ================================================================== *)
(** * A small host to run the definitions on *)
(* ================================================================== *)

Module Sample.
Import Js.

(** U+00A0, the no-break space. *)
Definition nbsp : string := String (ascii_of_nat 194) (String (ascii_of_nat 160) "").

(** Reads an unsigned decimal integer; the empty and the blank string read
    as 0 as in JavaScript, everything else this host takes as [NaN]. *)
Definition parse_digits (s : string) : number :=
  let t := trim s in
  if String.eqb t "" then of_Z 0
  else match NilEmpty.uint_of_string t with
       | Some u => of_Z (Z.of_uint u)
       | None => NaN
       end.

(** Prints the integer part of a finite number, and the names of the
    others. *)
Definition print_whole (x : number) : string :=
  match x with
  | NaN => "NaN"
  | PosInf => "Infinity"
  | NegInf => "-Infinity"
  | Fin q => string_of_Z (Qfloor q)
  end.

Fixpoint query_string (sp : SearchParams) : string :=
  match sp with
  | [] => ""
  | [(k, v)] => k ++ "=" ++ v
  | (k, v) :: rest => k ++ "=" ++ v ++ "&" ++ query_string rest
  end.

(** URLs of a path without a query under an origin, with no escaping. *)
#[export] Instance host : Host := {|
  parseNumber := parse_digits;
  printNumber := print_whole;
  toLocaleString := fun x _ => print_whole x;
  toFixed := fun x _ => print_whole x ++ ".00";
  newURL := fun path base => mkURL (base ++ path) [];
  URL_toString := fun u =>
    match searchParams u with
    | [] => url_base u
    | sp => url_base u ++ "?" ++ query_string sp
    end
|}.

(** Sample data of Builder B: a first page of 25 out of 100 planets, empty
    statistics, and a planet whose numeric columns are all [null]. *)
Definition no_summary : BuilderB.MetricSummary :=
  {| BuilderB.summary_min := None;
     BuilderB.summary_max := None;
     BuilderB.summary_avg := None |}.

Definition no_stats : BuilderB.PlanetStats :=
  {| BuilderB.stats_count := of_Z 0;
     BuilderB.stats_orbperd := no_summary;
     BuilderB.stats_rade := no_summary;
     BuilderB.stats_masse := no_summary;
     BuilderB.stats_st_teff := no_summary;
     BuilderB.stats_st_rad := no_summary;
     BuilderB.stats_st_mass := no_summary |}.

Definition first_page : BuilderB.PlanetListResponse :=
  {| BuilderB.items := [];
     BuilderB.resp_limit := of_Z 25;
     BuilderB.resp_offset := of_Z 0;
     BuilderB.total := of_Z 100 |}.

Definition bare_planet : BuilderB.Planet :=
  {| BuilderB.id := of_Z 7;
     BuilderB.name := "Kepler-22 b";
     BuilderB.disc_method := "Transit";
     BuilderB.disc_year := None;
     BuilderB.orbperd := None;
     BuilderB.rade := None;
     BuilderB.masse := None;
     BuilderB.st_teff := None;
     BuilderB.st_rad := None;
     BuilderB.st_mass := None |}.

(** Batches of the three requests of Builder B: one where only the method
    counts fail, with HTTP 500, one that is aborted, and one that succeeds. *)
Definition succeeds {J : Type} (body : J) : Settled (Response J) :=
  Fulfilled (mkResponse 200 (Fulfilled body)).

Definition aborted {J : Type} : Settled (Response J) :=
  Rejected (mkError "AbortError" "The user aborted a request.").

Definition counts_fail : BuilderB.Batch :=
  {| BuilderB.planets_fetch := succeeds first_page;
     BuilderB.methodCounts_fetch := Fulfilled (mkResponse 500 (Fulfilled []));
     BuilderB.stats_fetch := succeeds no_stats;
     BuilderB.settle_order :=
       [BuilderB.ThePlanets; BuilderB.TheStats; BuilderB.TheMethodCounts] |}.

Definition cancelled : BuilderB.Batch :=
  {| BuilderB.planets_fetch := aborted;
     BuilderB.methodCounts_fetch := aborted;
     BuilderB.stats_fetch := aborted;
     BuilderB.settle_order :=
       [BuilderB.ThePlanets; BuilderB.TheMethodCounts; BuilderB.TheStats] |}.

Definition all_succeed : BuilderB.Batch :=
  {| BuilderB.planets_fetch := succeeds first_page;
     BuilderB.methodCounts_fetch := succeeds [];
     BuilderB.stats_fetch := succeeds no_stats;
     BuilderB.settle_order :=
       [BuilderB.TheStats; BuilderB.ThePlanets; BuilderB.TheMethodCounts] |}.

(** A fetch state with data of an earlier batch on display. *)
Definition showing : BuilderB.FetchState :=
  BuilderB.mkFetchState (Some first_page) [] (Some no_stats) false None.

(** Sample data of Builder A: page 2 of 3. *)
Definition second_page : BuilderA.PlanetListResponse :=
  {| BuilderA.results := [];
     BuilderA.page := of_Z 2;
     BuilderA.pages := of_Z 3;
     BuilderA.total := of_Z 47 |}.

End Sample.

(* ================================================================== *)
(** * Theorems *)
(* ================================================================== *)

Import Js.

(** ** White space and [trim] *)

Lemma trimStart_1 c r : is_space c = true -> trimStart (String c r) = trimStart r.
Proof. intros E. simpl. now rewrite E. Qed.

Lemma trimStart_2 c d r1 :
  is_space c = false -> space2 c d = true ->
  trimStart (String c (String d r1)) = trimStart r1.
Proof. intros E1 E2. simpl. now rewrite E1, E2. Qed.

Lemma trimStart_3 c d e r2 :
  is_space c = false -> space2 c d = false -> space3 c d e = true ->
  trimStart (String c (String d (String e r2))) = trimStart r2.
Proof. intros E1 E2 E3. simpl. now rewrite E1, E2, E3. Qed.

Lemma trimStart_0 s : head_space s = false -> trimStart s = s.
Proof.
  destruct s as [|c [|d [|e r2]]]; simpl; try reflexivity;
    rewrite ?orb_false_iff; intros H; decompose [and] H; clear H;
    repeat match goal with E : _ = false |- _ => rewrite E; clear E end; reflexivity.
Qed.

Lemma all_space_1 c r : is_space c = true -> all_space (String c r) = all_space r.
Proof. intros E. simpl. now rewrite E. Qed.

Lemma all_space_2 c d r1 :
  is_space c = false -> space2 c d = true ->
  all_space (String c (String d r1)) = all_space r1.
Proof. intros E1 E2. simpl. now rewrite E1, E2. Qed.

Lemma all_space_3 c d e r2 :
  is_space c = false -> space2 c d = false -> space3 c d e = true ->
  all_space (String c (String d (String e r2))) = all_space r2.
Proof. intros E1 E2 E3. simpl. now rewrite E1, E2, E3. Qed.

Lemma all_space_0 s : head_space s = false -> s <> "" -> all_space s = false.
Proof.
  destruct s as [|c [|d [|e r2]]]; simpl; try congruence;
    rewrite ?orb_false_iff; intros H _; decompose [and] H; clear H;
    repeat match goal with E : _ = false |- _ => rewrite E; clear E end; reflexivity.
Qed.

(** Induction along the white space at the head of a string. *)
Lemma leading_space_ind (P : string -> Prop) :
  (forall s, head_space s = false -> P s) ->
  (forall c r, is_space c = true -> P r -> P (String c r)) ->
  (forall c d r1, is_space c = false -> space2 c d = true -> P r1 ->
                  P (String c (String d r1))) ->
  (forall c d e r2, is_space c = false -> space2 c d = false -> space3 c d e = true ->
                    P r2 -> P (String c (String d (String e r2)))) ->
  forall s, P s.
Proof.
  intros H0 H1 H2 H3 s.
  assert (G : forall n s, (String.length s <= n)%nat -> P s).
  { clear s. induction n as [|n IH]; intros s Hs.
    - destruct s; [apply H0; reflexivity | simpl in Hs; lia].
    - destruct (head_space s) eqn:E; [|now apply H0].
      destruct s as [|c r]; [discriminate|]. simpl in Hs.
      destruct (is_space c) eqn:E1; [apply H1; [exact E1 | apply IH; lia]|].
      destruct r as [|d r1]; [simpl in E; rewrite E1 in E; discriminate|].
      simpl in Hs.
      destruct (space2 c d) eqn:E2; [apply H2; [exact E1 | exact E2 | apply IH; lia]|].
      destruct r1 as [|e r2]; [simpl in E; rewrite E1, E2 in E; discriminate|].
      simpl in Hs, E. rewrite E1, E2 in E. simpl in E.
      apply H3; [exact E1 | exact E2 | exact E | apply IH; lia]. }
  apply (G (String.length s)). lia.
Qed.

Lemma trimStart_clean s : head_space (trimStart s) = false.
Proof.
  induction s as [s H0|c r E1 IH|c d r1 E1 E2 IH|c d e r2 E1 E2 E3 IH]
    using leading_space_ind.
  - now rewrite trimStart_0.
  - now rewrite trimStart_1.
  - now rewrite trimStart_2.
  - now rewrite trimStart_3.
Qed.

Lemma all_space_trimStart s : all_space s = true -> trimStart s = "".
Proof.
  induction s as [s H0|c r E1 IH|c d r1 E1 E2 IH|c d e r2 E1 E2 E3 IH]
    using leading_space_ind.
  - destruct s as [|c r]; [reflexivity|].
    rewrite all_space_0 by (auto; discriminate). discriminate.
  - rewrite all_space_1, trimStart_1 by assumption. exact IH.
  - rewrite all_space_2, trimStart_2 by assumption. exact IH.
  - rewrite all_space_3, trimStart_3 by assumption. exact IH.
Qed.

Lemma all_space_app a w :
  all_space a = true -> all_space w = true -> all_space (a ++ w) = true.
Proof.
  intros Ha Hw.
  induction a as [s H0|c r E1 IH|c d r1 E1 E2 IH|c d e r2 E1 E2 E3 IH]
    using leading_space_ind.
  - destruct s as [|c r]; [exact Hw|].
    rewrite all_space_0 in Ha by (auto; discriminate). discriminate.
  - rewrite all_space_1 in Ha by assumption.
    change (String c r ++ w) with (String c (r ++ w)).
    rewrite all_space_1 by assumption. auto.
  - rewrite all_space_2 in Ha by assumption.
    change (String c (String d r1) ++ w) with (String c (String d (r1 ++ w))).
    rewrite all_space_2 by assumption. auto.
  - rewrite all_space_3 in Ha by assumption.
    change (String c (String d (String e r2)) ++ w)
      with (String c (String d (String e (r2 ++ w)))).
    rewrite all_space_3 by assumption. auto.
Qed.

Lemma trimStart_split s :
  exists p, s = p ++ trimStart s /\ all_space p = true.
Proof.
  induction s as [s H0|c r E1 [p [E A]]|c d r1 E1 E2 [p [E A]]|c d e r2 E1 E2 E3 [p [E A]]]
    using leading_space_ind.
  - exists "". rewrite trimStart_0 by assumption. now split.
  - exists (String c p). rewrite trimStart_1 by assumption. split.
    + simpl. now rewrite <- E.
    + now rewrite all_space_1.
  - exists (String c (String d p)). rewrite trimStart_2 by assumption. split.
    + simpl. now rewrite <- E.
    + now rewrite all_space_2.
  - exists (String c (String d (String e p))). rewrite trimStart_3 by assumption. split.
    + simpl. now rewrite <- E.
    + now rewrite all_space_3.
Qed.

Lemma trimEnd_cons c r :
  trimEnd (String c r) = if all_space (String c r) then "" else String c (trimEnd r).
Proof. reflexivity. Qed.

Lemma trimEnd_split s : exists w, s = trimEnd s ++ w /\ all_space w = true.
Proof.
  induction s as [|c r [w [E A]]]; [now exists ""|].
  rewrite trimEnd_cons. destruct (all_space (String c r)) eqn:Es.
  - exists (String c r). now split.
  - exists w. split; [simpl; now rewrite <- E | exact A].
Qed.

Lemma trimEnd_empty s : trimEnd s = "" <-> all_space s = true.
Proof.
  destruct s as [|c r]; [simpl; tauto|].
  rewrite trimEnd_cons. destruct (all_space (String c r)); split; intros H;
    try reflexivity; discriminate H.
Qed.

Lemma trimEnd_idempotent s : trimEnd (trimEnd s) = trimEnd s.
Proof.
  induction s as [|c r IH]; [reflexivity|].
  rewrite trimEnd_cons. destruct (all_space (String c r)) eqn:Es; [reflexivity|].
  rewrite trimEnd_cons, IH.
  destruct (all_space (String c (trimEnd r))) eqn:Et; [|reflexivity].
  destruct (trimEnd_split r) as [w [E A]].
  pose proof (all_space_app _ _ Et A) as C.
  change (String c (trimEnd r) ++ w) with (String c (trimEnd r ++ w)) in C.
  rewrite <- E in C. congruence.
Qed.

Lemma head_space_prefix a w : head_space a = true -> head_space (a ++ w) = true.
Proof.
  destruct a as [|c [|d [|e r2]]]; simpl; try discriminate;
    destruct (is_space c); simpl; try reflexivity; try discriminate.
  - destruct (space2 c d); simpl; [reflexivity|discriminate].
  - destruct (space2 c d); simpl; [reflexivity|]. auto.
Qed.

Lemma trimEnd_clean t : head_space t = false -> head_space (trimEnd t) = false.
Proof.
  intros Ht. destruct (head_space (trimEnd t)) eqn:E; [|reflexivity].
  destruct (trimEnd_split t) as [w [Et _]].
  rewrite Et in Ht. rewrite head_space_prefix in Ht by exact E. discriminate.
Qed.

Lemma trim_idempotent s : trim (trim s) = trim s.
Proof.
  unfold trim.
  rewrite (trimStart_0 (trimEnd (trimStart s)))
    by apply trimEnd_clean, trimStart_clean.
  apply trimEnd_idempotent.
Qed.

Lemma trim_blank s : trim s = "" <-> all_space s = true.
Proof.
  unfold trim. rewrite trimEnd_empty. split.
  - intros A. destruct (trimStart_split s) as [p [E Ap]].
    rewrite E. now apply all_space_app.
  - intros A. now rewrite all_space_trimStart.
Qed.

(** ** URLSearchParams *)

Lemma named_refl k v : named k (k, v) = true.
Proof. unfold named; simpl. apply String.eqb_refl. Qed.

Lemma named_true k p : named k p = true <-> fst p = k.
Proof. unfold named. apply String.eqb_eq. Qed.

Lemma named_false k p : named k p = false <-> fst p <> k.
Proof. unfold named. apply String.eqb_neq. Qed.

Lemma usp_getAll_delete k sp : usp_getAll k (usp_delete k sp) = [].
Proof.
  unfold usp_getAll, usp_delete.
  induction sp as [|p sp IH]; simpl; [reflexivity|].
  destruct (named k p) eqn:E; simpl; [exact IH|].
  rewrite E. exact IH.
Qed.

Lemma usp_getAll_delete_other k k' sp :
  k <> k' -> usp_getAll k (usp_delete k' sp) = usp_getAll k sp.
Proof.
  intros Hne. unfold usp_getAll, usp_delete.
  induction sp as [|p sp IH]; simpl; [reflexivity|].
  destruct (named k' p) eqn:E'; simpl.
  - apply named_true in E'.
    assert (named k p = false) as -> by (apply named_false; congruence).
    exact IH.
  - destruct (named k p); simpl; now rewrite IH.
Qed.

Lemma usp_getAll_set_same k v sp : usp_getAll k (usp_set k v sp) = [v].
Proof.
  induction sp as [|p sp IH]; simpl.
  - unfold usp_getAll; simpl. now rewrite named_refl.
  - destruct (named k p) eqn:E.
    + unfold usp_getAll; simpl. rewrite named_refl; simpl.
      f_equal. apply usp_getAll_delete.
    + unfold usp_getAll in *; simpl. rewrite E. exact IH.
Qed.

Lemma usp_getAll_set_other k k' v sp :
  k <> k' -> usp_getAll k (usp_set k' v sp) = usp_getAll k sp.
Proof.
  intros Hne. induction sp as [|p sp IH]; simpl.
  - unfold usp_getAll; simpl.
    assert (named k (k', v) = false) as -> by (apply named_false; simpl; congruence).
    reflexivity.
  - destruct (named k' p) eqn:E'.
    + apply named_true in E'.
      unfold usp_getAll at 1 2; simpl.
      assert (named k (k', v) = false) as -> by (apply named_false; simpl; congruence).
      assert (named k p = false) as -> by (apply named_false; congruence).
      apply (usp_getAll_delete_other k k' sp Hne).
    + unfold usp_getAll in *; simpl.
      destruct (named k p); simpl; now rewrite IH.
Qed.

Lemma usp_get_set_same k v sp : usp_get k (usp_set k v sp) = Some v.
Proof. unfold usp_get. now rewrite usp_getAll_set_same. Qed.

Lemma usp_get_set_other k k' v sp :
  k <> k' -> usp_get k (usp_set k' v sp) = usp_get k sp.
Proof. intros. unfold usp_get. now rewrite usp_getAll_set_other. Qed.


Lemma usp_has_keys k sp : usp_has k sp = true <-> In k (usp_keys sp).
Proof.
  unfold usp_has, usp_keys. rewrite existsb_exists, in_map_iff.
  split; intros [p [H1 H2]]; exists p.
  - apply named_true in H2. tauto.
  - split; [tauto|]. now apply named_true.
Qed.

(** ** [buildUrl] *)

Section BuildUrl.
Import Client.
Context `{Host}.

Lemma fold_set_other (k : string) (l : Params) (u : URL) :
  (forall kv, In kv l -> fst kv <> k) ->
  usp_getAll k (searchParams (fold_left set_entry l u)) = usp_getAll k (searchParams u).
Proof.
  revert u. induction l as [|kv l IH]; intros u Hl; simpl; [reflexivity|].
  rewrite IH by (intros; apply Hl; now right).
  unfold set_entry, url_set; simpl.
  apply usp_getAll_set_other.
  intro E. apply (Hl kv); [now left | congruence].
Qed.

Lemma fold_set_member (k : string) (v : Param) (l : Params) (u : URL) :
  NoDup (map fst l) -> In (k, v) l ->
  usp_getAll k (searchParams (fold_left set_entry l u)) = [String_ v].
Proof.
  revert u. induction l as [|kv l IH]; intros u Hnd Hin; simpl; [destruct Hin|].
  inversion Hnd as [|? ? Hnotin Hnd']; subst.
  destruct Hin as [-> | Hin].
  - rewrite fold_set_other.
    + unfold set_entry, url_set; simpl. apply usp_getAll_set_same.
    + intros kv' Hkv' E. apply Hnotin. simpl. rewrite <- E. now apply in_map.
  - now apply IH.
Qed.

Lemma NoDup_keys_filter (f : string * Param -> bool) (l : Params) :
  NoDup (map fst l) -> NoDup (map fst (filter f l)).
Proof.
  induction l as [|kv l IH]; simpl; intros Hnd; [constructor|].
  inversion Hnd as [|? ? Hnotin Hnd']; subst.
  destruct (f kv); simpl; [|now apply IH].
  constructor; [|now apply IH].
  intro Hin. apply Hnotin.
  apply in_map_iff in Hin as [kv' [E Hin]].
  apply filter_In in Hin as [Hin _].
  rewrite <- E. now apply in_map.
Qed.

End BuildUrl.

Section BuildUrlSpec.
Import Client BuilderA.
Context `{Host}.
Variable env : option string.

Lemma fold_set_base (l : Params) (u : URL) :
  url_base (fold_left set_entry l u) = url_base u.
Proof.
  revert u. induction l as [|kv l IH]; intros u; simpl; [reflexivity|].
  now rewrite IH.
Qed.

(** A name occurs once in a record. *)
Lemma entry_unique (ps : Params) (k : string) (v v' : Param) :
  NoDup (map fst ps) -> In (k, v) ps -> In (k, v') ps -> v = v'.
Proof.
  induction ps as [|[k0 v0] ps IH]; intros Hnd Hin Hin'; [destruct Hin|].
  simpl in Hnd. inversion Hnd as [|? ? Hnotin Hnd']; subst.
  destruct Hin as [Hin|Hin], Hin' as [Hin'|Hin'].
  - congruence.
  - injection Hin as -> ->. exfalso. apply Hnotin.
    change k with (fst (k, v')). now apply in_map.
  - injection Hin' as -> ->. exfalso. apply Hnotin.
    change k with (fst (k, v)). now apply in_map.
  - now apply IH.
Qed.

(** What [buildUrl] leaves under one name of the record. *)
Lemma buildUrl_entry (path : string) (ps : Params) (k : string) (v : Param) :
  NoDup (map fst ps) -> In (k, v) ps ->
  usp_getAll k (searchParams (buildUrl_url env path (Some ps))) =
  if present v then [String_ v]
  else usp_getAll k (searchParams (newURL path (API_BASE_URL env))).
Proof.
  intros Hnd Hin. unfold buildUrl_url. destruct (present v) eqn:P.
  - apply fold_set_member; [now apply NoDup_keys_filter|].
    apply filter_In. now split.
  - apply fold_set_other. intros [k' v'] Hin' E. simpl in E. subst k'.
    apply filter_In in Hin' as [Hin' P']. simpl in P'.
    rewrite (entry_unique ps k v' v Hnd Hin' Hin) in P'. congruence.
Qed.

(** C1.  For a parameter record, the string [buildUrl] returns is the
    serialisation of a URL that differs from the one parsed from the path
    only in its query: a name whose value is a string other than the empty
    one, or a number, is in the query once, with that string or with the
    number printed; under a name whose value is [undefined] or the empty
    string, and under a name the record does not have, the query is what
    the parsed URL already had.  [get] asks the network for nothing but this
    string.  Hence, for a [PlanetFilterState] whose four filter fields are
    blank, the URL of the request to [/planets] has the query [limit=20],
    [page], and [order_by] and [order_dir] where they are not empty, and
    nothing else. *)
Theorem buildUrl_omits_unset_parameters :
  (forall (path : string) (ps : Params),
      NoDup (map fst ps) ->
      let url0 := newURL path (API_BASE_URL env) in
      exists url : URL,
        buildUrl env path (Some ps) = URL_toString url /\
        url_base url = url_base url0 /\
        (forall k s, In (k, PString s) ps -> s <> "" ->
                     usp_getAll k (searchParams url) = [s]) /\
        (forall k n, In (k, PNumber n) ps ->
                     usp_getAll k (searchParams url) = [NumberToString n]) /\
        (forall k, In (k, PUndefined) ps \/ In (k, PString "") ps \/ ~ In k (map fst ps) ->
                   usp_getAll k (searchParams url) = usp_getAll k (searchParams url0)) /\
        (forall (T : Type) (fetch fetch' : string -> Settled (Response T)),
            fetch (URL_toString url) = fetch' (URL_toString url) ->
            get env fetch path (Some ps) = get env fetch' path (Some ps))) /\
  (forall (f : PlanetFilterState) (page : number) (base : string),
      search f = "" -> method f = "" -> minYear f = "" -> maxYear f = "" ->
      newURL "/planets" (API_BASE_URL env) = mkURL base [] ->
      buildUrl env "/planets" (Some (mapFiltersToParams f page))
      = URL_toString
          (mkURL base
             ([("limit", "20"); ("page", NumberToString page)]
              ++ (if String.eqb (orderBy f) "" then [] else [("order_by", orderBy f)])
              ++ (if String.eqb (orderDir f) "" then [] else [("order_dir", orderDir f)]))%list)).
Proof.
  split.
  - intros path ps Hnd url0.
    exists (buildUrl_url env path (Some ps)).
    split; [reflexivity|].
    split; [unfold buildUrl_url; apply fold_set_base|].
    split; [|split; [|split]].
    + intros k s Hin Hs.
      rewrite (buildUrl_entry path ps k (PString s) Hnd Hin).
      destruct s; [now elim Hs | reflexivity].
    + intros k n Hin.
      now rewrite (buildUrl_entry path ps k (PNumber n) Hnd Hin).
    + intros k [Hin|[Hin|Hout]].
      * now rewrite (buildUrl_entry path ps k PUndefined Hnd Hin).
      * now rewrite (buildUrl_entry path ps k (PString "") Hnd Hin).
      * unfold buildUrl_url. apply fold_set_other.
        intros kv Hkv E. apply Hout. rewrite <- E.
        apply filter_In in Hkv as [Hkv _]. now apply in_map.
    + intros T fetch fetch' E. unfold get.
      change (buildUrl env path (Some ps))
        with (URL_toString (buildUrl_url env path (Some ps))).
      now rewrite E.
  - intros [s m y1 y2 ob od] page base Hs Hm Hy1 Hy2 Hq0; simpl in *; subst.
    unfold buildUrl, buildUrl_url, mapFiltersToParams. rewrite Hq0.
    destruct ob as [|c1 ob], od as [|c2 od]; reflexivity.
Qed.

End BuildUrlSpec.

(** Distinctness of the names in a short list of string literals. *)
Ltac distinct_names :=
  repeat (constructor; [simpl; intuition discriminate|]); constructor.

Lemma buildUrl_omits_unset_parameters_witness :
  let ps := [("name", Client.PString "kepler"); ("method", Client.PString "");
             ("min_year", Client.PUndefined); ("page", Client.PNumber (of_Z 2))] in
  NoDup (map fst ps) /\
  Client.buildUrl (H:=Sample.host) None "/planets" (Some ps)
    = "http://localhost:8000/planets?name=kepler&page=2" /\
  exists url : URL,
    Client.buildUrl (H:=Sample.host) None "/planets" (Some ps)
      = URL_toString (Host:=Sample.host) url /\
    usp_getAll "name" (searchParams url) = ["kepler"] /\
    usp_getAll "page" (searchParams url) = ["2"] /\
    usp_getAll "method" (searchParams url) = [] /\
    usp_getAll "min_year" (searchParams url) = [].
Proof.
  intros ps.
  assert (Hnd : NoDup (map fst ps)) by (subst ps; simpl; distinct_names).
  split; [exact Hnd|]. split; [reflexivity|].
  destruct (proj1 (buildUrl_omits_unset_parameters (H:=Sample.host) None) "/planets" ps Hnd)
    as (url & E & _ & S & N & O & _).
  exists url. split; [exact E|]. split; [|split; [|split]].
  - apply S; [simpl; tauto | discriminate].
  - apply (N "page" (of_Z 2)). simpl; tauto.
  - rewrite (O "method"); [reflexivity | right; left; simpl; tauto].
  - rewrite (O "min_year"); [reflexivity | left; simpl; tauto].
Defined.

(** ** [buildParams] *)

Section BuildParams.
Import BuilderB.
Context `{Host}.


Lemma fold_numeric_other (source : Filters) (l : list (TextKey * string))
    (p : string) (q0 : SearchParams) :
  (forall e, In e l -> snd e <> p) ->
  usp_getAll p (fold_left (set_numeric source) l q0) = usp_getAll p q0.
Proof.
  revert q0. induction l as [|e l IH]; intros q0 Hl; simpl; [reflexivity|].
  rewrite IH by (intros; apply Hl; now right).
  unfold set_numeric.
  destruct (numericOrUndefined (text source (fst e))); [|reflexivity].
  apply usp_getAll_set_other. intro E. apply (Hl e); [now left | congruence].
Qed.

Lemma fold_numeric_member (source : Filters) (l : list (TextKey * string))
    (key : TextKey) (param : string) (q0 : SearchParams) :
  NoDup (map snd l) -> In (key, param) l ->
  usp_getAll param (fold_left (set_numeric source) l q0) =
  match numericOrUndefined (text source key) with
  | Some x => [NumberToString x]
  | None => usp_getAll param q0
  end.
Proof.
  revert q0. induction l as [|e l IH]; intros q0 Hnd Hin; simpl; [destruct Hin|].
  inversion Hnd as [|? ? Hnotin Hnd']; subst.
  destruct Hin as [-> | Hin].
  - rewrite fold_numeric_other.
    + unfold set_numeric; simpl.
      destruct (numericOrUndefined (text source key)); [|reflexivity].
      apply usp_getAll_set_same.
    + intros e He E. apply Hnotin. simpl. rewrite <- E. now apply in_map.
  - rewrite (IH _ Hnd' Hin).
    destruct (numericOrUndefined (text source key)); [reflexivity|].
    unfold set_numeric.
    destruct (numericOrUndefined (text source (fst e))); [|reflexivity].
    apply usp_getAll_set_other.
    intro E. apply Hnotin. rewrite <- E.
    change param with (snd (key, param)). now apply in_map.
Qed.

Lemma base_params_other (limit : number) (source : Filters) (useOffset : number)
    (p : string) :
  ~ In p base_names ->
  usp_getAll p (base_params limit source useOffset) = [].
Proof.
  intros Hp. unfold base_params.
  assert (forall n, In n base_names -> p <> n) as Hne
    by (intros n Hn E; apply Hp; now rewrite E).
  repeat (rewrite usp_getAll_set_other by (apply Hne; simpl; tauto)).
  destruct (include_deleted source);
    repeat (rewrite usp_getAll_set_other by (apply Hne; simpl; tauto));
    destruct (nonempty (trim (text source K_disc_method)));
    repeat (rewrite usp_getAll_set_other by (apply Hne; simpl; tauto));
    destruct (nonempty (trim (text source K_name)));
    repeat (rewrite usp_getAll_set_other by (apply Hne; simpl; tauto));
    reflexivity.
Qed.

Lemma numeric_names_fresh (key : TextKey) (param : string) :
  In (key, param) numericFilters -> ~ In param base_names.
Proof.
  intros Hin. simpl in Hin.
  repeat (destruct Hin as [Hin|Hin];
          [inversion Hin; subst; simpl; intuition discriminate|]).
  destruct Hin.
Qed.

Lemma numericFilters_names_distinct : NoDup (map snd numericFilters).
Proof. simpl. distinct_names. Qed.


End BuildParams.


(** ** Numbers *)

Lemma Qlt_bool_iff (x y : Q) : Qlt_bool x y = true <-> x < y.
Proof.
  unfold Qlt_bool. rewrite negb_true_iff.
  split.
  - intros E. apply Qnot_le_lt. intro L. apply Qle_bool_iff in L. congruence.
  - intros L. destruct (Qle_bool y x) eqn:E; [|reflexivity].
    apply Qle_bool_iff in E. exfalso. apply (Qlt_not_le _ _ L E).
Qed.

Lemma Qlt_bool_false (x y : Q) : Qlt_bool x y = false <-> y <= x.
Proof.
  unfold Qlt_bool. rewrite negb_false_iff. apply Qle_bool_iff.
Qed.

Lemma le_Fin (a b : Q) : le (Fin a) (Fin b) = true <-> a <= b.
Proof. simpl. apply Qle_bool_iff. Qed.

Lemma lt_Fin (a b : Q) : lt (Fin a) (Fin b) = true <-> a < b.
Proof. simpl. apply Qlt_bool_iff. Qed.

Lemma lt_Fin_false (a b : Q) : lt (Fin a) (Fin b) = false <-> b <= a.
Proof. simpl. apply Qlt_bool_false. Qed.

Lemma Qeq_bool_false_pos (l : Q) : 0 < l -> Qeq_bool l 0 = false.
Proof.
  intros L. destruct (Qeq_bool l 0) eqn:E; [|reflexivity].
  apply Qeq_bool_iff in E. rewrite E in L. exfalso. apply (Qlt_irrefl 0 L).
Qed.

Lemma div_Fin (o l : Q) : 0 < l -> div (Fin o) (Fin l) = Fin (o / l).
Proof. intros L. simpl. now rewrite Qeq_bool_false_pos. Qed.

(** ** Whole numbers *)

Lemma num_eq_of_Z (x : number) (z : Z) :
  num_eq x (of_Z z) <-> exists q, x = Fin q /\ q == inject_Z z.
Proof.
  destruct x as [| | |q]; simpl; split; try tauto;
    try (intros (q' & E & _); discriminate).
  - intros E. now exists q.
  - intros (q' & E & Hq). now injection E as <-.
Qed.

Lemma num_eq_refl (x : number) : num_eq x x.
Proof. destruct x; simpl; auto. reflexivity. Qed.

Lemma Qfloor_whole (x y : Q) (a b : Z) :
  x == inject_Z a -> y == inject_Z b -> Qfloor (x / y) = (a / b)%Z.
Proof.
  intros Ex Ey. rewrite Zdiv_Qdiv. apply Qfloor_comp. now rewrite Ex, Ey.
Qed.

Lemma Qceiling_unique (x : Q) (n : Z) :
  inject_Z (n - 1) < x -> x <= inject_Z n -> Qceiling x = n.
Proof.
  intros L U.
  pose proof (Qle_ceiling x) as C1. pose proof (Qceiling_lt x) as C2.
  assert (A : (n - 1 < Qceiling x)%Z)
    by (rewrite Zlt_Qlt; apply Qlt_le_trans with x; assumption).
  assert (B : (Qceiling x - 1 < n)%Z)
    by (rewrite Zlt_Qlt; apply Qlt_le_trans with x; assumption).
  lia.
Qed.

(** The ceiling of a quotient of whole numbers, in integer arithmetic. *)
Lemma Qceiling_whole (x y : Q) (a b : Z) :
  x == inject_Z a -> y == inject_Z b -> (0 < b)%Z ->
  Qceiling (x / y) = ((a + b - 1) / b)%Z.
Proof.
  intros Ex Ey Hb.
  set (c := ((a + b - 1) / b)%Z).
  assert (M : (b * c <= a + b - 1 < b * (c + 1))%Z).
  { pose proof (Z.mul_div_le (a + b - 1) b Hb).
    pose proof (Z.mul_succ_div_gt (a + b - 1) b Hb). fold c in H, H0. lia. }
  assert (Pb : 0 < inject_Z b) by (change 0 with (inject_Z 0); now rewrite <- Zlt_Qlt).
  assert (E : x / y == inject_Z a / inject_Z b) by now rewrite Ex, Ey.
  rewrite (Qceiling_comp _ _ E).
  apply Qceiling_unique.
  - apply Qlt_shift_div_l; [exact Pb|].
    rewrite <- inject_Z_mult, <- Zlt_Qlt. nia.
  - apply Qle_shift_div_r; [exact Pb|].
    rewrite <- inject_Z_mult, <- Zle_Qle. nia.
Qed.

(** ** Builder B: page figures *)

Section PageFigures.
Import BuilderB.

Lemma currentPage_Fin (s : State) (o l : Q) :
  offset s = Fin o -> limit s = Fin l -> 0 < l ->
  currentPage s = Fin (inject_Z (Qfloor (o / l)) + inject_Z 1).
Proof.
  intros Ho Hl L. unfold currentPage. rewrite Ho, Hl, div_Fin by exact L.
  reflexivity.
Qed.

Lemma totalPages_Fin (s : State) (p : PlanetListResponse) (t l : Q) :
  planets (fetched s) = Some p -> total p = Fin t -> limit s = Fin l -> 0 < l ->
  totalPages s = of_Z (Qceiling (t / l)).
Proof.
  intros Hp Ht Hl L. unfold totalPages. rewrite Hp, Ht, Hl, div_Fin by exact L.
  reflexivity.
Qed.

Lemma positive_whole (l : Q) (lz : Z) : l == inject_Z lz -> (1 <= lz)%Z -> 0 < l.
Proof.
  intros E L. rewrite E. change 0 with (inject_Z 0). rewrite <- Zlt_Qlt. lia.
Qed.

Lemma Qfloor_times_over (k : Z) (o l : Q) :
  0 < l -> o == inject_Z k * l -> Qfloor (o / l) = k.
Proof.
  intros L E.
  assert (E' : o / l == inject_Z k)
    by (rewrite E; field; intro Z0; rewrite Z0 in L; apply (Qlt_irrefl 0 L)).
  rewrite (Qfloor_comp _ _ E'). apply Qfloor_Z.
Qed.

(** The page shown when the offset is a whole number of pages. *)
Lemma currentPage_aligned (s : State) (k : Z) (o l : Q) :
  offset s = Fin o -> limit s = Fin l -> 0 < l -> o == inject_Z k * l ->
  num_eq (currentPage s) (of_Z (k + 1)).
Proof.
  intros Ho Hl L E.
  rewrite (currentPage_Fin s o l Ho Hl L), (Qfloor_times_over k o l L E).
  unfold of_Z, num_eq. now rewrite inject_Z_plus.
Qed.

(** The page shown, for a whole offset and a whole limit. *)
Lemma currentPage_whole (s : State) (o l : Z) :
  num_eq (offset s) (of_Z o) -> num_eq (limit s) (of_Z l) -> (1 <= l)%Z ->
  num_eq (currentPage s) (of_Z (o / l + 1)).
Proof.
  intros Ho Hl L.
  apply num_eq_of_Z in Ho as (oq & Ho & Eo), Hl as (lq & Hl & El).
  rewrite (currentPage_Fin s oq lq Ho Hl (positive_whole lq l El L)).
  rewrite (Qfloor_whole oq lq o l Eo El).
  unfold of_Z, num_eq. now rewrite inject_Z_plus.
Qed.

(** The number of pages shown, for a whole total and a whole limit. *)
Lemma totalPages_whole (s : State) (p : PlanetListResponse) (t l : Z) :
  planets (fetched s) = Some p ->
  num_eq (total p) (of_Z t) -> num_eq (limit s) (of_Z l) -> (1 <= l)%Z ->
  totalPages s = of_Z ((t + l - 1) / l).
Proof.
  intros Hp Ht Hl L.
  apply num_eq_of_Z in Ht as (tq & Ht & Et), Hl as (lq & Hl & El).
  rewrite (totalPages_Fin s p tq lq Hp Ht Hl (positive_whole lq l El L)).
  now rewrite (Qceiling_whole tq lq t l Et El) by lia.
Qed.

(** C3, as the dashboard has it.  The page shown and the number of pages
    shown are computed from the offset and the limit of the component
    state, and from the total of the response in the state; the offset and
    the limit of the response are not read.  For a whole offset and a whole
    limit of at least 1 in the state, the page shown is
    floor(offset / limit) + 1, the whole number [cp] with
    (cp - 1) * limit <= offset < cp * limit; without a response the number
    of pages shown is 0, and with a response of a whole total it is
    ceil(total / limit), the whole number [tp] with
    (tp - 1) * limit < total <= tp * limit.  Offset 40 with limit 20 gives
    page 3, and total 95 with limit 20 gives 5 pages.  (The numbers stay
    within [MAX_SAFE_INTEGER], where the floor and the ceiling of the
    double quotient are those of the exact one.) *)
Theorem page_figures :
  forall (s : State) (o l : Z),
    num_eq (offset s) (of_Z o) -> num_eq (limit s) (of_Z l) ->
    (0 <= o)%Z -> (1 <= l)%Z -> (o + l <= MAX_SAFE_INTEGER)%Z ->
    (exists cp : Z,
        num_eq (currentPage s) (of_Z cp) /\
        cp = (o / l + 1)%Z /\
        ((cp - 1) * l <= o)%Z /\ (o < cp * l)%Z) /\
    (planets (fetched s) = None -> totalPages s = of_Z 0) /\
    (forall (p : PlanetListResponse) (t : Z),
        planets (fetched s) = Some p -> num_eq (total p) (of_Z t) ->
        (0 <= t)%Z -> (t + l <= MAX_SAFE_INTEGER)%Z ->
        exists tp : Z,
          totalPages s = of_Z tp /\
          tp = ((t + l - 1) / l)%Z /\
          ((tp - 1) * l < t)%Z /\ (t <= tp * l)%Z) /\
    (o = 40%Z -> l = 20%Z -> num_eq (currentPage s) (of_Z 3)) /\
    (forall (p : PlanetListResponse),
        planets (fetched s) = Some p -> num_eq (total p) (of_Z 95) -> l = 20%Z ->
        totalPages s = of_Z 5).
Proof.
  intros s o l Ho Hl O L M.
  pose proof (currentPage_whole s o l Ho Hl L) as Hc.
  split; [|split; [|split; [|split]]].
  - exists (o / l + 1)%Z. split; [exact Hc|]. split; [reflexivity|].
    pose proof (Z.mul_div_le o l ltac:(lia)).
    pose proof (Z.mul_succ_div_gt o l ltac:(lia)). nia.
  - intros Hp. unfold totalPages. now rewrite Hp.
  - intros p t Hp Ht T Mt.
    exists ((t + l - 1) / l)%Z.
    split; [now apply (totalPages_whole s p t l)|]. split; [reflexivity|].
    pose proof (Z.mul_div_le (t + l - 1) l ltac:(lia)).
    pose proof (Z.mul_succ_div_gt (t + l - 1) l ltac:(lia)). nia.
  - intros -> ->. exact Hc.
  - intros p Hp Ht ->. now rewrite (totalPages_whole s p 95 20 Hp Ht Hl).
Qed.

End PageFigures.

(** The state has offset 40 and limit 20; the response on display is an
    older one, with offset 0 and limit 25 of its own. *)
Lemma page_figures_witness :
  let p := {| BuilderB.items := []; BuilderB.resp_limit := of_Z 25;
              BuilderB.resp_offset := of_Z 0; BuilderB.total := of_Z 95 |} in
  let s := BuilderB.mkState BuilderB.DEFAULT_BASE_URL
             BuilderB.DEFAULT_FILTERS BuilderB.DEFAULT_FILTERS (of_Z 20) (of_Z 40)
             (BuilderB.mkFetchState (Some p) [] None false None) in
  ((0 <= 40)%Z /\ (1 <= 20)%Z /\ (40 + 20 <= MAX_SAFE_INTEGER)%Z) /\
  num_eq (BuilderB.currentPage s) (of_Z 3) /\
  BuilderB.totalPages s = of_Z 5.
Proof.
  intros p s.
  assert (O : (0 <= 40)%Z) by lia.
  assert (L : (1 <= 20)%Z) by lia.
  assert (M : (40 + 20 <= MAX_SAFE_INTEGER)%Z) by (unfold MAX_SAFE_INTEGER; lia).
  assert (E : num_eq (of_Z 40) (of_Z 40) /\ num_eq (of_Z 20) (of_Z 20)
              /\ num_eq (of_Z 95) (of_Z 95)) by (repeat split; reflexivity).
  destruct (page_figures s 40 20 (proj1 E) (proj1 (proj2 E)) O L M)
    as (_ & _ & _ & A & B).
  split; [repeat split; assumption|].
  split; [now apply A | apply (B p); [reflexivity | exact (proj2 (proj2 E)) | reflexivity]].
Defined.

(** C3, as stated, fails: the figures do not follow the response.  Once the
    first page has loaded (limit 25, offset 0, total 100), a page size of 50
    and a jump to page 2 leave that response on display until the next one
    arrives; the page shows page 2 of 2, while the offset and the limit of
    the response give page 1 of 4. *)
Lemma page_figures_counterexample :
  let s := fold_left (BuilderB.dispatch (H:=Sample.host))
             [BuilderB.FetchBegins;
              BuilderB.FetchSettles (Fulfilled (Sample.first_page, [], Sample.no_stats));
              BuilderB.LimitInput "50";
              BuilderB.PageInput "2";
              BuilderB.FetchBegins]
             (BuilderB.initial None) in
  let r := Sample.first_page in
  BuilderB.Reachable (H:=Sample.host) None s /\
  BuilderB.planets (BuilderB.fetched s) = Some r /\
  lt (of_Z 0) (BuilderB.resp_limit r) = true /\
  num_eq (BuilderB.currentPage s) (of_Z 2) /\
  num_eq (add (floor (div (BuilderB.resp_offset r) (BuilderB.resp_limit r))) (of_Z 1))
         (of_Z 1) /\
  num_eq (BuilderB.totalPages s) (of_Z 2) /\
  num_eq (ceil (div (BuilderB.total r) (BuilderB.resp_limit r))) (of_Z 4).
Proof.
  cbv zeta. split.
  - cbn [fold_left]. repeat apply BuilderB.reach_step. apply BuilderB.reach_initial.
  - repeat split; reflexivity.
Qed.

(** ** Builder B: the bounds of the paging state *)

Section PagingBounds.
Import BuilderB.
Context `{Host}.

Lemma initial_in_bounds (stored : option string) : in_bounds (initial stored).
Proof.
  split; [|reflexivity]. exists 25. simpl. repeat split; discriminate.
Qed.

Lemma max_one (p : Q) :
  exists sp : Q,
    max (of_Z 1) (Fin p) = Fin sp /\ 1 <= sp /\
    (p <= 1 -> sp == 1) /\ (1 <= p -> sp == p).
Proof.
  unfold max, of_Z. simpl. destruct (Qlt_bool (inject_Z 1) p) eqn:E.
  - apply Qlt_bool_iff in E. change (inject_Z 1) with 1 in E.
    exists p. repeat split; try reflexivity; intros; lra.
  - apply Qlt_bool_false in E. change (inject_Z 1) with 1 in *.
    exists 1. repeat split; try reflexivity; intros; lra.
Qed.

Lemma goToPage_offset (s : State) (l p : Q) :
  limit s = Fin l ->
  exists sp : Q,
    max (of_Z 1) (Fin p) = Fin sp /\ 1 <= sp /\
    (p <= 1 -> sp == 1) /\ (1 <= p -> sp == p) /\
    offset (goToPage s (Fin p)) = Fin ((sp + - inject_Z 1) * l) /\
    limit (goToPage s (Fin p)) = Fin l.
Proof.
  intros Hl. destruct (max_one p) as (sp & Hm & H1 & H2 & H3).
  exists sp. repeat split; try assumption.
  unfold goToPage, set_offset. cbn [offset]. rewrite Hm, Hl. reflexivity.
Qed.

Lemma goToPage_limit (s : State) (page : number) : limit (goToPage s page) = limit s.
Proof. reflexivity. Qed.

(** The offset [goToPage] leaves, by the page it is asked for. *)
Lemma goToPage_cases (s : State) (l : Q) (page : number) :
  limit s = Fin l -> 1 <= l ->
  match page with
  | NaN => offset (goToPage s page) = NaN
  | PosInf => offset (goToPage s page) = PosInf
  | NegInf => num_eq (offset (goToPage s page)) (of_Z 0)
  | Fin p =>
      exists o' : Q,
        offset (goToPage s page) = Fin o' /\ 0 <= o' /\
        (p <= 1 -> o' == 0) /\ (1 <= p -> o' == (p - 1) * l)
  end.
Proof.
  intros Hl L. destruct page as [| | |p].
  - reflexivity.
  - unfold goToPage, set_offset. cbn [offset]. rewrite Hl. simpl.
    assert (E0 : Qeq_bool l 0 = false) by (apply Qeq_bool_false_pos; lra).
    assert (E1 : Qlt_bool 0 l = true) by (apply Qlt_bool_iff; lra).
    now rewrite E0, E1.
  - unfold goToPage, set_offset. cbn [offset]. rewrite Hl. simpl. ring.
  - destruct (goToPage_offset s l p Hl) as (sp & _ & S1 & S2 & S3 & Hoff & _).
    exists ((sp + - inject_Z 1) * l). split; [exact Hoff|].
    change (inject_Z 1) with 1.
    split; [nra|]. split.
    + intros P. rewrite (S2 P). ring.
    + intros P. rewrite (S3 P). ring.
Qed.

Lemma not_below_zero (x : number) : le (of_Z 0) x = true <->
  x = PosInf \/ exists q, x = Fin q /\ 0 <= q.
Proof.
  destruct x as [| | |q]; simpl; split; try discriminate; auto.
  - intros [E|(q & E & _)]; discriminate.
  - intros [E|(q & E & _)]; discriminate.
  - intros E. right. exists q. split; [reflexivity|]. now apply Qle_bool_iff.
  - intros [E|(q' & E & Hq)]; [discriminate|]. injection E as <-.
    now apply Qle_bool_iff.
Qed.

Lemma goToPage_in_bounds (s : State) (l : Q) (page : number) :
  limit s = Fin l -> 1 <= l -> l <= 200 -> page <> NaN ->
  in_bounds (goToPage s page).
Proof.
  intros Hl L1 L2 Hp.
  split; [exists l; rewrite goToPage_limit; auto|].
  pose proof (goToPage_cases s l page Hl L1) as C.
  apply not_below_zero.
  destruct page as [| | |p].
  - now elim Hp.
  - now left.
  - right. apply num_eq_of_Z in C as (q & E & Hq). exists q. split; [exact E|].
    rewrite Hq. discriminate.
  - right. destruct C as (o' & E & O & _). now exists o'.
Qed.

(** Within the bounds the page shown is a number, at least 1. *)
Lemma currentPage_in_bounds (s : State) :
  in_bounds s ->
  currentPage s = PosInf \/
  exists cp : Z, currentPage s = Fin (inject_Z cp + inject_Z 1) /\ (0 <= cp)%Z.
Proof.
  intros [(l & Hl & L1 & L2) O].
  assert (L : 0 < l) by lra.
  apply not_below_zero in O as [O|(o & Ho & O)].
  - left. unfold currentPage. rewrite O, Hl. simpl.
    assert (E1 : Qle_bool 0 l = true) by (apply Qle_bool_iff; lra).
    now rewrite E1.
  - right. exists (Qfloor (o / l)). split.
    + now apply currentPage_Fin.
    + change 0%Z with (Qfloor 0). apply Qfloor_resp_le.
      apply Qle_shift_div_l; [exact L | lra].
Qed.

Lemma currentPage_at_least_1 (s : State) :
  in_bounds s -> le (of_Z 1) (currentPage s) = true.
Proof.
  intros Hs. destruct (currentPage_in_bounds s Hs) as [-> | (cp & -> & C)];
    [reflexivity|].
  apply le_Fin. rewrite <- inject_Z_plus, <- Zle_Qle. lia.
Qed.

Lemma limit_input_clamps (s : State) (v : string) :
  exists l' : Q,
    limit (limit_input s v) = Fin l' /\ 1 <= l' /\ l' <= 200 /\
    offset (limit_input s v) = of_Z 0.
Proof.
  unfold limit_input. simpl.
  destruct (parseNumber v) as [| | |q]; simpl.
  - exists 1. repeat split; try reflexivity; discriminate.
  - exists 200. repeat split; try reflexivity; discriminate.
  - exists 1. repeat split; try reflexivity; discriminate.
  - unfold or_else, truthy.
    destruct (Qeq_bool q 0) eqn:E0; simpl.
    + exists 1. repeat split; try reflexivity; discriminate.
    + destruct (Qlt_bool (inject_Z 1) q) eqn:E1; simpl.
      * apply Qlt_bool_iff in E1. change (inject_Z 1) with 1 in E1.
        destruct (Qlt_bool q (inject_Z 200)) eqn:E2.
        -- apply Qlt_bool_iff in E2. change (inject_Z 200) with 200 in E2.
           exists q. repeat split; try reflexivity; lra.
        -- exists 200. repeat split; try reflexivity; discriminate.
      * exists 1. repeat split; try reflexivity; discriminate.
Qed.

(** The limit the page-size input leaves, by what its text reads as. *)
Lemma limit_input_value (s : State) (v : string) :
  match parseNumber v with
  | NaN => limit (limit_input s v) = of_Z 1
  | PosInf => limit (limit_input s v) = of_Z 200
  | NegInf => limit (limit_input s v) = of_Z 1
  | Fin q =>
      (q <= 1 -> limit (limit_input s v) = of_Z 1) /\
      (1 <= q -> q <= 200 -> num_eq (limit (limit_input s v)) (Fin q)) /\
      (200 <= q -> limit (limit_input s v) = of_Z 200)
  end.
Proof.
  unfold limit_input. cbn [limit].
  destruct (parseNumber v) as [| | |q]; try reflexivity.
  unfold or_else, truthy.
  destruct (Qeq_bool q 0) eqn:E0.
  - apply Qeq_bool_iff in E0. cbn [negb].
    split; [reflexivity|]. split; intros; exfalso; lra.
  - cbn [negb]. unfold max, min, of_Z.
    destruct (lt (Fin (inject_Z 1)) (Fin q)) eqn:E1.
    + apply lt_Fin in E1. change (inject_Z 1) with 1 in E1.
      destruct (lt (Fin q) (Fin (inject_Z 200))) eqn:E2.
      * apply lt_Fin in E2. change (inject_Z 200) with 200 in E2.
        split; [intros; exfalso; lra|]. split; [intros; simpl; reflexivity|].
        intros; exfalso; lra.
      * apply lt_Fin_false in E2. change (inject_Z 200) with 200 in E2.
        split; [intros; exfalso; lra|]. split; [|reflexivity].
        intros _ U. unfold num_eq. change (inject_Z 200) with 200.
        apply Qle_antisym; lra.
    + apply lt_Fin_false in E1. change (inject_Z 1) with 1 in E1.
      assert (E2 : lt (Fin (inject_Z 1)) (Fin (inject_Z 200)) = true) by reflexivity.
      rewrite E2.
      split; [reflexivity|]. split; [|intros; exfalso; lra].
      intros L _. unfold num_eq. change (inject_Z 1) with 1.
      apply Qle_antisym; lra.
Qed.

Lemma dispatch_in_bounds (s : State) (e : Event) :
  in_bounds s -> in_bounds (dispatch s e).
Proof.
  intros Hs. pose proof Hs as [(l & Hl & L1 & L2) Ho].
  destruct e; simpl.
  - exact Hs.
  - exact Hs.
  - exact Hs.
  - destruct (loading (fetched s)); [exact Hs|]. split; [now exists l | reflexivity].
  - destruct (canGoPrev s); [|exact Hs].
    apply (goToPage_in_bounds s l); try assumption.
    destruct (currentPage_in_bounds s Hs) as [-> | (cp & -> & _)]; discriminate.
  - destruct (canGoNext s); [|exact Hs].
    apply (goToPage_in_bounds s l); try assumption.
    destruct (currentPage_in_bounds s Hs) as [-> | (cp & -> & _)]; discriminate.
  - unfold page_input. destruct (parseNumber v) as [| | |q]; simpl; try exact Hs.
    apply (goToPage_in_bounds s l); try assumption. discriminate.
  - destruct (limit_input_clamps s v) as (l' & E1 & B1 & B2 & E2).
    split; [now exists l' | now rewrite E2].
  - split; [|reflexivity]. exists 25. simpl. repeat split; discriminate.
  - exact Hs.
  - exact Hs.
Qed.

Lemma reachable_in_bounds (stored : option string) (s : State) :
  Reachable stored s -> in_bounds s.
Proof.
  induction 1 as [|s e _ IH].
  - apply initial_in_bounds.
  - now apply dispatch_in_bounds.
Qed.

(** C9.  In every state the dashboard can reach, the limit is a finite
    number in [1, 200], the offset is at least 0 and the page number shown
    is at least 1.  [goToPage] takes the larger of 1 and the requested page
    before it multiplies by the limit: asked for a page of at most 1 it
    leaves offset 0 and page 1, asked for a page of at least 1 it leaves an
    offset of at least 0 and a page of at least 1, and for a whole page
    number and a whole limit the offset is (page - 1) * limit; it never
    changes the limit.  The handler of the page-size input sets offset 0 and
    the limit the text reads as, cut to [1, 200]: 1 when it reads as [NaN],
    as 0 or as anything up to 1, the number itself from 1 to 200, and 200
    above.  Every event of the page (submit, reset, a filter change, the
    paging buttons and inputs, the fetch life cycle) keeps the bounds, from
    any state within them; and the bounds do not hang on the digits of the
    product: with a limit in [1, 200], any offset of at least 0, [Infinity]
    included, is within the bounds and shows a page of at least 1. *)
Theorem pagination_bounds :
  forall (stored : option string),
    (forall s, Reachable stored s ->
       (exists l : Q, limit s = Fin l /\ 1 <= l /\ l <= 200) /\
       le (of_Z 0) (offset s) = true /\
       le (of_Z 1) (currentPage s) = true) /\
    (forall s (l : Q) (page : number),
       limit s = Fin l -> 1 <= l -> l <= 200 ->
       limit (goToPage s page) = Fin l /\
       (le page (of_Z 1) = true ->
        num_eq (offset (goToPage s page)) (of_Z 0) /\
        num_eq (currentPage (goToPage s page)) (of_Z 1)) /\
       (le (of_Z 1) page = true ->
        le (of_Z 0) (offset (goToPage s page)) = true /\
        le (of_Z 1) (currentPage (goToPage s page)) = true) /\
       (forall z lz : Z,
           num_eq page (of_Z z) -> l == inject_Z lz ->
           (1 <= z)%Z -> (z * lz <= MAX_SAFE_INTEGER)%Z ->
           num_eq (offset (goToPage s page)) (of_Z ((z - 1) * lz)))) /\
    (forall s v,
       offset (limit_input s v) = of_Z 0 /\
       (parseNumber v = NaN -> limit (limit_input s v) = of_Z 1) /\
       (parseNumber v = PosInf -> limit (limit_input s v) = of_Z 200) /\
       (parseNumber v = NegInf -> limit (limit_input s v) = of_Z 1) /\
       (forall q, parseNumber v = Fin q ->
          (q <= 1 -> limit (limit_input s v) = of_Z 1) /\
          (1 <= q -> q <= 200 -> num_eq (limit (limit_input s v)) (Fin q)) /\
          (200 <= q -> limit (limit_input s v) = of_Z 200))) /\
    (forall s e,
       in_bounds s ->
       in_bounds (dispatch s e) /\ le (of_Z 1) (currentPage (dispatch s e)) = true) /\
    (forall s o',
       in_bounds s -> le (of_Z 0) o' = true ->
       in_bounds (set_offset s o') /\ le (of_Z 1) (currentPage (set_offset s o')) = true).
Proof.
  intros stored.
  assert (Any : forall s o',
             in_bounds s -> le (of_Z 0) o' = true -> in_bounds (set_offset s o')).
  { intros s o' [Hl _] Ho. split; [exact Hl | exact Ho]. }
  revert stored.
  intros stored. split; [|split; [|split; [|split]]].
  - intros s Hr. pose proof (reachable_in_bounds stored s Hr) as Hs.
    split; [exact (proj1 Hs)|]. split; [exact (proj2 Hs)|].
    now apply currentPage_at_least_1.
  - intros s l page Hl L1 L2.
    pose proof (goToPage_cases s l page Hl L1) as C.
    split; [exact Hl|]. split; [|split].
    + intros P. destruct page as [| | |p]; try discriminate.
      * split; [exact C|].
        apply num_eq_of_Z in C as (q & E & Hq).
        apply (currentPage_aligned _ 0 q l E Hl); [lra | rewrite Hq; ring].
      * apply le_Fin in P. change (inject_Z 1) with 1 in P.
        destruct C as (o' & E & _ & Z0 & _).
        split; [rewrite E; simpl; now apply Z0|].
        apply (currentPage_aligned _ 0 o' l E Hl); [lra | rewrite (Z0 P); ring].
    + intros P.
      assert (B : in_bounds (goToPage s page)).
      { apply (goToPage_in_bounds s l); try assumption.
        intros ->. discriminate. }
      split; [exact (proj2 B) | now apply currentPage_at_least_1].
    + intros z lz Hz El Z1 _.
      apply num_eq_of_Z in Hz as (p & -> & Ep).
      destruct C as (o' & E & _ & _ & Z1').
      rewrite E. unfold of_Z, num_eq. rewrite Z1'.
      * rewrite Ep, El, inject_Z_mult. unfold Z.sub.
        rewrite inject_Z_plus, inject_Z_opp. reflexivity.
      * rewrite Ep. change 1 with (inject_Z 1). now rewrite <- Zle_Qle.
  - intros s v. pose proof (limit_input_value s v) as V.
    split; [reflexivity|].
    split; [intros E; rewrite E in V; exact V|].
    split; [intros E; rewrite E in V; exact V|].
    split; [intros E; rewrite E in V; exact V|].
    intros q E. rewrite E in V. exact V.
  - intros s e Hs. pose proof (dispatch_in_bounds s e Hs) as Hs'.
    split; [exact Hs' | now apply currentPage_at_least_1].
  - intros s o' Hs Ho. pose proof (Any s o' Hs Ho) as Hs'.
    split; [exact Hs' | now apply currentPage_at_least_1].
Qed.

End PagingBounds.

Lemma pagination_bounds_witness :
  let s := fold_left (BuilderB.dispatch (H:=Sample.host))
             [BuilderB.LimitInput "500"; BuilderB.PageInput "3"; BuilderB.ClickPrevious]
             (BuilderB.initial None) in
  BuilderB.Reachable (H:=Sample.host) None s /\
  BuilderB.limit s = of_Z 200 /\
  num_eq (BuilderB.offset s) (of_Z 200) /\
  le (of_Z 0) (BuilderB.offset s) = true /\
  le (of_Z 1) (BuilderB.currentPage s) = true /\
  BuilderB.limit (BuilderB.limit_input (H:=Sample.host) s "0") = of_Z 1.
Proof.
  intros s.
  assert (R : BuilderB.Reachable (H:=Sample.host) None s).
  { subst s. cbn [fold_left]. repeat apply BuilderB.reach_step. apply BuilderB.reach_initial. }
  destruct (pagination_bounds (H:=Sample.host) None) as (A & _ & C & _).
  destruct (A s R) as (_ & O & P).
  destruct (C s "0") as (_ & _ & _ & _ & V).
  split; [exact R|]. split; [reflexivity|]. split; [reflexivity|].
  split; [exact O|]. split; [exact P|].
  apply (proj1 (V 0 eq_refl)). discriminate.
Defined.

(** ** The paging controls *)

Section PagingControls.

(** C5, as the code has it.  Builder A: with a response on a finite page,
    Previous is disabled exactly when the page is at most 1 or the table is
    loading, and Next exactly when the page is at least the number of pages
    or the table is loading; page and number of pages are the fields of the
    response.  Builder B: Previous is disabled exactly when the offset of the
    component state is at most 0; Next is disabled when no response is in the
    state, and with a response, for a whole offset and a whole limit in the
    component state, exactly when their sum reaches the total of the
    response.  (The sum stays within [MAX_SAFE_INTEGER], where the double
    sum is the exact one.) *)
Theorem paging_controls_disabled :
  (forall (props : BuilderA.Props) (r : BuilderA.PlanetListResponse) (p n : Q),
      BuilderA.response props = Some r ->
      BuilderA.page r = Fin p -> BuilderA.pages r = Fin n ->
      (BuilderA.previous_disabled props = true <->
       (p <= 1 \/ BuilderA.is_loading props = true)) /\
      (BuilderA.next_disabled props = true <->
       (n <= p \/ BuilderA.is_loading props = true))) /\
  (forall (s : BuilderB.State) (o : Q),
      BuilderB.offset s = Fin o ->
      (BuilderB.previous_disabled s = true <-> o <= 0)) /\
  (forall (s : BuilderB.State),
      BuilderB.planets (BuilderB.fetched s) = None ->
      BuilderB.next_disabled s = true) /\
  (forall (s : BuilderB.State) (o l : Z) (r : BuilderB.PlanetListResponse) (t : Q),
      num_eq (BuilderB.offset s) (of_Z o) -> num_eq (BuilderB.limit s) (of_Z l) ->
      (0 <= o)%Z -> (0 <= l)%Z -> (o + l <= MAX_SAFE_INTEGER)%Z ->
      BuilderB.planets (BuilderB.fetched s) = Some r ->
      BuilderB.total r = Fin t ->
      (BuilderB.next_disabled s = true <-> t <= inject_Z (o + l))).
Proof.
  split; [|split; [|split]].
  - intros props r p n Hr Hp Hn.
    unfold BuilderA.previous_disabled, BuilderA.next_disabled,
      BuilderA.shown_page, BuilderA.shown_pages, ge.
    rewrite Hr, Hp, Hn. unfold of_Z.
    rewrite !orb_true_iff, !le_Fin. change (inject_Z 1) with 1. tauto.
  - intros s o Ho.
    unfold BuilderB.previous_disabled, BuilderB.canGoPrev, gt.
    rewrite Ho. unfold of_Z. rewrite negb_true_iff, lt_Fin_false.
    change (inject_Z 0) with 0. tauto.
  - intros s Hp. unfold BuilderB.next_disabled, BuilderB.canGoNext.
    now rewrite Hp.
  - intros s o l r t Ho Hl _ _ _ Hr Ht.
    apply num_eq_of_Z in Ho as (oq & Ho & Eo), Hl as (lq & Hl & El).
    unfold BuilderB.next_disabled, BuilderB.canGoNext.
    rewrite Hr, Ho, Hl, Ht. cbn [add].
    rewrite negb_true_iff, lt_Fin_false, Eo, El, inject_Z_plus. tauto.
Qed.

End PagingControls.

Lemma paging_controls_disabled_witness :
  let props := {| BuilderA.response := Some Sample.second_page;
                  BuilderA.loading := Some false |} in
  let s := fold_left (BuilderB.dispatch (H:=Sample.host))
             [BuilderB.FetchBegins;
              BuilderB.FetchSettles (Fulfilled (Sample.first_page, [], Sample.no_stats));
              BuilderB.ClickNext; BuilderB.ClickNext; BuilderB.ClickNext]
             (BuilderB.initial None) in
  let before := fold_left (BuilderB.dispatch (H:=Sample.host))
                  [BuilderB.FetchBegins;
                   BuilderB.FetchSettles (Fulfilled (Sample.first_page, [], Sample.no_stats));
                   BuilderB.ClickNext; BuilderB.ClickNext]
                  (BuilderB.initial None) in
  (BuilderA.previous_disabled props = true <->
   (2 <= 1 \/ BuilderA.is_loading props = true)) /\
  (BuilderA.next_disabled props = true <->
   (3 <= 2 \/ BuilderA.is_loading props = true)) /\
  (BuilderB.previous_disabled (BuilderB.initial None) = true <-> 0 <= 0) /\
  ((0 <= 75)%Z /\ (0 <= 25)%Z /\ (75 + 25 <= MAX_SAFE_INTEGER)%Z) /\
  BuilderB.planets (BuilderB.fetched s) = Some Sample.first_page /\
  BuilderB.next_disabled s = true /\
  BuilderB.next_disabled before = false.
Proof.
  intros props s before.
  destruct paging_controls_disabled as (A & B & _ & D).
  destruct (A props Sample.second_page 2 3 eq_refl eq_refl eq_refl) as [A1 A2].
  assert (M : (0 <= 75)%Z /\ (0 <= 25)%Z /\ (75 + 25 <= MAX_SAFE_INTEGER)%Z)
    by (unfold MAX_SAFE_INTEGER; lia).
  assert (M' : (0 <= 50)%Z /\ (0 <= 25)%Z /\ (50 + 25 <= MAX_SAFE_INTEGER)%Z)
    by (unfold MAX_SAFE_INTEGER; lia).
  assert (Eo : num_eq (BuilderB.offset s) (of_Z 75)) by reflexivity.
  assert (El : num_eq (BuilderB.limit s) (of_Z 25)) by reflexivity.
  assert (Eo' : num_eq (BuilderB.offset before) (of_Z 50)) by reflexivity.
  assert (El' : num_eq (BuilderB.limit before) (of_Z 25)) by reflexivity.
  pose proof (D s 75%Z 25%Z Sample.first_page 100 Eo El
                (proj1 M) (proj1 (proj2 M)) (proj2 (proj2 M)) eq_refl eq_refl) as D1.
  pose proof (D before 50%Z 25%Z Sample.first_page 100 Eo' El'
                (proj1 M') (proj1 (proj2 M')) (proj2 (proj2 M')) eq_refl eq_refl) as D2.
  split; [exact A1|]. split; [exact A2|].
  split; [exact (B (BuilderB.initial None) 0 eq_refl)|]. split; [exact M|].
  split; [reflexivity|]. split.
  - apply D1. discriminate.
  - destruct (BuilderB.next_disabled before) eqn:E; [|reflexivity].
    exfalso. apply (Qlt_not_le (inject_Z (50 + 25)) 100); [reflexivity|].
    now apply D2.
Defined.

(** C5, as stated, fails in both clients.  Builder A: while the table is
    loading, a response on page 2 of 3 has both buttons disabled, although
    1 < 2 < 3.  Builder B: once the first page has loaded and Next has been
    clicked, the state holds offset 25 while the response on display still
    says offset 0; Previous is enabled, from the offset of the component
    state and not from the one of the response. *)
Lemma paging_controls_counterexample :
  (let props := {| BuilderA.response := Some Sample.second_page;
                   BuilderA.loading := Some true |} in
   BuilderA.previous_disabled props = true /\
   le (BuilderA.shown_page props) (of_Z 1) = false /\
   BuilderA.next_disabled props = true /\
   ge (BuilderA.shown_page props) (BuilderA.shown_pages props) = false) /\
  (let s := fold_left (BuilderB.dispatch (H:=Sample.host))
              [BuilderB.FetchBegins;
               BuilderB.FetchSettles (Fulfilled (Sample.first_page, [], Sample.no_stats));
               BuilderB.ClickNext;
               BuilderB.FetchBegins]
              (BuilderB.initial None) in
   BuilderB.Reachable (H:=Sample.host) None s /\
   BuilderB.planets (BuilderB.fetched s) = Some Sample.first_page /\
   le (BuilderB.resp_offset Sample.first_page) (of_Z 0) = true /\
   BuilderB.previous_disabled s = false /\
   num_eq (BuilderB.offset s) (of_Z 25)).
Proof.
  split.
  - repeat split; reflexivity.
  - cbv zeta. split.
    + cbn [fold_left]. repeat apply BuilderB.reach_step. apply BuilderB.reach_initial.
    + repeat split; reflexivity.
Qed.

(** ** The fetch helper *)

Section FetchHelper.
Context `{Host}.

Lemma NumberToString_of_Z (z : Z) :
  (Z.abs z < 10 ^ 21)%Z -> NumberToString (of_Z z) = string_of_Z z.
Proof.
  intros Hz. unfold NumberToString, of_Z.
  assert (E : Qred (inject_Z z) = inject_Z z).
  { apply Qcanon.Qred_identity. simpl. apply Z.gcd_1_r. }
  rewrite E. simpl Qden. simpl Qnum. rewrite Pos.eqb_refl.
  apply Z.ltb_lt in Hz. rewrite Hz. reflexivity.
Qed.

Lemma ok_iff {J : Type} (r : Response J) :
  ok r = true <-> (200 <= status r /\ status r <= 299)%nat.
Proof.
  unfold ok. rewrite andb_true_iff, !Nat.leb_le. tauto.
Qed.

Lemma status_text (n : nat) :
  (n <= 999)%nat ->
  NumberToString (of_Z (Z.of_nat n)) = string_of_Z (Z.of_nat n).
Proof.
  intros Hn. apply NumberToString_of_Z.
  rewrite Z.abs_eq by lia.
  apply Z.le_lt_trans with 999%Z; [lia | reflexivity].
Qed.

Variable env : option string.

(** C7.  When the request settles with a response: a status outside
    200..299 makes [get] reject with an [Error] whose message ends in the
    status code in decimal, so no value is returned; a status in 200..299
    makes [get] settle exactly as [response.json()] does, and whatever value
    the body parses to is returned as it is, for every expected type [T]. *)
Theorem get_rejects_or_returns_body :
  forall (T : Type) (fetch : string -> Settled (Response T))
         (path : string) (params : option Client.Params) (r : Response T),
    fetch (Client.buildUrl env path params) = Fulfilled r ->
    (((status r < 200)%nat \/ (299 < status r)%nat) ->
     Client.get env fetch path params =
       Rejected (new_Error ("Request failed with status "
                            ++ NumberToString (of_Z (Z.of_nat (status r))))) /\
     ((status r <= 999)%nat ->
      NumberToString (of_Z (Z.of_nat (status r))) = string_of_Z (Z.of_nat (status r))) /\
     (forall v : T, Client.get env fetch path params <> Fulfilled v)) /\
    (((200 <= status r)%nat /\ (status r <= 299)%nat) ->
     Client.get env fetch path params = json r /\
     (forall v : T, json r = Fulfilled v ->
                    Client.get env fetch path params = Fulfilled v)).
Proof.
  intros T fetch path params r Hf.
  unfold Client.get. rewrite Hf. simpl.
  destruct (ok r) eqn:E; simpl.
  - apply ok_iff in E. split; [lia|].
    intros _. split; [reflexivity | intros v Hv; exact Hv].
  - split.
    + intros _. split; [reflexivity|]. split; [apply status_text | discriminate].
    + intros Hok. apply ok_iff in Hok. congruence.
Qed.

End FetchHelper.

Lemma get_rejects_or_returns_body_witness :
  let server_error : Response nat := mkResponse 500 (Fulfilled 0%nat) in
  let found : Response nat := mkResponse 200 (Fulfilled 42%nat) in
  Client.get (H:=Sample.host) None (fun _ => Fulfilled server_error) "/planets" None
    = Rejected (new_Error "Request failed with status 500") /\
  Client.get (H:=Sample.host) None (fun _ => Fulfilled found) "/planets" None
    = Fulfilled 42%nat.
Proof.
  intros server_error found. split.
  - assert (B : (status server_error < 200)%nat \/ (299 < status server_error)%nat)
      by (right; simpl; lia).
    exact (proj1 (proj1 (get_rejects_or_returns_body (H:=Sample.host) None nat
                           (fun _ => Fulfilled server_error) "/planets" None
                           server_error eq_refl) B)).
  - assert (B : (200 <= status found)%nat /\ (status found <= 299)%nat)
      by (simpl; lia).
    exact (proj1 (proj2 (get_rejects_or_returns_body (H:=Sample.host) None nat
                           (fun _ => Fulfilled found) "/planets" None
                           found eq_refl) B)).
Defined.

(** ** [fetchAll] *)

Section FetchAll.
Import BuilderB.
Context `{Host}.

Lemma first_rejection_none (b : Batch) (order : list Which) :
  first_rejection b order = None ->
  forall w, In w order -> rejection b w = None.
Proof.
  induction order as [|w0 order IH]; simpl; intros Hn w Hin; [destruct Hin|].
  destruct (rejection b w0) eqn:E; [discriminate|].
  destruct Hin as [<- | Hin]; [exact E | now apply IH].
Qed.

Lemma first_rejection_some (b : Batch) (order : list Which) (e : Error) :
  first_rejection b order = Some e ->
  exists w, In w order /\ rejection b w = Some e.
Proof.
  induction order as [|w0 order IH]; simpl; intros Hs; [discriminate|].
  destruct (rejection b w0) eqn:E.
  - injection Hs as <-. exists w0. split; [now left | exact E].
  - destruct (IH Hs) as (w & Hin & Hw). exists w. split; [now right | exact Hw].
Qed.

Lemma reason_none {A : Type} (p : Settled A) :
  reason p = None -> exists a, p = Fulfilled a.
Proof. destruct p as [a|e]; simpl; [eauto | discriminate]. Qed.

(** [Promise.all] either fulfils with the three values, all three promises
    having fulfilled, or rejects with the reason of one of them. *)
Lemma Promise_all_cases (b : Batch) :
  (exists p m s,
      planetsPromise b = Fulfilled p /\ methodCountsPromise b = Fulfilled m /\
      statsPromise b = Fulfilled s /\ Promise_all b = Fulfilled (p, m, s)) \/
  (exists w e, rejection b w = Some e /\ Promise_all b = Rejected e).
Proof.
  unfold Promise_all.
  destruct (first_rejection b _) as [e|] eqn:E.
  - right. destruct (first_rejection_some _ _ _ E) as (w & _ & Hw). now exists w, e.
  - left. pose proof (first_rejection_none _ _ E) as Hn.
    destruct (reason_none _ (Hn ThePlanets ltac:(apply in_or_app; right; simpl; tauto)))
      as [p Hp].
    destruct (reason_none _ (Hn TheMethodCounts ltac:(apply in_or_app; right; simpl; tauto)))
      as [m Hm].
    destruct (reason_none _ (Hn TheStats ltac:(apply in_or_app; right; simpl; tauto)))
      as [s Hs].
    exists p, m, s. rewrite Hp, Hm, Hs. simpl. tauto.
Qed.

Lemma Promise_all_fulfilled (b : Batch) p m s :
  planetsPromise b = Fulfilled p -> methodCountsPromise b = Fulfilled m ->
  statsPromise b = Fulfilled s ->
  Promise_all b = Fulfilled (p, m, s).
Proof.
  intros Hp Hm Hs.
  destruct (Promise_all_cases b) as [(p' & m' & s' & Hp' & Hm' & Hs' & Hall)
                                    | (w & e & Hw & _)].
  - congruence.
  - destruct w; simpl in Hw; rewrite ?Hp, ?Hm, ?Hs in Hw; discriminate.
Qed.

Lemma fetch_settle_failure (st : FetchState) (e : Error) :
  err_name e <> "AbortError" ->
  fetch_settle st (Rejected e) = mkFetchState None [] None false (Some (err_message e)).
Proof.
  intros Hn. simpl. apply String.eqb_neq in Hn. now rewrite Hn.
Qed.

Lemma fetch_settle_abort (st : FetchState) (e : Error) :
  err_name e = "AbortError" -> fetch_settle st (Rejected e) = st.
Proof.
  intros Hn. simpl. apply String.eqb_eq in Hn. now rewrite Hn.
Qed.

Lemma checked_resolves {J : Type} (text : string) (f : Settled (Response J)) (body : J) :
  (res <- f ;; checked text res) = Fulfilled body <-> resolves_with f body.
Proof.
  unfold resolves_with, checked. destruct f as [r|e]; simpl.
  - destruct (ok r) eqn:O; simpl.
    + apply ok_iff in O. split.
      * intros J0. exists r. tauto.
      * intros (r' & E & _ & _ & J0). now injection E as <-.
    + split; [discriminate|].
      intros (r' & E & O1 & O2 & _). injection E as <-.
      assert (O' : ok r = true) by (apply ok_iff; tauto). congruence.
  - split; [discriminate | intros (r' & E & _); discriminate].
Qed.

Lemma checked_rejects {J : Type} (text : string) (f : Settled (Response J)) (e : Error) :
  reason (res <- f ;; checked text res) = Some e <->
  (reason f = Some e \/
   (exists r, f = Fulfilled r /\ ((status r < 200)%nat \/ (299 < status r)%nat) /\
              e = new_Error (text ++ NumberToString (of_Z (Z.of_nat (status r))))) \/
   (exists r, f = Fulfilled r /\ (200 <= status r)%nat /\ (status r <= 299)%nat /\
              reason (json r) = Some e)).
Proof.
  unfold checked. destruct f as [r|e0]; simpl.
  - destruct (ok r) eqn:O; simpl.
    + apply ok_iff in O. split.
      * intros J0. right; right. exists r. tauto.
      * intros [E|[(r' & E & B & _)|(r' & E & _ & _ & J0)]]; [discriminate| |].
        -- injection E as <-. lia.
        -- now injection E as <-.
    + assert (B : (status r < 200)%nat \/ (299 < status r)%nat).
      { destruct (Nat.lt_ge_cases (status r) 200) as [L|L]; [now left|].
        destruct (Nat.lt_ge_cases 299 (status r)) as [U|U]; [now right|].
        assert (O' : ok r = true) by (apply ok_iff; tauto). congruence. }
      split.
      * intros E. injection E as <-. right; left. exists r. tauto.
      * intros [E|[(r' & E & _ & ->)|(r' & E & O1 & O2 & _)]]; [discriminate| |].
        -- now injection E as <-.
        -- injection E as <-. lia.
  - split.
    + intros E. now left.
    + intros [E|[(r' & E & _)|(r' & E & _)]]; [exact E | discriminate | discriminate].
Qed.

Lemma failure_by_fields {J : Type} (text : string) (f : Settled (Response J)) (e : Error) :
  (reason f = Some e \/
   (exists r, f = Fulfilled r /\ ((status r < 200)%nat \/ (299 < status r)%nat) /\
              e = new_Error (text ++ NumberToString (of_Z (Z.of_nat (status r))))) \/
   (exists r, f = Fulfilled r /\ (200 <= status r)%nat /\ (status r <= 299)%nat /\
              reason (json r) = Some e))
  <->
  (reason f = Some e \/
   (exists n : nat,
       match f with Fulfilled r => Some (status r) | Rejected _ => None end = Some n /\
       ((n < 200)%nat \/ (299 < n)%nat) /\
       e = new_Error (text ++ NumberToString (of_Z (Z.of_nat n)))) \/
   (exists n : nat,
       match f with Fulfilled r => Some (status r) | Rejected _ => None end = Some n /\
       (200 <= n)%nat /\ (n <= 299)%nat /\
       match f with Fulfilled r => reason (json r) | Rejected _ => None end = Some e)).
Proof.
  destruct f as [r|e0]; split.
  - intros [A|[(r' & E & B & C)|(r' & E & O1 & O2 & C)]].
    + now left.
    + injection E as <-. right; left. exists (status r). auto.
    + injection E as <-. right; right. exists (status r). auto.
  - intros [A|[(n & E & B & C)|(n & E & O1 & O2 & C)]].
    + now left.
    + injection E as <-. right; left. exists r. auto.
    + injection E as <-. right; right. exists r. auto.
  - intros [A|[(r' & E & _)|(r' & E & _)]]; [now left | discriminate | discriminate].
  - intros [A|[(n & E & _)|(n & E & _)]]; [now left | discriminate | discriminate].
Qed.

(** The promise of a request rejects exactly when the request fails. *)
Lemma rejection_fails (b : Batch) (w : Which) (e : Error) :
  rejection b w = Some e <-> fails b w e.
Proof.
  unfold fails.
  destruct w; simpl;
    unfold planetsPromise, methodCountsPromise, statsPromise;
    rewrite checked_rejects; apply failure_by_fields.
Qed.

(** C6.  One run of [fetchAll] on a batch of the three requests, each
    request taken as the network answers it.  When each of the three gets a
    response with a status in 200..299 whose body can be read, the state
    holds the three bodies, not loading and without error.  Whenever the run
    leaves the state not loading, either that happened, or one of the three
    requests failed (by a rejected [fetch], a status outside 200..299 or an
    unreadable body) and the state holds the message of that failure and
    none of the results: no planets, no method counts, no statistics.  When
    a request fails and no failure of the batch is a cancellation, the state
    is that error state, with the message of one of the failures; when one
    request alone fails, with the message of that one, whatever the other
    two brought. *)
Theorem fetchAll_commits_jointly :
  forall (prev : FetchState) (b : Batch),
    (forall p m st,
        resolves_with (planets_fetch b) p ->
        resolves_with (methodCounts_fetch b) m ->
        resolves_with (stats_fetch b) st ->
        fetchAll prev b = mkFetchState (Some p) m (Some st) false None) /\
    (loading (fetchAll prev b) = false ->
        (exists p m st,
            resolves_with (planets_fetch b) p /\
            resolves_with (methodCounts_fetch b) m /\
            resolves_with (stats_fetch b) st /\
            fetchAll prev b = mkFetchState (Some p) m (Some st) false None) \/
        (exists w e,
            fails b w e /\
            fetchAll prev b = mkFetchState None [] None false (Some (err_message e)))) /\
    (forall w e,
        fails b w e ->
        (forall w' e', fails b w' e' -> err_name e' <> "AbortError") ->
        exists w' e',
          fails b w' e' /\
          fetchAll prev b = mkFetchState None [] None false (Some (err_message e'))) /\
    (forall w e,
        fails b w e -> err_name e <> "AbortError" ->
        (forall w' e', fails b w' e' -> w' = w) ->
        fetchAll prev b = mkFetchState None [] None false (Some (err_message e))).
Proof.
  intros prev b. split; [|split; [|split]].
  - intros p m st Hp Hm Hs. unfold fetchAll.
    apply checked_resolves with (text := "Gezegenler getirilemedi: ") in Hp.
    apply checked_resolves with (text := "Yöntem istatistikleri getirilemedi: ") in Hm.
    apply checked_resolves with (text := "İstatistikler getirilemedi: ") in Hs.
    now rewrite (Promise_all_fulfilled b p m st).
  - intros Hl. unfold fetchAll in *.
    destruct (Promise_all_cases b) as [(p & m & st & Hp & Hm & Hs & Hall)
                                      | (w & e & Hw & Hall)].
    + left. exists p, m, st. rewrite Hall.
      apply checked_resolves in Hp, Hm, Hs. simpl. tauto.
    + right. exists w, e. split; [now apply rejection_fails|].
      rewrite Hall in *. simpl in *.
      destruct (String.eqb (err_name e) "AbortError"); [discriminate | reflexivity].
  - intros w e Hw Hnone. unfold fetchAll.
    apply rejection_fails in Hw.
    destruct (Promise_all_cases b) as [(p & m & st & Hp & Hm & Hs & _)
                                      | (w' & e' & Hw' & Hall)].
    + destruct w; simpl in Hw; rewrite ?Hp, ?Hm, ?Hs in Hw; discriminate.
    + exists w', e'. split; [now apply rejection_fails|]. rewrite Hall.
      apply fetch_settle_failure. apply (Hnone w'). now apply rejection_fails.
  - intros w e Hw Hn Hsole. unfold fetchAll.
    apply rejection_fails in Hw.
    destruct (Promise_all_cases b) as [(p & m & st & Hp & Hm & Hs & _)
                                      | (w' & e' & Hw' & Hall)].
    + destruct w; simpl in Hw; rewrite ?Hp, ?Hm, ?Hs in Hw; discriminate.
    + assert (E : w' = w) by (apply (Hsole w' e'); now apply rejection_fails).
      subst w'. rewrite Hall. assert (e' = e) as -> by congruence.
      now apply fetch_settle_failure.
Qed.

(** C8.  When the rejection [fetchAll] catches is an [AbortError], the run
    writes nothing after the update that started it: the state is the one
    that update left, loading and with [error] null, so no error banner is
    shown.  At whatever state of the page the rejection of a cancelled batch
    arrives, handling it leaves every field of the state as it was. *)
Theorem cancellation_writes_no_error :
  forall (prev : FetchState) (b : Batch) (e : Error),
    Promise_all b = Rejected e -> err_name e = "AbortError" ->
    fetchAll prev b = fetch_begin prev /\
    error (fetchAll prev b) = None /\
    error_banner (fetchAll prev b) = None /\
    (forall st : FetchState, fetch_settle st (Rejected e) = st) /\
    (forall s : State, dispatch s (FetchSettles (Rejected e)) = s).
Proof.
  intros prev b e Hall Hn. unfold fetchAll. rewrite Hall.
  rewrite (fetch_settle_abort _ e Hn).
  repeat split.
  - intros st. now apply fetch_settle_abort.
  - intros s. unfold dispatch. rewrite (fetch_settle_abort _ e Hn).
    destruct s; reflexivity.
Qed.

End FetchAll.

Lemma fetchAll_commits_jointly_witness :
  (BuilderB.resolves_with (BuilderB.planets_fetch Sample.all_succeed) Sample.first_page /\
   BuilderB.fails (H:=Sample.host) Sample.counts_fail BuilderB.TheMethodCounts
     (new_Error "Yöntem istatistikleri getirilemedi: 500")) /\
  BuilderB.fetchAll (H:=Sample.host) Sample.showing Sample.all_succeed
    = BuilderB.mkFetchState (Some Sample.first_page) [] (Some Sample.no_stats) false None /\
  BuilderB.fetchAll (H:=Sample.host) Sample.showing Sample.counts_fail
    = BuilderB.mkFetchState None [] None false
        (Some "Yöntem istatistikleri getirilemedi: 500").
Proof.
  assert (R : forall (J : Type) (body : J),
             BuilderB.resolves_with (Sample.succeeds body) body).
  { intros J body. exists (mkResponse 200 (Fulfilled body)).
    repeat split; simpl; lia. }
  assert (F : BuilderB.fails (H:=Sample.host) Sample.counts_fail BuilderB.TheMethodCounts
                (new_Error "Yöntem istatistikleri getirilemedi: 500")).
  { right; left. exists 500%nat. repeat split. right. lia. }
  assert (N : err_name (new_Error "Yöntem istatistikleri getirilemedi: 500")
              <> "AbortError") by discriminate.
  assert (O : forall w' e', BuilderB.fails (H:=Sample.host) Sample.counts_fail w' e' ->
                            w' = BuilderB.TheMethodCounts).
  { intros w' e' [A|[(n & A & B & _)|(n & A & _ & _ & B)]]; destruct w';
      try reflexivity; simpl in *; try discriminate;
      injection A as <-; lia. }
  split; [split; [apply R | exact F]|]. split.
  - exact (proj1 (fetchAll_commits_jointly (H:=Sample.host)
                    Sample.showing Sample.all_succeed)
             Sample.first_page [] Sample.no_stats (R _ _) (R _ _) (R _ _)).
  - exact (proj2 (proj2 (proj2 (fetchAll_commits_jointly (H:=Sample.host)
                                  Sample.showing Sample.counts_fail)))
             BuilderB.TheMethodCounts _ F N O).
Defined.

Lemma cancellation_writes_no_error_witness :
  BuilderB.Promise_all (H:=Sample.host) Sample.cancelled
    = Rejected (mkError "AbortError" "The user aborted a request.") /\
  BuilderB.fetchAll (H:=Sample.host) Sample.showing Sample.cancelled
    = BuilderB.fetch_begin Sample.showing /\
  BuilderB.error_banner (BuilderB.fetchAll (H:=Sample.host) Sample.showing Sample.cancelled)
    = None.
Proof.
  assert (P : BuilderB.Promise_all (H:=Sample.host) Sample.cancelled
              = Rejected (mkError "AbortError" "The user aborted a request."))
    by reflexivity.
  destruct (cancellation_writes_no_error (H:=Sample.host)
              Sample.showing Sample.cancelled _ P eq_refl) as (A & _ & B & _).
  split; [exact P|]. split; [exact A | exact B].
Defined.

(** ** Builder A: the page reset *)

Section PageReset.
Import Client BuilderA.

Lemma same_sym (a b : number) : same a b = same b a.
Proof.
  destruct a as [| | |x], b as [| | |y]; simpl; try reflexivity.
  destruct (Qeq_bool x y) eqn:E, (Qeq_bool y x) eqn:E'; try reflexivity.
  - apply Qeq_bool_iff in E. symmetry in E. apply Qeq_bool_iff in E. congruence.
  - apply Qeq_bool_iff in E'. symmetry in E'. apply Qeq_bool_iff in E'. congruence.
Qed.

Lemma filters_eqb_refl (f : PlanetFilterState) : filters_eqb f f = true.
Proof. unfold filters_eqb. now rewrite !String.eqb_refl. Qed.

Lemma usePlanetList_deps (f : Obj) (h : ListHook) :
  hook_deps (usePlanetList f h) = Some (addr f).
Proof.
  unfold usePlanetList.
  destruct (same (hook_page (commit f h)) (hook_page h)); reflexivity.
Qed.

Lemma dispatch_consistent (s : Page) (e : Event) :
  consistent s -> consistent (dispatch s e).
Proof.
  intros [Hd Hf]. destruct e as [key v| |p|f p]; simpl.
  - split; [apply usePlanetList_deps | simpl; lia].
  - destruct (Nat.eqb (addr (filters s)) 0); [now split|].
    split; [apply usePlanetList_deps | simpl; lia].
  - destruct (same p (hook_page (list_hook s))); [now split|].
    split; [apply usePlanetList_deps | exact Hf].
  - now split.
Qed.

Lemma reachable_consistent (s : Page) : Reachable s -> consistent s.
Proof.
  induction 1 as [|s e _ IH].
  - split; [apply usePlanetList_deps | simpl; lia].
  - now apply dispatch_consistent.
Qed.

Lemma commit_fields (f : Obj) (h : ListHook) :
  hook_page (commit f h) = (if deps_changed h f then of_Z 1 else hook_page h) /\
  hook_deps (commit f h) = Some (addr f) /\
  hook_query (commit f h) = Some (render (value f) h) /\
  hook_requests (commit f h) =
    (if fetches h (render (value f) h)
     then request (render (value f) h) :: hook_requests h
     else hook_requests h) /\
  hook_in_flight (commit f h) =
    (if fetches h (render (value f) h)
     then render (value f) h :: hook_in_flight h
     else hook_in_flight h).
Proof. repeat split. Qed.

(** The fetches one commit starts: none, or one for the filters and the
    page of the render. *)
Lemma commit_started (f : Obj) (h : ListHook) :
  exists news,
    hook_requests (commit f h) = (news ++ hook_requests h)%list /\
    forall r, In r news -> r = mapFiltersToParams (value f) (hook_page h).
Proof.
  destruct (commit_fields f h) as (_ & _ & _ & R & _). rewrite R.
  destruct (fetches h (render (value f) h)).
  - exists [request (render (value f) h)]. split; [reflexivity|].
    intros r [<-|[]]. reflexivity.
  - exists []. split; [reflexivity | intros r []].
Qed.

(** The hook called with a filters object its effect has not seen. *)
Lemma usePlanetList_new_object (f : Obj) (h : ListHook) :
  deps_changed h f = true ->
  on_first_page (value f) (usePlanetList f h) /\
  exists news,
    hook_requests (usePlanetList f h) = (news ++ hook_requests h)%list /\
    forall r, In r news ->
              r = mapFiltersToParams (value f) (hook_page h) \/
              r = mapFiltersToParams (value f) (of_Z 1).
Proof.
  intros Hd. unfold usePlanetList.
  destruct (commit_fields f h) as (P1 & D1 & Q1 & _). rewrite Hd in P1.
  destruct (commit_started f h) as (n1 & R1 & N1).
  remember (commit f h) as h1 eqn:Eh1. clear Eh1.
  destruct (same (hook_page h1) (hook_page h)) eqn:E.
  - split.
    + split; [exact P1|].
      exists (render (value f) h).
      split; [exact Q1|]. split; [reflexivity|].
      split; [cbn [render key_page]; now rewrite same_sym, <- P1 | reflexivity].
    + exists n1. split; [exact R1|]. intros r Hr. left. now apply N1.
  - destruct (commit_fields f h1) as (P2 & D2 & Q2 & _).
    destruct (commit_started f h1) as (n2 & R2 & N2).
    assert (D : deps_changed h1 f = false)
      by (unfold deps_changed; rewrite D1; now rewrite Nat.eqb_refl).
    rewrite D in P2.
    split.
    + split; [now rewrite P2|].
      exists (render (value f) h1).
      split; [exact Q2|]. split; [reflexivity|].
      split; [cbn [render key_page]; rewrite P1; reflexivity | reflexivity].
    + exists (n2 ++ n1)%list. split; [now rewrite R2, R1, app_assoc|].
      intros r Hr. apply in_app_or in Hr as [Hr|Hr].
      * right. rewrite <- P1. now apply N2.
      * left. now apply N1.
Qed.

(** C4, as the hook has it.  On a reachable page, an update of any field of
    the filter state, and a reset of filters that are not the default object,
    give the hook a new filters object; after the renders this causes the
    page state of the hook is 1, and the query its observer is on has the
    new filters and page 1 in the key and in the request parameters.  The
    fetches started on the way are for the new filters, each for the page
    the hook was on or for page 1: the first render after the change still
    has the old page. *)
Theorem filter_change_resets_page :
  forall (s : Page),
    Reachable s ->
    (forall (key : FilterKey) (v : string),
        let s' := dispatch s (UpdateFilter key v) in
        value (filters s') = with_field (value (filters s)) key v /\
        on_first_page (value (filters s')) (list_hook s') /\
        exists news,
          hook_requests (list_hook s') = (news ++ hook_requests (list_hook s))%list /\
          forall r, In r news ->
                    r = mapFiltersToParams (value (filters s')) (hook_page (list_hook s)) \/
                    r = mapFiltersToParams (value (filters s')) (of_Z 1)) /\
    (addr (filters s) <> addr defaultState_obj ->
        let s' := dispatch s ResetFilters in
        value (filters s') = defaultState /\
        on_first_page defaultState (list_hook s') /\
        exists news,
          hook_requests (list_hook s') = (news ++ hook_requests (list_hook s))%list /\
          forall r, In r news ->
                    r = mapFiltersToParams defaultState (hook_page (list_hook s)) \/
                    r = mapFiltersToParams defaultState (of_Z 1)).
Proof.
  intros s Hr. destruct (reachable_consistent s Hr) as [Hd Hf]. split.
  - intros key v s'. split; [reflexivity|].
    subst s'. cbn [dispatch list_hook filters value].
    apply (usePlanetList_new_object
             (mkObj (fresh s) (with_field (value (filters s)) key v))).
    unfold deps_changed. rewrite Hd. cbn [addr].
    apply negb_true_iff, Nat.eqb_neq. lia.
  - intros Hne s'. subst s'. cbn [dispatch].
    apply Nat.eqb_neq in Hne. rewrite Hne. cbn [list_hook filters value].
    split; [reflexivity|].
    apply (usePlanetList_new_object defaultState_obj).
    unfold deps_changed. rewrite Hd. now rewrite Hne.
Qed.

End PageReset.

Lemma filter_change_resets_page_witness :
  let s := BuilderA.run [BuilderA.SetPage (of_Z 2)] in
  let s' := BuilderA.dispatch s (BuilderA.UpdateFilter BuilderA.Ksearch "kepler") in
  BuilderA.Reachable s /\
  BuilderA.hook_page (BuilderA.list_hook s) = of_Z 2 /\
  BuilderA.on_first_page (BuilderA.value (BuilderA.filters s')) (BuilderA.list_hook s').
Proof.
  intros s s'.
  assert (R : BuilderA.Reachable s).
  { subst s. unfold BuilderA.run. cbn [fold_left].
    apply BuilderA.reach_step, BuilderA.reach_mount. }
  split; [exact R|]. split; [reflexivity|].
  exact (proj1 (proj2 (proj1 (filter_change_resets_page s R) BuilderA.Ksearch "kepler"))).
Defined.

(** C4, as stated, fails: after one click on Next the hook is on page 2, and
    a change of the search field then starts two fetches; the one that
    follows the change is for the new filters with page 2, and the one for
    page 1 comes after it. *)
Lemma filter_change_counterexample :
  let s := BuilderA.run [BuilderA.SetPage (of_Z 2)] in
  let s' := BuilderA.dispatch s (BuilderA.UpdateFilter BuilderA.Ksearch "kepler") in
  let f' := BuilderA.with_field BuilderA.defaultState BuilderA.Ksearch "kepler" in
  BuilderA.Reachable s /\
  BuilderA.hook_requests (BuilderA.list_hook s')
    = BuilderA.mapFiltersToParams f' (of_Z 1)
      :: BuilderA.mapFiltersToParams f' (of_Z 2)
      :: BuilderA.hook_requests (BuilderA.list_hook s) /\
  In ("page", Client.PNumber (of_Z 2)) (BuilderA.mapFiltersToParams f' (of_Z 2)) /\
  ~ In ("page", Client.PNumber (of_Z 1)) (BuilderA.mapFiltersToParams f' (of_Z 2)).
Proof.
  cbv zeta. split; [|split; [reflexivity|split; [simpl; tauto|]]].
  - unfold BuilderA.run. cbn [fold_left].
    apply BuilderA.reach_step, BuilderA.reach_mount.
  - simpl. intuition discriminate.
Qed.

(** ** Null measurements in the tables *)

Section NullCells.
Context `{Host}.

(** C10, as the tables have it.  Builder A: a column whose nullable numeric
    field (discovery year, orbital period, radius, mass) is null shows the
    dash [—].  Builder B: [formatNumber] of null is [-] for every number of
    digits, so each of the six columns printed through it (orbital period,
    radius, mass, stellar temperature, radius and mass) shows [-] for a null
    field.  In neither table does the cell of a null field read [0] or
    [NaN]. *)
Theorem null_measurement_cells :
  (forall (planet : BuilderA.PlanetSummary) (c : BuilderA.Column),
      BuilderA.measurement planet c = Some None ->
      BuilderA.cell planet c = "—" /\
      BuilderA.cell planet c <> "0" /\ BuilderA.cell planet c <> "NaN") /\
  (forall fractionDigits : nat, BuilderB.formatNumber None fractionDigits = "-") /\
  (forall (planet : BuilderB.Planet) (c : BuilderB.Column),
      BuilderB.measurement planet c = Some None ->
      (c <> BuilderB.ColYear -> BuilderB.cell planet c = "-") /\
      BuilderB.cell planet c <> "0" /\ BuilderB.cell planet c <> "NaN").
Proof.
  split; [|split].
  - intros planet c Hm.
    destruct c; simpl in Hm; try discriminate; injection Hm as Hm;
      unfold BuilderA.cell, BuilderA.year_cell, BuilderA.fixed_cell;
      rewrite Hm; repeat split; discriminate.
  - reflexivity.
  - intros planet c Hm.
    destruct c; simpl in Hm; try discriminate; injection Hm as Hm;
      unfold BuilderB.cell, BuilderB.child_text, BuilderB.formatNumber2,
        BuilderB.formatNumber;
      rewrite Hm; repeat split; try discriminate; try reflexivity;
      intros E; congruence.
Qed.

End NullCells.

Lemma null_measurement_cells_witness :
  BuilderB.measurement Sample.bare_planet BuilderB.ColRade = Some None /\
  BuilderB.cell (H:=Sample.host) Sample.bare_planet BuilderB.ColRade = "-" /\
  BuilderB.cell (H:=Sample.host) Sample.bare_planet BuilderB.ColRade <> "0".
Proof.
  assert (M : BuilderB.measurement Sample.bare_planet BuilderB.ColRade = Some None)
    by reflexivity.
  destruct (proj2 (proj2 (null_measurement_cells (H:=Sample.host)))
              Sample.bare_planet BuilderB.ColRade M) as (A & B & _).
  split; [exact M|]. split; [apply A; discriminate | exact B].
Defined.

(** C10, as stated, fails for the discovery year of Builder B: the row of a
    planet whose [disc_year] is null shows no text in that cell, not the
    placeholder [-] that [formatNumber] gives the neighbouring cells. *)
Lemma null_measurement_cells_counterexample :
  BuilderB.measurement Sample.bare_planet BuilderB.ColYear = Some None /\
  BuilderB.cell (H:=Sample.host) Sample.bare_planet BuilderB.ColYear = "" /\
  BuilderB.cell (H:=Sample.host) Sample.bare_planet BuilderB.ColYear <> BuilderB.dash /\
  BuilderB.row (H:=Sample.host) Sample.bare_planet
    = ["7"; "Kepler-22 b"; "Transit"; ""; "-"; "-"; "-"; "-"; "-"; "-"].
Proof.
  repeat split; try reflexivity. discriminate.
Qed.

(* ================================================================== *)
(** * Further properties *)
(* ================================================================== *)

(** ** Builder B: moving between pages *)

Section Paging.
Import BuilderB.
Context `{Host}.

Lemma add_whole (x : number) (a b : Z) :
  num_eq x (of_Z a) -> num_eq (add x (of_Z b)) (of_Z (a + b)).
Proof.
  intros Hx. apply num_eq_of_Z in Hx as (q & -> & Eq).
  unfold of_Z, num_eq. cbn [add]. now rewrite Eq, inject_Z_plus.
Qed.

Lemma sub_whole (x : number) (a b : Z) :
  num_eq x (of_Z a) -> num_eq (sub x (of_Z b)) (of_Z (a - b)).
Proof.
  intros Hx. apply num_eq_of_Z in Hx as (q & -> & Eq).
  unfold of_Z, num_eq. cbn [sub neg add]. unfold Z.sub.
  now rewrite Eq, inject_Z_plus, inject_Z_opp.
Qed.

(** [goToPage] with a whole page number and a whole limit. *)
Lemma goToPage_whole (s : State) (page : number) (z l : Z) :
  num_eq (limit s) (of_Z l) -> num_eq page (of_Z z) -> (1 <= l)%Z ->
  num_eq (offset (goToPage s page)) (of_Z ((Z.max 1 z - 1) * l)) /\
  num_eq (currentPage (goToPage s page)) (of_Z (Z.max 1 z)).
Proof.
  intros Hl Hp L.
  pose proof Hl as Hl'.
  apply num_eq_of_Z in Hl' as (lq & Hlq & El), Hp as (p & -> & Ep).
  destruct (goToPage_offset s lq p Hlq) as (sp & _ & S1 & S2 & S3 & Hoff & _).
  assert (Esp : sp == inject_Z (Z.max 1 z)).
  { destruct (Z.le_ge_cases z 1) as [C|C].
    - rewrite Z.max_l by exact C. apply S2. rewrite Ep.
      change 1 with (inject_Z 1). now rewrite <- Zle_Qle.
    - rewrite Z.max_r by exact C. rewrite <- Ep. apply S3. rewrite Ep.
      change 1 with (inject_Z 1). now rewrite <- Zle_Qle. }
  assert (O : num_eq (offset (goToPage s (Fin p))) (of_Z ((Z.max 1 z - 1) * l))).
  { rewrite Hoff. unfold of_Z, num_eq.
    rewrite inject_Z_mult. unfold Z.sub.
    now rewrite inject_Z_plus, inject_Z_opp, Esp, El. }
  split; [exact O|].
  pose proof (currentPage_whole (goToPage s (Fin p)) _ l O Hl L) as C.
  rewrite Z.div_mul in C by lia.
  replace (Z.max 1 z - 1 + 1)%Z with (Z.max 1 z) in C by lia.
  exact C.
Qed.

(** X1.  For a whole limit of at least 1, asking [goToPage] for a whole
    page number and reading the page shown afterwards gives the number back
    when it is at least 1, and page 1 with offset 0 otherwise; the offset is
    (page - 1) * limit and the limit is unchanged.  (The numbers stay within
    [MAX_SAFE_INTEGER], where the double product is exact and the floor of
    the double quotient is that of the exact one.) *)
Theorem goToPage_then_currentPage :
  forall (s : State) (page : number) (z l : Z),
    num_eq (limit s) (of_Z l) -> num_eq page (of_Z z) ->
    (1 <= l)%Z -> (Z.max 1 z * l <= MAX_SAFE_INTEGER)%Z ->
    limit (goToPage s page) = limit s /\
    num_eq (offset (goToPage s page)) (of_Z ((Z.max 1 z - 1) * l)) /\
    num_eq (currentPage (goToPage s page)) (of_Z (Z.max 1 z)) /\
    ((1 <= z)%Z -> num_eq (currentPage (goToPage s page)) (of_Z z)) /\
    ((z <= 1)%Z ->
     num_eq (currentPage (goToPage s page)) (of_Z 1) /\
     num_eq (offset (goToPage s page)) (of_Z 0)).
Proof.
  intros s page z l Hl Hp L _.
  destruct (goToPage_whole s page z l Hl Hp L) as [O C].
  split; [reflexivity|]. split; [exact O|]. split; [exact C|]. split.
  - intros Z1. now rewrite Z.max_r in C by exact Z1.
  - intros Z1. rewrite Z.max_l in C, O by exact Z1. split; [exact C|].
    now replace ((1 - 1) * l)%Z with 0%Z in O by lia.
Qed.

(** X2.  In a state with a whole offset of at least 0 and a whole limit of
    at least 1, with [cp] the page shown: a click on an enabled Next shows
    page cp + 1, a click on an enabled Previous shows page cp - 1 or stays
    on page 1, and either leaves the limit unchanged and an offset of
    (new page - 1) * limit; a click on a disabled button changes nothing.
    (The numbers stay within [MAX_SAFE_INTEGER].) *)
Theorem paging_buttons_step :
  forall (s : State) (o l : Z),
    num_eq (offset s) (of_Z o) -> num_eq (limit s) (of_Z l) ->
    (0 <= o)%Z -> (1 <= l)%Z -> (o + 2 * l <= MAX_SAFE_INTEGER)%Z ->
    let cp := (o / l + 1)%Z in
    (1 <= cp)%Z /\
    num_eq (currentPage s) (of_Z cp) /\
    (canGoNext s = true ->
     num_eq (currentPage (dispatch s ClickNext)) (of_Z (cp + 1)) /\
     num_eq (offset (dispatch s ClickNext)) (of_Z (cp * l)) /\
     limit (dispatch s ClickNext) = limit s) /\
    (canGoPrev s = true ->
     num_eq (currentPage (dispatch s ClickPrevious)) (of_Z (Z.max 1 (cp - 1))) /\
     num_eq (offset (dispatch s ClickPrevious)) (of_Z ((Z.max 1 (cp - 1) - 1) * l)) /\
     limit (dispatch s ClickPrevious) = limit s) /\
    (canGoNext s = false -> dispatch s ClickNext = s) /\
    (canGoPrev s = false -> dispatch s ClickPrevious = s).
Proof.
  intros s o l Ho Hl O L _ cp.
  assert (C1 : (1 <= cp)%Z).
  { subst cp. pose proof (Z.div_pos o l O ltac:(lia)). lia. }
  pose proof (currentPage_whole s o l Ho Hl L) as Hc. fold cp in Hc.
  split; [exact C1|]. split; [exact Hc|].
  split; [|split; [|split]].
  - intros E. cbn [dispatch]. rewrite E.
    destruct (goToPage_whole s (add (currentPage s) (of_Z 1)) (cp + 1) l Hl
                (add_whole _ cp 1 Hc) L) as [O' C'].
    rewrite Z.max_r in O', C' by lia.
    split; [exact C'|]. split; [|reflexivity].
    now replace (cp + 1 - 1)%Z with cp in O' by lia.
  - intros E. cbn [dispatch]. rewrite E.
    destruct (goToPage_whole s (sub (currentPage s) (of_Z 1)) (cp - 1) l Hl
                (sub_whole _ cp 1 Hc) L) as [O' C'].
    split; [exact C'|]. split; [exact O' | reflexivity].
  - intros E. cbn [dispatch]. now rewrite E.
  - intros E. cbn [dispatch]. now rewrite E.
Qed.

End Paging.

Lemma goToPage_then_currentPage_witness :
  let s := BuilderB.initial None in
  (num_eq (BuilderB.limit s) (of_Z 25) /\ (1 <= 25)%Z /\
   (Z.max 1 4 * 25 <= MAX_SAFE_INTEGER)%Z) /\
  num_eq (BuilderB.currentPage (BuilderB.goToPage s (of_Z 4))) (of_Z 4) /\
  num_eq (BuilderB.offset (BuilderB.goToPage s (of_Z 4))) (of_Z 75) /\
  num_eq (BuilderB.offset (BuilderB.goToPage s (of_Z (-3)))) (of_Z 0).
Proof.
  intros s.
  assert (Hl : num_eq (BuilderB.limit s) (of_Z 25)) by reflexivity.
  assert (L : (1 <= 25)%Z) by lia.
  assert (M : (Z.max 1 4 * 25 <= MAX_SAFE_INTEGER)%Z) by (unfold MAX_SAFE_INTEGER; lia).
  assert (M' : (Z.max 1 (-3) * 25 <= MAX_SAFE_INTEGER)%Z)
    by (unfold MAX_SAFE_INTEGER; lia).
  destruct (goToPage_then_currentPage s (of_Z 4) 4 25 Hl (num_eq_refl _) L M)
    as (_ & A & _ & B & _).
  destruct (goToPage_then_currentPage s (of_Z (-3)) (-3) 25 Hl (num_eq_refl _) L M')
    as (_ & _ & _ & _ & C).
  split; [repeat split; assumption|].
  split; [apply B; lia|]. split; [exact A|]. apply C. lia.
Defined.

Lemma paging_buttons_step_witness :
  let s := BuilderB.set_fetched (BuilderB.goToPage (BuilderB.initial None) (of_Z 2))
             Sample.showing in
  ((0 <= 25)%Z /\ (1 <= 25)%Z /\ (25 + 2 * 25 <= MAX_SAFE_INTEGER)%Z) /\
  (BuilderB.canGoNext s = true /\ BuilderB.canGoPrev s = true) /\
  num_eq (BuilderB.currentPage s) (of_Z 2) /\
  num_eq (BuilderB.currentPage (BuilderB.dispatch (H:=Sample.host) s BuilderB.ClickNext))
         (of_Z 3) /\
  num_eq (BuilderB.offset (BuilderB.dispatch (H:=Sample.host) s BuilderB.ClickNext))
         (of_Z 50) /\
  num_eq (BuilderB.currentPage (BuilderB.dispatch (H:=Sample.host) s BuilderB.ClickPrevious))
         (of_Z 1).
Proof.
  intros s.
  assert (Ho : num_eq (BuilderB.offset s) (of_Z 25)) by reflexivity.
  assert (Hl : num_eq (BuilderB.limit s) (of_Z 25)) by reflexivity.
  assert (M : (0 <= 25)%Z /\ (1 <= 25)%Z /\ (25 + 2 * 25 <= MAX_SAFE_INTEGER)%Z)
    by (unfold MAX_SAFE_INTEGER; lia).
  destruct (paging_buttons_step (H:=Sample.host) s 25 25 Ho Hl
              (proj1 M) (proj1 (proj2 M)) (proj2 (proj2 M)))
    as (_ & C & N & P & _).
  split; [exact M|]. split; [split; reflexivity|].
  split; [exact C|].
  destruct (N eq_refl) as (N1 & N2 & _). destruct (P eq_refl) as (P1 & _).
  split; [exact N1|]. split; [exact N2 | exact P1].
Defined.

(** ** Builder B: the last page, and the actions that go back to the first *)

Section FirstAndLast.
Import BuilderB.
Context `{Host}.



(** X4.  Three actions go back to the first page.  The page-size input
    leaves offset 0 and page 1 whatever it reads; the reset button leaves
    the default filters in the form and in the query, limit 25, offset 0
    and page 1, and keeps the fetched data; a submit while nothing is
    loading copies the form into the query and leaves offset 0, and page 1
    when the limit is above 0; a submit while loading changes nothing. *)
Theorem back_to_first_page :
  (forall (s : State) (v : string),
      offset (limit_input s v) = of_Z 0 /\
      num_eq (currentPage (limit_input s v)) (of_Z 1) /\
      filters (limit_input s v) = filters s /\
      appliedFilters (limit_input s v) = appliedFilters s) /\
  (forall (s : State),
      dispatch s ClickReset =
        mkState (baseUrl s) DEFAULT_FILTERS DEFAULT_FILTERS (of_Z 25) (of_Z 0) (fetched s) /\
      num_eq (currentPage (dispatch s ClickReset)) (of_Z 1)) /\
  (forall (s : State) (l : Q),
      limit s = Fin l -> 0 < l ->
      (loading (fetched s) = false ->
       appliedFilters (dispatch s Submit) = filters s /\
       filters (dispatch s Submit) = filters s /\
       limit (dispatch s Submit) = limit s /\
       offset (dispatch s Submit) = of_Z 0 /\
       num_eq (currentPage (dispatch s Submit)) (of_Z 1)) /\
      (loading (fetched s) = true -> dispatch s Submit = s)).
Proof.
  split; [|split].
  - intros s v.
    destruct (limit_input_clamps s v) as (l' & Hl' & B1 & B2 & Ho').
    split; [exact Ho'|]. split; [|split; reflexivity].
    apply (currentPage_aligned _ 0 0 l' Ho' Hl'); [lra | ring].
  - intros s. split; [reflexivity|].
    apply (currentPage_aligned _ 0 0 25); try reflexivity.
  - intros s l Hl L. split.
    + intros E. cbn [dispatch]. rewrite E.
      repeat split.
      apply (currentPage_aligned _ 0 0 l); try reflexivity; try assumption; ring.
    + intros E. cbn [dispatch]. now rewrite E.
Qed.

End FirstAndLast.


Lemma back_to_first_page_witness :
  let s := BuilderB.goToPage (BuilderB.initial None) (of_Z 3) in
  (BuilderB.limit s = Fin 25 /\ 0 < 25 /\ BuilderB.loading (BuilderB.fetched s) = false) /\
  num_eq (BuilderB.offset s) (of_Z 50) /\
  BuilderB.offset (BuilderB.dispatch (H:=Sample.host) s BuilderB.Submit) = of_Z 0 /\
  num_eq (BuilderB.currentPage (BuilderB.dispatch (H:=Sample.host) s BuilderB.Submit)) (of_Z 1).
Proof.
  intros s.
  assert (L : 0 < 25) by reflexivity.
  split; [repeat split; try reflexivity; exact L|].
  split; [reflexivity|].
  destruct (proj1 (proj2 (proj2 (back_to_first_page (H:=Sample.host))) s 25 eq_refl L)
              eq_refl) as (_ & _ & _ & A & B).
  split; [exact A | exact B].
Defined.

(** ** Builder B: the query and its preview *)

Section QueryAndPreview.
Import BuilderB.
Context `{Host}.

Lemma usp_delete_keys (k k' : string) (sp : SearchParams) :
  In k' (usp_keys (usp_delete k sp)) <-> In k' (usp_keys sp) /\ k' <> k.
Proof.
  unfold usp_keys, usp_delete. rewrite !in_map_iff. split.
  - intros (p & E & Hin). apply filter_In in Hin as [Hin Hn].
    apply negb_true_iff, named_false in Hn.
    split; [exists p; tauto | congruence].
  - intros [(p & E & Hin) Hne]. exists p. split; [exact E|].
    apply filter_In. split; [exact Hin|].
    apply negb_true_iff, named_false. congruence.
Qed.

Lemma usp_delete_NoDup (k : string) (sp : SearchParams) :
  NoDup (usp_keys sp) -> NoDup (usp_keys (usp_delete k sp)).
Proof.
  unfold usp_keys, usp_delete.
  induction sp as [|p sp IH]; simpl; intros Hnd; [constructor|].
  inversion Hnd as [|? ? Hnotin Hnd']; subst.
  destruct (negb (named k p)); simpl; [|now apply IH].
  constructor; [|now apply IH].
  intro Hin. apply Hnotin.
  apply in_map_iff in Hin as (p' & E & Hin).
  apply filter_In in Hin as [Hin _]. rewrite <- E. now apply in_map.
Qed.

Lemma usp_set_keys (k v k' : string) (sp : SearchParams) :
  In k' (usp_keys (usp_set k v sp)) <-> k' = k \/ In k' (usp_keys sp).
Proof.
  induction sp as [|p sp IH]; simpl.
  - intuition congruence.
  - destruct (named k p) eqn:E; simpl.
    + apply named_true in E.
      pose proof (usp_delete_keys k k' sp) as D. unfold usp_keys in D.
      rewrite D. destruct (string_dec k' k) as [->|Hne]; intuition congruence.
    + unfold usp_keys in IH. rewrite IH. tauto.
Qed.

Lemma usp_set_NoDup (k v : string) (sp : SearchParams) :
  NoDup (usp_keys sp) -> NoDup (usp_keys (usp_set k v sp)).
Proof.
  induction sp as [|p sp IH]; simpl; intros Hnd.
  - constructor; [intros [] | constructor].
  - inversion Hnd as [|? ? Hnotin Hnd']; subst.
    destruct (named k p) eqn:E; simpl.
    + constructor.
      * intro Hin. apply (usp_delete_keys k k sp) in Hin. tauto.
      * now apply usp_delete_NoDup.
    + constructor; [|now apply IH].
      intro Hin. apply (usp_set_keys k v (fst p) sp) in Hin.
      apply named_false in E. destruct Hin as [Hin|Hin]; [congruence | now apply Hnotin].
Qed.

Lemma fold_numeric_keys (source : Filters) (l : list (TextKey * string))
    (q0 : SearchParams) :
  (NoDup (usp_keys q0) -> NoDup (usp_keys (fold_left (set_numeric source) l q0))) /\
  (forall k, In k (usp_keys (fold_left (set_numeric source) l q0)) ->
             In k (usp_keys q0) \/ In k (map snd l)).
Proof.
  revert q0. induction l as [|e l IH]; intros q0; simpl; [tauto|].
  destruct (IH (set_numeric source q0 e)) as [IH1 IH2].
  unfold set_numeric in *.
  destruct (numericOrUndefined (text source (fst e))).
  - split.
    + intros Hnd. now apply IH1, usp_set_NoDup.
    + intros k Hk. destruct (IH2 k Hk) as [Hin|Hin]; [|tauto].
      apply usp_set_keys in Hin. intuition.
  - split; [exact IH1|]. intros k Hk. destruct (IH2 k Hk); tauto.
Qed.

Lemma base_params_keys (limit : number) (source : Filters) (useOffset : number) :
  NoDup (usp_keys (base_params limit source useOffset)) /\
  (forall k, In k (usp_keys (base_params limit source useOffset)) -> In k base_names).
Proof.
  unfold base_params. split.
  - repeat match goal with
           | |- NoDup (usp_keys (usp_set _ _ _)) => apply usp_set_NoDup
           | |- NoDup (usp_keys (if ?c then _ else _)) => destruct c
           end; constructor.
  - intros k.
    destruct (include_deleted source),
      (nonempty (trim (text source K_disc_method))),
      (nonempty (trim (text source K_name)));
      rewrite ?usp_set_keys; simpl; intuition.
Qed.

Ltac read_base :=
  repeat first [ rewrite usp_getAll_set_same
               | rewrite usp_getAll_set_other by discriminate ];
  try reflexivity.

Lemma base_params_get (limit : number) (source : Filters) (useOffset : number) :
  let q := base_params limit source useOffset in
  usp_getAll "limit" q = [NumberToString limit] /\
  usp_getAll "offset" q = [NumberToString useOffset] /\
  usp_getAll "name" q =
    (if nonempty (trim (text source K_name)) then [trim (text source K_name)] else []) /\
  usp_getAll "disc_method" q =
    (if nonempty (trim (text source K_disc_method))
     then [trim (text source K_disc_method)] else []) /\
  usp_getAll "include_deleted" q = (if include_deleted source then ["true"] else []) /\
  usp_getAll "sort_by" q = [text source K_sort_by] /\
  usp_getAll "sort_order" q = [text source K_sort_order].
Proof.
  unfold base_params.
  destruct (include_deleted source),
    (nonempty (trim (text source K_disc_method))),
    (nonempty (trim (text source K_name)));
    cbv zeta; repeat split; read_base.
Qed.

Lemma buildParams_base_name (limit : number) (source : Filters) (useOffset : number)
    (p : string) :
  In p base_names ->
  usp_getAll p (buildParams limit source useOffset) =
  usp_getAll p (base_params limit source useOffset).
Proof.
  intros Hp. unfold buildParams. apply fold_numeric_other.
  intros [key param] Hin E. simpl in E. subst param.
  now apply (numeric_names_fresh key p).
Qed.

(** X5.  For every limit, filter state and offset, the query built by
    [buildParams] names each parameter at most once, and only the seven
    base names and the fourteen numeric ones.  [limit], [offset], [sort_by]
    and [sort_order] are always there, with the values given; [name] and
    [disc_method] are there exactly when the field is not blank, with the
    trimmed text; [include_deleted] is there, as [true], exactly when the
    flag is set. *)
Theorem buildParams_base_parameters :
  forall (limit : number) (source : Filters) (useOffset : number),
    let q := buildParams limit source useOffset in
    usp_getAll "limit" q = [NumberToString limit] /\
    usp_getAll "offset" q = [NumberToString useOffset] /\
    usp_getAll "name" q =
      (if nonempty (trim (text source K_name)) then [trim (text source K_name)] else []) /\
    usp_getAll "disc_method" q =
      (if nonempty (trim (text source K_disc_method))
       then [trim (text source K_disc_method)] else []) /\
    usp_getAll "include_deleted" q = (if include_deleted source then ["true"] else []) /\
    usp_getAll "sort_by" q = [text source K_sort_by] /\
    usp_getAll "sort_order" q = [text source K_sort_order] /\
    NoDup (usp_keys q) /\
    (forall k, In k (usp_keys q) -> In k base_names \/ In k (map snd numericFilters)).
Proof.
  intros limit source useOffset q. subst q.
  pose proof (base_params_get limit source useOffset) as (G1 & G2 & G3 & G4 & G5 & G6 & G7).
  rewrite !buildParams_base_name by (simpl; tauto).
  split; [exact G1|]. split; [exact G2|]. split; [exact G3|]. split; [exact G4|].
  split; [exact G5|]. split; [exact G6|]. split; [exact G7|]. split.
  - unfold buildParams. apply fold_numeric_keys, base_params_keys.
  - intros k Hk. unfold buildParams in Hk.
    apply fold_numeric_keys in Hk. destruct Hk as [Hk|Hk]; [|now right].
    left. now apply (base_params_keys limit source useOffset).
Qed.

(** Apart from [limit] and [offset], the query depends on the filters
    only. *)
Lemma buildParams_other_names (l l' : number) (source : Filters) (o o' : number)
    (k : string) :
  k <> "limit" -> k <> "offset" ->
  usp_getAll k (buildParams l source o) = usp_getAll k (buildParams l' source o').
Proof.
  intros Kl Ko.
  destruct (in_dec string_dec k base_names) as [Hb|Hb].
  - rewrite !buildParams_base_name by exact Hb.
    pose proof (base_params_get l source o) as (_ & _ & G3 & G4 & G5 & G6 & G7).
    pose proof (base_params_get l' source o') as (_ & _ & G3' & G4' & G5' & G6' & G7').
    simpl in Hb.
    destruct Hb as [<-|[<-|[<-|[<-|[<-|[<-|[<-|[]]]]]]]]; congruence.
  - destruct (in_dec string_dec k (map snd numericFilters)) as [Hn|Hn].
    + apply in_map_iff in Hn as ([key param] & E & Hin). simpl in E. subst param.
      unfold buildParams.
      rewrite !(fold_numeric_member source numericFilters key k _
                  numericFilters_names_distinct Hin).
      destruct (numericOrUndefined (text source key)); [reflexivity|].
      now rewrite !base_params_other.
    + unfold buildParams.
      rewrite !fold_numeric_other
        by (intros e He E; apply Hn; rewrite <- E; now apply in_map).
      now rewrite !base_params_other.
Qed.

(** X6.  The query of the planets request after each event of the page.
    Editing a field of the form, the check box or the base URL, and the
    start and the end of a fetch leave it as it was.  A submit while nothing
    is loading makes it the query the preview showed, which has offset 0 and
    the filters of the form.  The reset button makes it the query of the
    default filters with limit 25 and offset 0.  The page-size input sets
    [limit] to the new limit and [offset] to 0 and leaves every other
    parameter as it was.  The paging buttons and the go-to-page input set
    [offset] to the new offset and leave every other parameter as it
    was. *)
Theorem query_after_event :
  forall (s : State) (e : Event),
    let s' := dispatch s e in
    usp_getAll "offset" (previewParams s) = ["0"] /\
    match e with
    | BaseUrlInput _ | ChangeText _ _ | ChangeIncludeDeleted _
    | FetchBegins | FetchSettles _ =>
        queryParams s' = queryParams s
    | Submit =>
        queryParams s' = (if loading (fetched s) then queryParams s else previewParams s)
    | ClickReset =>
        queryParams s' = buildParams (of_Z 25) DEFAULT_FILTERS (of_Z 0)
    | LimitInput _ =>
        usp_getAll "limit" (queryParams s') = [NumberToString (limit s')] /\
        usp_getAll "offset" (queryParams s') = ["0"] /\
        (forall k, k <> "limit" -> k <> "offset" ->
                   usp_getAll k (queryParams s') = usp_getAll k (queryParams s))
    | ClickPrevious | ClickNext | PageInput _ =>
        limit s' = limit s /\
        usp_getAll "offset" (queryParams s') = [NumberToString (offset s')] /\
        (forall k, k <> "offset" ->
                   usp_getAll k (queryParams s') = usp_getAll k (queryParams s))
    end.
Proof.
  intros s e s'.
  assert (Off : forall l f o, usp_getAll "offset" (buildParams l f o) = [NumberToString o]).
  { intros l f o. rewrite buildParams_base_name by (simpl; tauto).
    apply (proj1 (proj2 (base_params_get l f o))). }
  assert (Lim : forall l f o, usp_getAll "limit" (buildParams l f o) = [NumberToString l]).
  { intros l f o. rewrite buildParams_base_name by (simpl; tauto).
    apply (proj1 (base_params_get l f o)). }
  assert (Paging : forall t : State,
             limit t = limit s -> appliedFilters t = appliedFilters s ->
             limit t = limit s /\
             usp_getAll "offset" (queryParams t) = [NumberToString (offset t)] /\
             (forall k, k <> "offset" ->
                        usp_getAll k (queryParams t) = usp_getAll k (queryParams s))).
  { intros t El Ef. split; [exact El|]. split; [apply Off|].
    intros k Ko. unfold queryParams. rewrite El, Ef.
    destruct (string_dec k "limit") as [->|Kl]; [now rewrite !Lim|].
    now apply buildParams_other_names. }
  split; [apply Off|].
  destruct e; subst s'; cbn [dispatch]; try reflexivity.
  - now destruct (loading (fetched s)).
  - destruct (canGoPrev s); now apply Paging.
  - destruct (canGoNext s); now apply Paging.
  - unfold page_input. destruct (isFinite (parseNumber v)); now apply Paging.
  - split; [apply Lim|]. split; [apply Off|].
    intros k Kl Ko. now apply buildParams_other_names.
Qed.

End QueryAndPreview.

Lemma query_after_event_witness :
  let s := BuilderB.set_fetched
             (BuilderB.handleSubmit
                (BuilderB.set_filters (BuilderB.initial None)
                   (BuilderB.with_text BuilderB.DEFAULT_FILTERS BuilderB.K_name "kepler")))
             Sample.showing in
  let s' := BuilderB.dispatch (H:=Sample.host) s BuilderB.ClickNext in
  BuilderB.canGoNext s = true /\
  usp_getAll "offset" (BuilderB.queryParams (H:=Sample.host) s) = ["0"] /\
  usp_getAll "offset" (BuilderB.queryParams (H:=Sample.host) s') = ["25"] /\
  usp_getAll "name" (BuilderB.queryParams (H:=Sample.host) s') = ["kepler"] /\
  usp_getAll "limit" (BuilderB.queryParams (H:=Sample.host) s') = ["25"].
Proof.
  intros s s'.
  destruct (query_after_event (H:=Sample.host) s BuilderB.ClickNext) as (_ & _ & O & K).
  fold s' in O, K.
  split; [reflexivity|]. split; [reflexivity|].
  split; [rewrite O; reflexivity|].
  split; [rewrite (K "name"); [reflexivity | discriminate]|].
  rewrite (K "limit"); [reflexivity | discriminate].
Defined.

Lemma buildParams_base_parameters_witness :
  let source :=
    BuilderB.with_text
      (BuilderB.with_text BuilderB.DEFAULT_FILTERS BuilderB.K_name Sample.nbsp)
      BuilderB.K_disc_method (Sample.nbsp ++ " Transit ") in
  let q := BuilderB.buildParams (H:=Sample.host) (of_Z 25) source (of_Z 50) in
  usp_getAll "name" q = [] /\
  usp_getAll "disc_method" q = ["Transit"] /\
  usp_getAll "offset" q = ["50"].
Proof.
  intros source q.
  destruct (buildParams_base_parameters (H:=Sample.host) (of_Z 25) source (of_Z 50))
    as (_ & O & N & M & _).
  split; [exact N|]. split; [exact M | exact O].
Defined.

(** ** Builder B: what the page shows after a batch *)

Section AfterBatch.
Import BuilderB.
Context `{Host}.

(** X7.  What the page shows once [fetchAll] has run.  After a failure that
    is not a cancellation nothing is loading, the banner shows the message
    (when it is not empty), the table has the row for "no planet matches",
    and the statistics and the method counts are replaced by their
    "loading" paragraphs.  After a cancellation the table has the loading
    row and the two sections are as the earlier state had them.  After a
    success the table has one row per planet, or the "no planet matches"
    row for an empty list; the statistics are shown; the method counts are
    shown unless the list is empty, which reads as loading; and there is no
    banner. *)
Theorem page_after_batch :
  forall (prev : FetchState) (b : Batch),
    (forall e,
        Promise_all b = Rejected e -> err_name e <> "AbortError" ->
        loading (fetchAll prev b) = false /\
        error_banner (fetchAll prev b)
          = (if nonempty (err_message e) then Some (err_message e) else None) /\
        table_body (fetchAll prev b) = NoMatchRow /\
        stats_notice (fetchAll prev b) = Some "İstatistikler yükleniyor..." /\
        methodCounts_notice (fetchAll prev b) = Some "Yöntem verileri yükleniyor...") /\
    (forall e,
        Promise_all b = Rejected e -> err_name e = "AbortError" ->
        table_body (fetchAll prev b) = LoadingRow /\
        stats_notice (fetchAll prev b) = stats_notice prev /\
        methodCounts_notice (fetchAll prev b) = methodCounts_notice prev /\
        error_banner (fetchAll prev b) = None) /\
    (forall p m s,
        Promise_all b = Fulfilled (p, m, s) ->
        table_body (fetchAll prev b)
          = (if (0 <? length (items p))%nat then PlanetRows (map row (items p))
             else NoMatchRow) /\
        stats_notice (fetchAll prev b) = None /\
        methodCounts_notice (fetchAll prev b)
          = (if (0 <? length m)%nat then None else Some "Yöntem verileri yükleniyor...") /\
        error_banner (fetchAll prev b) = None).
Proof.
  intros prev b. unfold fetchAll. split; [|split].
  - intros e -> Hn. rewrite (fetch_settle_failure _ e Hn). repeat split.
  - intros e -> Hn. rewrite (fetch_settle_abort _ e Hn). repeat split.
  - intros p m s ->. repeat split.
Qed.

Lemma rejection_by_status (b : Batch) (w : Which) (n : nat) :
  response_status b w = Some n -> ((n < 200)%nat \/ (299 < n)%nat) -> (n <= 999)%nat ->
  rejection b w = Some (new_Error (failure_text w ++ string_of_Z (Z.of_nat n))).
Proof.
  intros Hs Hn H9.
  assert (K : forall J (r : Response J), status r = n -> ok r = false).
  { intros J r E. destruct (ok r) eqn:O; [|reflexivity].
    apply ok_iff in O. lia. }
  destruct w; simpl in Hs |- *;
    unfold planetsPromise, methodCountsPromise, statsPromise;
    match goal with
    | Hs : match ?f with _ => _ end = _ |- _ => destruct f as [r|e]; [|discriminate]
    end;
    injection Hs as Hs; cbn [and_then failure_text]; unfold checked;
    rewrite (K _ r Hs); cbn [negb reason]; now rewrite Hs, (status_text n H9).
Qed.

Lemma rejection_by_transport (b : Batch) (w : Which) (e : Error) :
  transport_failure b w = Some e -> rejection b w = Some e.
Proof.
  destruct w; simpl;
    unfold planetsPromise, methodCountsPromise, statsPromise;
    match goal with
    | |- reason ?f = _ -> _ => destruct f as [r|e']; simpl; [discriminate|]
    end; auto.
Qed.

Lemma sole_rejection (prev : FetchState) (b : Batch) (w : Which) (e : Error) :
  (forall w', w' <> w -> rejection b w' = None) ->
  rejection b w = Some e -> err_name e <> "AbortError" ->
  fetchAll prev b = mkFetchState None [] None false (Some (err_message e)).
Proof.
  intros Hothers Hw Hn. unfold fetchAll.
  destruct (Promise_all_cases b) as [(p & m & s & Hp & Hm & Hs & _)
                                    | (w' & e' & Hw' & Hall)].
  - destruct w; simpl in Hw; rewrite ?Hp, ?Hm, ?Hs in Hw; discriminate.
  - assert (E : w' = w).
    { destruct w, w'; try reflexivity;
        rewrite Hothers in Hw' by discriminate; discriminate. }
    subst w'. rewrite Hall. assert (e' = e) as -> by congruence.
    now apply fetch_settle_failure.
Qed.

(** X8.  When one of the three requests is the only one to fail, the error
    the state records tells which and how: for a response with a status
    outside 200..299 it is the text of that request followed by the status
    in decimal, and for a [fetch] that was itself rejected (and not by a
    cancellation) it is the message of that rejection, unchanged.  Nothing
    of the batch is stored. *)
Theorem failed_request_message :
  forall (prev : FetchState) (b : Batch) (w : Which),
    (forall w', w' <> w -> rejection b w' = None) ->
    (forall n,
        response_status b w = Some n ->
        ((n < 200)%nat \/ (299 < n)%nat) -> (n <= 999)%nat ->
        fetchAll prev b =
          mkFetchState None [] None false
            (Some (failure_text w ++ string_of_Z (Z.of_nat n)))) /\
    (forall e,
        transport_failure b w = Some e -> err_name e <> "AbortError" ->
        fetchAll prev b = mkFetchState None [] None false (Some (err_message e))).
Proof.
  intros prev b w Hothers. split.
  - intros n Hs Hn H9.
    apply (sole_rejection prev b w _ Hothers (rejection_by_status b w n Hs Hn H9)).
    discriminate.
  - intros e He Hn.
    exact (sole_rejection prev b w e Hothers (rejection_by_transport b w e He) Hn).
Qed.

End AfterBatch.

Lemma page_after_batch_witness :
  BuilderB.Promise_all (H:=Sample.host) Sample.counts_fail
    = Rejected (new_Error "Yöntem istatistikleri getirilemedi: 500") /\
  BuilderB.table_body (H:=Sample.host)
    (BuilderB.fetchAll (H:=Sample.host) Sample.showing Sample.counts_fail)
    = BuilderB.NoMatchRow /\
  BuilderB.stats_notice
    (BuilderB.fetchAll (H:=Sample.host) Sample.showing Sample.counts_fail)
    = Some "İstatistikler yükleniyor...".
Proof.
  assert (P : BuilderB.Promise_all (H:=Sample.host) Sample.counts_fail
              = Rejected (new_Error "Yöntem istatistikleri getirilemedi: 500"))
    by reflexivity.
  assert (N : err_name (new_Error "Yöntem istatistikleri getirilemedi: 500")
              <> "AbortError") by discriminate.
  destruct (proj1 (page_after_batch (H:=Sample.host) Sample.showing Sample.counts_fail)
              _ P N) as (_ & _ & A & B & _).
  split; [exact P|]. split; [exact A | exact B].
Defined.

Lemma failed_request_message_witness :
  (forall w', w' <> BuilderB.TheMethodCounts ->
              BuilderB.rejection (H:=Sample.host) Sample.counts_fail w' = None) /\
  BuilderB.fetchAll (H:=Sample.host) Sample.showing Sample.counts_fail
    = BuilderB.mkFetchState None [] None false
        (Some "Yöntem istatistikleri getirilemedi: 500").
Proof.
  assert (O : forall w', w' <> BuilderB.TheMethodCounts ->
                         BuilderB.rejection (H:=Sample.host) Sample.counts_fail w' = None).
  { intros w' Hw. destruct w'; try reflexivity. now elim Hw. }
  split; [exact O|].
  assert (B : (500 < 200)%nat \/ (299 < 500)%nat) by (right; lia).
  assert (B9 : (500 <= 999)%nat) by lia.
  exact (proj1 (failed_request_message (H:=Sample.host) Sample.showing Sample.counts_fail
                  BuilderB.TheMethodCounts O) 500%nat eq_refl B B9).
Defined.

(** ** The fetch helper, further *)

Section ClientFurther.
Import Client.
Context `{Host}.
Variable env : option string.

(** X9.  [get] fulfils with a value only when the request got a response
    with a status in 200..299 whose body parsed to that value.  A rejection
    of [fetch] itself, and a failure to read the body of such a response,
    come out of [get] as the same rejection. *)
Theorem get_outcomes :
  forall (T : Type) (fetch : string -> Settled (Response T))
         (path : string) (params : option Params),
    (forall v : T,
        get env fetch path params = Fulfilled v <->
        exists r, fetch (buildUrl env path params) = Fulfilled r /\
                  ok r = true /\ json r = Fulfilled v) /\
    (forall e : Error,
        fetch (buildUrl env path params) = Rejected e ->
        get env fetch path params = Rejected e) /\
    (forall (r : Response T) (e : Error),
        fetch (buildUrl env path params) = Fulfilled r ->
        ok r = true -> json r = Rejected e ->
        get env fetch path params = Rejected e).
Proof.
  intros T fetch path params. unfold get. split; [|split].
  - intros v. destruct (fetch (buildUrl env path params)) as [r|e]; simpl.
    + destruct (ok r) eqn:O; simpl.
      * split; [intros E; exists r; auto|].
        intros (r' & E & _ & J). injection E as <-. exact J.
      * split; [discriminate|].
        intros (r' & E & O' & _). injection E as <-. congruence.
    + split; [discriminate | intros (r' & E & _); discriminate].
  - intros e ->. reflexivity.
  - intros r e -> O J. simpl. now rewrite O.
Qed.

Lemma usp_set_fresh (k v : string) (sp : SearchParams) :
  ~ In k (usp_keys sp) -> usp_set k v sp = (sp ++ [(k, v)])%list.
Proof.
  induction sp as [|p sp IH]; simpl; intros Hk; [reflexivity|].
  destruct (named k p) eqn:E.
  - apply named_true in E. tauto.
  - rewrite IH by tauto. reflexivity.
Qed.

Lemma fold_set_fresh (l : Params) (u : URL) :
  NoDup (map fst l) ->
  (forall e, In e l -> ~ In (fst e) (usp_keys (searchParams u))) ->
  fold_left set_entry l u
  = mkURL (url_base u) (searchParams u ++ map query_entry l)%list.
Proof.
  revert u. induction l as [|e l IH]; intros u Hnd Hfresh; simpl.
  - rewrite app_nil_r. now destruct u.
  - inversion Hnd as [|? ? Hnotin Hnd']; subst.
    rewrite IH; [|exact Hnd'|].
    + unfold set_entry, url_set. cbn [url_base searchParams].
      rewrite usp_set_fresh by (apply Hfresh; now left).
      now rewrite <- app_assoc.
    + intros e' He'. unfold set_entry, url_set. cbn [searchParams].
      rewrite usp_set_fresh by (apply Hfresh; now left).
      unfold usp_keys. rewrite map_app, in_app_iff. simpl.
      intros [Hin|[Hin|[]]].
      * apply (Hfresh e'); [now right | exact Hin].
      * apply Hnotin. rewrite Hin. now apply in_map.
Qed.

Lemma expected_query_filter (ps : Params) :
  expected_query ps = map query_entry (filter (fun e => present (snd e)) ps).
Proof.
  induction ps as [|[k v] ps IH]; [reflexivity|].
  destruct v as [|s|n]; [exact IH | | simpl; now rewrite IH].
  destruct s; [exact IH | simpl; now rewrite IH].
Qed.

(** The string [buildUrl] returns when the names it sets are new to the
    query. *)
Lemma buildUrl_fresh (path : string) (ps : Params) :
  NoDup (map fst ps) ->
  (forall k v, In (k, v) (expected_query ps) ->
               ~ In k (usp_keys (searchParams (newURL path (API_BASE_URL env))))) ->
  buildUrl env path (Some ps)
  = URL_toString (mkURL (url_base (newURL path (API_BASE_URL env)))
                        (searchParams (newURL path (API_BASE_URL env))
                         ++ expected_query ps)%list).
Proof.
  intros Hnd Hfresh. unfold buildUrl, buildUrl_url.
  rewrite fold_set_fresh.
  - now rewrite expected_query_filter.
  - now apply NoDup_keys_filter.
  - intros e He. apply (Hfresh (fst e) (String_ (snd e))).
    rewrite expected_query_filter.
    change (fst e, String_ (snd e)) with (query_entry e). now apply in_map.
Qed.

(** X10.  When the names [buildUrl] has to set are not already in the query
    of the URL parsed from the path, the string it returns is that URL with
    its query followed by the entries of the record whose value is neither
    [undefined] nor the empty string, in the order of the record, strings as
    they are and numbers printed.  Without a parameter record, and with a
    record in which every value is [undefined] or the empty string, it is
    the parsed URL. *)
Theorem buildUrl_query_in_order :
  forall (path : string),
    let url0 := newURL path (API_BASE_URL env) in
    (forall (ps : Params),
        NoDup (map fst ps) ->
        (forall k v, In (k, v) (expected_query ps) ->
                     ~ In k (usp_keys (searchParams url0))) ->
        buildUrl env path (Some ps)
        = URL_toString (mkURL (url_base url0)
                              (searchParams url0 ++ expected_query ps)%list)) /\
    buildUrl env path None = URL_toString url0 /\
    (forall (ps : Params),
        (forall k v, In (k, v) ps -> v = PUndefined \/ v = PString "") ->
        buildUrl env path (Some ps) = URL_toString url0).
Proof.
  intros path url0. split; [|split].
  - intros ps Hnd Hfresh. now apply buildUrl_fresh.
  - reflexivity.
  - intros ps Hnone. unfold buildUrl, buildUrl_url. fold url0.
    assert (filter (fun e => present (snd e)) ps = []) as ->; [|reflexivity].
    induction ps as [|[k v] ps IH]; simpl; [reflexivity|].
    destruct (Hnone k v (or_introl eq_refl)) as [-> | ->]; simpl;
      apply IH; intros; eapply Hnone; right; eassumption.
Qed.

Lemma expected_query_number (k : string) (n : number) (rest : Params) :
  expected_query ((k, PNumber n) :: rest)
  = (k, NumberToString n) :: expected_query rest.
Proof. reflexivity. Qed.

Lemma expected_query_string (k s : string) (rest : Params) :
  expected_query ((k, PString s) :: rest)
  = (BuilderA.shown k s ++ expected_query rest)%list.
Proof. destruct s; reflexivity. Qed.

(** X11.  The request [usePlanetList] makes for the query of a render, when
    [/planets] parses to a URL without a query.  The URL [queryFn] hands to
    [fetch] has [limit=20] and the page of the render, and then each of
    [name], [method], [min_year], [max_year], [order_by] and [order_dir]
    exactly when its field is not the empty string, with the text of the
    field as it is, white space included.  What [fetch] gives for this URL
    decides the outcome: a rejection is passed on, a response with a status
    in 200..299 gives its body, any other response a rejection. *)
Theorem planets_request_query :
  forall (f : BuilderA.PlanetFilterState) (h : BuilderA.ListHook) (base : string),
    newURL "/planets" (API_BASE_URL env) = mkURL base [] ->
    let q := BuilderA.render f h in
    let url :=
      URL_toString
        (mkURL base
           ([("limit", "20"); ("page", NumberToString (BuilderA.hook_page h))]
            ++ BuilderA.shown "name" (BuilderA.search f)
            ++ BuilderA.shown "method" (BuilderA.method f)
            ++ BuilderA.shown "min_year" (BuilderA.minYear f)
            ++ BuilderA.shown "max_year" (BuilderA.maxYear f)
            ++ BuilderA.shown "order_by" (BuilderA.orderBy f)
            ++ BuilderA.shown "order_dir" (BuilderA.orderDir f))%list) in
    buildUrl env "/planets" (Some (BuilderA.request q)) = url /\
    forall (fetch : string -> Settled (Response BuilderA.PlanetListResponse)),
      (forall e, fetch url = Rejected e -> BuilderA.queryFn env fetch q = Rejected e) /\
      (forall r, fetch url = Fulfilled r -> ok r = true ->
                 BuilderA.queryFn env fetch q = json r) /\
      (forall r, fetch url = Fulfilled r -> ok r = false ->
                 exists e, BuilderA.queryFn env fetch q = Rejected e).
Proof.
  intros f h base Hq0 q url.
  assert (E : buildUrl env "/planets" (Some (BuilderA.request q)) = url).
  { subst q url. cbn [BuilderA.render BuilderA.request].
    rewrite buildUrl_fresh.
    - rewrite Hq0. cbn [url_base searchParams app].
      unfold BuilderA.mapFiltersToParams.
      rewrite !expected_query_number, !expected_query_string.
      change (expected_query []) with (@nil (string * string)).
      rewrite !app_nil_r. reflexivity.
    - simpl. distinct_names.
    - rewrite Hq0. intros k v _ []. }
  split; [exact E|].
  intros fetch. unfold BuilderA.queryFn, get. rewrite E.
  split; [|split].
  - intros e ->. reflexivity.
  - intros r -> O. simpl. now rewrite O.
  - intros r -> O. simpl. rewrite O. simpl. eauto.
Qed.

End ClientFurther.

Lemma get_outcomes_witness :
  let offline : string -> Settled (Response nat) :=
    fun _ => Rejected (mkError "TypeError" "Failed to fetch") in
  let garbled : Response nat :=
    mkResponse 200 (Rejected (mkError "SyntaxError" "Unexpected token")) in
  Client.get (H:=Sample.host) None offline "/planets" None
    = Rejected (mkError "TypeError" "Failed to fetch") /\
  Client.get (H:=Sample.host) None (fun _ => Fulfilled garbled) "/planets" None
    = Rejected (mkError "SyntaxError" "Unexpected token").
Proof.
  intros offline garbled. split.
  - exact (proj1 (proj2 (get_outcomes (H:=Sample.host) None nat offline "/planets" None))
             _ eq_refl).
  - exact (proj2 (proj2 (get_outcomes (H:=Sample.host) None nat
                           (fun _ => Fulfilled garbled) "/planets" None))
             garbled _ eq_refl eq_refl eq_refl).
Defined.

Lemma buildUrl_query_in_order_witness :
  let ps := [("chart", Client.PString "hist"); ("bins", Client.PUndefined);
             ("year", Client.PNumber (of_Z 2009)); ("method", Client.PString "")] in
  NoDup (map fst ps) /\
  Client.buildUrl (H:=Sample.host) None "/vis/discovery" (Some ps)
    = "http://localhost:8000/vis/discovery?chart=hist&year=2009".
Proof.
  intros ps.
  assert (Hnd : NoDup (map fst ps)) by (subst ps; simpl; distinct_names).
  split; [exact Hnd|].
  etransitivity.
  - apply (proj1 (buildUrl_query_in_order (H:=Sample.host) None "/vis/discovery") ps Hnd).
    intros k v _ [].
  - reflexivity.
Defined.

Lemma planets_request_query_witness :
  let f := BuilderA.with_field BuilderA.defaultState BuilderA.Ksearch " " in
  let h := BuilderA.mkHook (of_Z 2) None None [] [] in
  let url := "http://localhost:8000/planets?limit=20&page=2&name= &order_by=discovery_year&order_dir=desc" in
  newURL (Host:=Sample.host) "/planets" (Client.API_BASE_URL None)
    = mkURL "http://localhost:8000/planets" [] /\
  Client.buildUrl (H:=Sample.host) None "/planets"
    (Some (BuilderA.request (BuilderA.render f h))) = url /\
  BuilderA.queryFn (H:=Sample.host) None
    (fun u => if String.eqb u url
              then Fulfilled (mkResponse 200 (Fulfilled Sample.second_page))
              else Rejected (mkError "TypeError" "Failed to fetch"))
    (BuilderA.render f h)
  = Fulfilled Sample.second_page.
Proof.
  intros f h url.
  destruct (planets_request_query (H:=Sample.host) None f h
              "http://localhost:8000/planets" eq_refl) as [E F].
  split; [reflexivity|]. split; [exact E|].
  apply (proj1 (proj2 (F _)) (mkResponse 200 (Fulfilled Sample.second_page)));
    reflexivity.
Defined.

(** ** Builder A: the filter state and the hook *)

Section FiltersAndHook.
Import Client BuilderA.

Lemma same_refl (a : number) : same a a = true.
Proof.
  destruct a as [| | |q]; try reflexivity. simpl. apply Qeq_bool_iff. reflexivity.
Qed.

Lemma same_trans (a b c : number) :
  same a b = true -> same b c = true -> same a c = true.
Proof.
  destruct a as [| | |x], b as [| | |y], c as [| | |z]; simpl; try discriminate; auto.
  rewrite !Qeq_bool_iff. intros E1 E2. now rewrite E1.
Qed.

Lemma reachable_default_object (s : Page) :
  Reachable s -> addr (filters s) = 0%nat -> value (filters s) = defaultState.
Proof.
  induction 1 as [|s e Hr IH]; [reflexivity|].
  destruct (reachable_consistent s Hr) as [_ Hf].
  destruct e as [key v| |p|f p]; simpl.
  - intros E. lia.
  - destruct (Nat.eqb (addr (filters s)) 0) eqn:E; [exact IH | reflexivity].
  - destruct (same p (hook_page (list_hook s))); exact IH.
  - exact IH.
Qed.

(** X12.  [updateFilter] writes the one field it names, the last write
    winning, and leaves the other five as they were.  On every reachable
    page [resetFilters] leaves the default filter state, also when it finds
    the default object in place and changes nothing; [setPage] leaves the
    filters alone. *)
Theorem filter_state_updates :
  (forall (f : PlanetFilterState) (key : FilterKey) (v : string),
      field (with_field f key v) key = v /\
      (forall key', key' <> key -> field (with_field f key v) key' = field f key') /\
      (forall v', with_field (with_field f key v) key v' = with_field f key v')) /\
  (forall (s : Page),
      Reachable s ->
      value (filters (dispatch s ResetFilters)) = defaultState /\
      (addr (filters s) = addr defaultState_obj -> dispatch s ResetFilters = s) /\
      (forall key v,
          value (filters (dispatch s (UpdateFilter key v)))
            = with_field (value (filters s)) key v) /\
      (forall p, filters (dispatch s (SetPage p)) = filters s)).
Proof.
  split.
  - intros f key v. split; [now destruct key|]. split.
    + intros key' Hne. destruct key, key'; try reflexivity; now elim Hne.
    + intros v'. now destruct key.
  - intros s Hr. split; [|split; [|split]].
    + cbn [dispatch]. destruct (Nat.eqb (addr (filters s)) (addr defaultState_obj)) eqn:E.
      * apply Nat.eqb_eq in E. now apply reachable_default_object.
      * reflexivity.
    + intros E. cbn [dispatch]. apply Nat.eqb_eq in E. now rewrite E.
    + reflexivity.
    + intros p. cbn [dispatch]. now destruct (same p (hook_page (list_hook s))).
Qed.

Lemma usePlanetList_query (f : Obj) (h : ListHook) :
  exists q : Query,
    hook_query (usePlanetList f h) = Some q /\
    key_filters q = value f /\
    same (key_page q) (hook_page (usePlanetList f h)) = true /\
    request q = mapFiltersToParams (value f) (key_page q).
Proof.
  unfold usePlanetList.
  destruct (commit_fields f h) as (P1 & D1 & Q1 & _).
  remember (commit f h) as h1 eqn:Eh1. clear Eh1.
  destruct (same (hook_page h1) (hook_page h)) eqn:E.
  - exists (render (value f) h). split; [exact Q1|]. split; [reflexivity|].
    split; [|reflexivity]. cbn [render key_page]. now rewrite same_sym.
  - destruct (commit_fields f h1) as (P2 & D2 & Q2 & _).
    assert (D : deps_changed h1 f = false)
      by (unfold deps_changed; rewrite D1; now rewrite Nat.eqb_refl).
    rewrite D in P2.
    exists (render (value f) h1). split; [exact Q2|]. split; [reflexivity|].
    split; [|reflexivity]. cbn [render key_page]. rewrite P2. apply same_refl.
Qed.

Lemma commit_requests (f : Obj) (h : ListHook) :
  started_or_new h -> hook_requests (commit f h) <> [].
Proof.
  intros Hh. destruct (commit_fields f h) as (_ & _ & _ & R & _). rewrite R.
  unfold fetches, key_changed, in_flight.
  destruct Hh as [[-> ->] | Hne]; [discriminate|].
  destruct (_ && _); [discriminate | exact Hne].
Qed.

Lemma usePlanetList_requests (f : Obj) (h : ListHook) :
  started_or_new h -> hook_requests (usePlanetList f h) <> [].
Proof.
  intros Hh. unfold usePlanetList.
  pose proof (commit_requests f h Hh) as R1.
  destruct (same (hook_page (commit f h)) (hook_page h)); [exact R1|].
  apply commit_requests. now right.
Qed.

Lemma reachable_at_rest (s : Page) : Reachable s -> at_rest s.
Proof.
  induction 1 as [|s e Hr [IHr IHq]].
  - split; [apply usePlanetList_requests; left; now split | apply usePlanetList_query].
  - destruct e as [key v| |p|f p]; cbn [dispatch].
    + split; [apply usePlanetList_requests; now right | apply usePlanetList_query].
    + destruct (Nat.eqb (addr (filters s)) (addr defaultState_obj)); [now split|].
      split; [apply usePlanetList_requests; now right | apply usePlanetList_query].
    + destruct (same p (hook_page (list_hook s))); [now split|].
      split; [apply usePlanetList_requests; now right | apply usePlanetList_query].
    + split; [exact IHr | exact IHq].
Qed.

Lemma setPage_commit (f : Obj) (p : number) (q0 : Query) (reqs : list Params)
    (fl : list Query) :
  key_filters q0 = value f -> same (key_page q0) p = false ->
  let q := mkQuery (value f) p (mapFiltersToParams (value f) p) in
  commit f (mkHook p (Some (addr f)) (Some q0) reqs fl)
  = mkHook p (Some (addr f)) (Some q)
      (if existsb (same_key q) fl then reqs else mapFiltersToParams (value f) p :: reqs)
      (if existsb (same_key q) fl then fl else q :: fl).
Proof.
  intros Kf S q. unfold commit, deps_changed, fetches, key_changed, in_flight, render, same_key.
  cbn [hook_deps hook_query hook_page hook_requests hook_in_flight
       key_filters key_page request].
  rewrite Nat.eqb_refl, Kf, filters_eqb_refl, S. cbn [andb negb].
  fold q. unfold same_key. cbn [key_filters key_page].
  destruct (existsb _ fl); reflexivity.
Qed.

(** X13.  On every reachable page the hook has issued at least one request,
    and the query it holds is the one of the current filters and the
    current page: the key has these filters and this page, and the request
    parameters are [mapFiltersToParams] of them. *)
Theorem hook_query_follows_state :
  forall (s : Page),
    Reachable s ->
    hook_requests (list_hook s) <> [] /\
    exists q : Query,
      hook_query (list_hook s) = Some q /\
      key_filters q = value (filters s) /\
      same (key_page q) (hook_page (list_hook s)) = true /\
      request q = mapFiltersToParams (value (filters s)) (key_page q).
Proof. exact reachable_at_rest. Qed.

(** X14.  On a reachable page, [setPage] with the page the hook is on
    changes nothing.  With another page it leaves the filters alone, makes
    that page the page of the hook and moves the observer to the key of the
    current filters and that page; while doing so it starts no fetch when
    the cache is still fetching that key, and otherwise one fetch, for the
    current filters and that page. *)
Theorem setPage_requests_page :
  forall (s : Page) (p : number),
    Reachable s ->
    (same p (hook_page (list_hook s)) = true -> dispatch s (SetPage p) = s) /\
    (same p (hook_page (list_hook s)) = false ->
     let q := mkQuery (value (filters s)) p (mapFiltersToParams (value (filters s)) p) in
     let s' := dispatch s (SetPage p) in
     hook_page (list_hook s') = p /\
     filters s' = filters s /\
     hook_query (list_hook s') = Some q /\
     (in_flight (list_hook s) q = true ->
      hook_requests (list_hook s') = hook_requests (list_hook s) /\
      hook_in_flight (list_hook s') = hook_in_flight (list_hook s)) /\
     (in_flight (list_hook s) q = false ->
      hook_requests (list_hook s')
        = mapFiltersToParams (value (filters s)) p :: hook_requests (list_hook s) /\
      in_flight (list_hook s') q = true)).
Proof.
  intros s p Hr. split; intros E; cbn [dispatch]; rewrite E; [reflexivity|].
  destruct (reachable_consistent s Hr) as [Hd _].
  destruct (reachable_at_rest s Hr) as (_ & q0 & Hq0 & Kf & Kp & _).
  assert (S : same (key_page q0) p = false).
  { destruct (same (key_page q0) p) eqn:S; [|reflexivity].
    rewrite same_sym in S. rewrite (same_trans _ _ _ S Kp) in E. discriminate. }
  cbv zeta. cbn [list_hook filters]. unfold in_flight.
  destruct (list_hook s) as [pg d q reqs fl].
  cbn [hook_deps hook_query hook_requests hook_page hook_in_flight] in *. subst d q.
  unfold usePlanetList.
  rewrite (setPage_commit (filters s) p q0 reqs fl Kf S).
  cbn [hook_page]. rewrite same_refl.
  cbn [hook_page hook_requests hook_query hook_in_flight].
  split; [reflexivity|]. split; [reflexivity|]. split; [reflexivity|].
  split; intros F; rewrite F; [now split|].
  split; [reflexivity|].
  cbn [existsb]. unfold same_key at 1. cbn [key_filters key_page].
  now rewrite filters_eqb_refl, same_refl.
Qed.

End FiltersAndHook.

Lemma filter_state_updates_witness :
  let s := BuilderA.run [BuilderA.UpdateFilter BuilderA.Kmethod "Transit";
                         BuilderA.SetPage (of_Z 2)] in
  BuilderA.Reachable s /\
  BuilderA.method (BuilderA.value (BuilderA.filters s)) = "Transit" /\
  BuilderA.value (BuilderA.filters (BuilderA.dispatch s BuilderA.ResetFilters))
    = BuilderA.defaultState.
Proof.
  intros s.
  assert (R : BuilderA.Reachable s).
  { subst s. unfold BuilderA.run. cbn [fold_left].
    repeat apply BuilderA.reach_step. apply BuilderA.reach_mount. }
  split; [exact R|]. split; [reflexivity|].
  exact (proj1 (proj2 filter_state_updates s R)).
Defined.

Lemma hook_query_follows_state_witness :
  let s := BuilderA.run [BuilderA.SetPage (of_Z 2);
                         BuilderA.UpdateFilter BuilderA.Ksearch "kepler"] in
  BuilderA.Reachable s /\
  BuilderA.hook_requests (BuilderA.list_hook s) <> [] /\
  exists q : BuilderA.Query,
    BuilderA.hook_query (BuilderA.list_hook s) = Some q /\
    BuilderA.key_filters q = BuilderA.value (BuilderA.filters s) /\
    same (BuilderA.key_page q) (BuilderA.hook_page (BuilderA.list_hook s)) = true /\
    BuilderA.request q
      = BuilderA.mapFiltersToParams (BuilderA.value (BuilderA.filters s)) (BuilderA.key_page q).
Proof.
  intros s.
  assert (R : BuilderA.Reachable s).
  { subst s. unfold BuilderA.run. cbn [fold_left].
    repeat apply BuilderA.reach_step. apply BuilderA.reach_mount. }
  split; [exact R|]. exact (hook_query_follows_state s R).
Defined.

(** Mount, then pages 2, 1 and 2 again while nothing has settled: two
    fetches in all, the one of the mount and the one for page 2.  Once the
    fetch for page 1 has settled, going back to page 1 starts a third. *)
Lemma setPage_requests_page_witness :
  let s := BuilderA.run [BuilderA.SetPage (of_Z 2); BuilderA.SetPage (of_Z 1)] in
  let s2 := BuilderA.dispatch s (BuilderA.SetPage (of_Z 2)) in
  let t := BuilderA.dispatch s2 (BuilderA.FetchSettles BuilderA.defaultState (of_Z 1)) in
  let t1 := BuilderA.dispatch t (BuilderA.SetPage (of_Z 1)) in
  (BuilderA.Reachable s /\ BuilderA.Reachable t) /\
  BuilderA.hook_page (BuilderA.list_hook s2) = of_Z 2 /\
  BuilderA.hook_requests (BuilderA.list_hook s2)
    = [BuilderA.mapFiltersToParams BuilderA.defaultState (of_Z 2);
       BuilderA.mapFiltersToParams BuilderA.defaultState (of_Z 1)] /\
  BuilderA.hook_requests (BuilderA.list_hook t1)
    = BuilderA.mapFiltersToParams BuilderA.defaultState (of_Z 1)
      :: BuilderA.hook_requests (BuilderA.list_hook t).
Proof.
  intros s s2 t t1.
  assert (R : BuilderA.Reachable s).
  { subst s. unfold BuilderA.run. cbn [fold_left].
    repeat apply BuilderA.reach_step. apply BuilderA.reach_mount. }
  assert (R' : BuilderA.Reachable t)
    by (subst t s2; apply BuilderA.reach_step, BuilderA.reach_step; exact R).
  split; [split; [exact R | exact R']|].
  destruct (proj2 (setPage_requests_page s (of_Z 2) R) eq_refl)
    as (A & _ & _ & B & _).
  destruct (proj2 (setPage_requests_page t (of_Z 1) R') eq_refl)
    as (_ & _ & _ & _ & C).
  split; [exact A|]. split.
  - fold s2 in B. rewrite (proj1 (B eq_refl)). reflexivity.
  - exact (proj1 (C eq_refl)).
Defined.

(** ** Builder A: the pages the table asks for *)

Section TableTargets.
Import BuilderA.

Lemma le_Fin_false (a b : Q) : le (Fin a) (Fin b) = false <-> b < a.
Proof.
  simpl. split.
  - intros E. apply Qnot_le_lt. intro L. apply Qle_bool_iff in L. congruence.
  - intros L. destruct (Qle_bool a b) eqn:E; [|reflexivity].
    apply Qle_bool_iff in E. exfalso. apply (Qlt_not_le _ _ L E).
Qed.

(** X15.  Without a response both buttons of the table are disabled.  With
    a response whose page and number of pages are whole numbers, an enabled
    Previous asks for the page before, which is at least 1, and an enabled
    Next asks for the page after, which is at most the number of pages. *)
Theorem table_buttons_stay_in_range :
  (forall (props : Props),
      response props = None ->
      previous_disabled props = true /\ next_disabled props = true) /\
  (forall (props : Props) (r : PlanetListResponse) (p n : Z),
      response props = Some r -> page r = of_Z p -> pages r = of_Z n ->
      (previous_disabled props = false ->
       num_eq (previous_target props) (of_Z (p - 1)) /\ (1 <= p - 1)%Z) /\
      (next_disabled props = false ->
       num_eq (next_target props) (of_Z (p + 1)) /\ (p + 1 <= n)%Z)).
Proof.
  split.
  - intros props Hr. unfold previous_disabled, next_disabled, shown_page, shown_pages.
    rewrite Hr. split; reflexivity.
  - intros props r p n Hr Hp Hn.
    unfold previous_disabled, next_disabled, previous_target, next_target,
      shown_page, shown_pages, ge.
    rewrite Hr, Hp, Hn. unfold of_Z. split; intros E.
    + apply orb_false_iff in E as [E _]. apply le_Fin_false in E.
      rewrite <- Zlt_Qlt in E. split; [|lia].
      cbn [sub neg add num_eq]. unfold Z.sub. now rewrite inject_Z_plus, inject_Z_opp.
    + apply orb_false_iff in E as [E _]. apply le_Fin_false in E.
      rewrite <- Zlt_Qlt in E. split; [|lia].
      cbn [add num_eq]. now rewrite inject_Z_plus.
Qed.

End TableTargets.

Lemma table_buttons_stay_in_range_witness :
  let props := {| BuilderA.response := Some Sample.second_page;
                  BuilderA.loading := None |} in
  BuilderA.previous_disabled props = false /\
  BuilderA.next_disabled props = false /\
  num_eq (BuilderA.previous_target props) (of_Z 1) /\
  num_eq (BuilderA.next_target props) (of_Z 3).
Proof.
  intros props.
  destruct (proj2 table_buttons_stay_in_range props Sample.second_page 2%Z 3%Z
              eq_refl eq_refl eq_refl) as [A B].
  split; [reflexivity|]. split; [reflexivity|].
  split; [exact (proj1 (A eq_refl)) | exact (proj1 (B eq_refl))].
Defined.

(** ** Builder B: the base URL that is kept *)

Section BaseUrl.
Import BuilderB.

Lemma nonempty_false (s : string) : nonempty s = false <-> s = "".
Proof. destruct s; simpl; split; congruence. Qed.

(** X16.  The base URL the dashboard starts with is never the empty string.
    Without a stored item it is the default; with a stored text that is
    empty or white space from end to end it is the default too; with any
    other stored text it is that text trimmed, that is, without the white
    space before and after it.  [update] makes the text the live value as
    typed and stores it as typed, so loading the page again starts from what
    the stored text gives.  A value the page started with, once stored, is
    read back unchanged. *)
Theorem base_url_is_kept :
  (forall stored : option string, initial_baseUrl stored <> "") /\
  initial_baseUrl None = DEFAULT_BASE_URL /\
  (forall s : string,
      all_space s = true -> initial_baseUrl (Some s) = DEFAULT_BASE_URL) /\
  (forall s : string,
      all_space s = false ->
      initial_baseUrl (Some s) = trim s /\
      head_space (trim s) = false /\
      exists before after,
        s = before ++ trim s ++ after /\
        all_space before = true /\ all_space after = true) /\
  (forall v : string,
      live_baseUrl (update_baseUrl v) = v /\
      stored_baseUrl (update_baseUrl v) = Some v /\
      reload_baseUrl (update_baseUrl v) = initial_baseUrl (Some v)) /\
  (forall stored : option string,
      reload_baseUrl (update_baseUrl (initial_baseUrl stored)) = initial_baseUrl stored).
Proof.
  split; [|split; [|split; [|split; [|split]]]].
  - intros [s|]; simpl; [|discriminate].
    destruct (nonempty (trim s)) eqn:E; [|discriminate].
    intro Z0. rewrite Z0 in E. discriminate.
  - reflexivity.
  - intros s A. apply trim_blank in A. unfold initial_baseUrl. now rewrite A.
  - intros s A. split; [|split].
    + unfold initial_baseUrl. destruct (nonempty (trim s)) eqn:E; [reflexivity|].
      apply nonempty_false, trim_blank in E. congruence.
    + unfold trim. apply trimEnd_clean, trimStart_clean.
    + destruct (trimStart_split s) as (p & Ep & Ap).
      destruct (trimEnd_split (trimStart s)) as (w & Ew & Aw).
      exists p, w. unfold trim. now rewrite <- Ew, <- Ep.
  - intros v. repeat split.
  - intros stored. unfold reload_baseUrl, update_baseUrl. cbn [stored_baseUrl].
    assert (D : initial_baseUrl (Some DEFAULT_BASE_URL) = DEFAULT_BASE_URL) by reflexivity.
    destruct stored as [s|]; [|exact D].
    unfold initial_baseUrl at 2 3. destruct (nonempty (trim s)) eqn:E; [|exact D].
    unfold initial_baseUrl. now rewrite trim_idempotent, E.
Qed.

End BaseUrl.

Lemma base_url_is_kept_witness :
  let blank := (Sample.nbsp ++ " ")%string in
  let typed := (" http://localhost:8000" ++ Sample.nbsp)%string in
  (all_space blank = true /\ all_space typed = false) /\
  BuilderB.initial_baseUrl (Some blank) = BuilderB.DEFAULT_BASE_URL /\
  BuilderB.initial_baseUrl (Some typed) = "http://localhost:8000" /\
  BuilderB.reload_baseUrl (BuilderB.update_baseUrl typed) = "http://localhost:8000".
Proof.
  intros blank typed.
  destruct base_url_is_kept as (_ & _ & A & B & C & _).
  split; [split; reflexivity|].
  split; [apply A; reflexivity|].
  split; [exact (proj1 (B typed eq_refl))|].
  rewrite (proj2 (proj2 (C typed))). exact (proj1 (B typed eq_refl)).
Defined.
